(** * Northstar financial data layer (src/core/finance.py)

    A shallow embedding of the price resolver, the balance fetchers, the
    portfolio aggregator, the policy gate client and the Jupiter swap flow,
    followed by the properties the specification states about them.
    The embedding also covers the Base58 encoder and the wallet address,
    the loggers, the Telegram conversation view, the transaction log, the
    fallback policy parser, the Polymarket readers and the budget gauge of
    the Telegram bot, with the properties the code itself shows.

    Conventions of the embedding.
    - Values decoded from HTTP bodies and user key files are untyped JSON
      ([json]); Python's dynamic failures on them ([KeyError], [TypeError],
      [ValueError], [IndexError], [AttributeError]) are explicit results
      ([res]), and every [try]/[except] of the source keeps its own list of
      caught exception classes.
    - Files the system itself owns (history log, ledger, last transaction,
      policy document, chain configuration) are typed by their schema, with
      an [option] for every key the source reads with a [.get] default.
    - Python numbers ([int] or [float]) that carry money or prices are exact
      rationals [Qc]; NaN, infinities, rounding error and range overflow of
      binary floats are outside the model.
    - Effects are a trace of [event]s: every HTTP call, policy-gate call and
      file write appends one event.  An external service answers a given
      request the same way throughout one invocation.  File writes always
      succeed (an unwritable state directory is fatal to every operation
      and is not modelled); the wall clock is read once per invocation. *)

From Stdlib Require Import ZArith QArith Qcanon String Ascii List Lia Sorted.
From stdpp Require Import base numbers strings list gmap pretty.

Set Warnings "-register-all".
Open Scope Z_scope.
Open Scope string_scope.

(** ** Python values and dynamic failures *)

Module Py.

Inductive exn : Type :=
| KeyError | TypeError | ValueError | IndexError | AttributeError.

#[global] Instance exn_eq_dec : EqDecision exn.
Proof. solve_decision. Defined.

Inductive res (A : Type) : Type :=
| Ok (a : A)
| Raise (e : exn).
Arguments Ok {A} a.
Arguments Raise {A} e.

Inductive json : Type :=
| JNull
| JBool (b : bool)
| JInt (n : Z)
| JFloat (q : Qc)
| JStr (s : string)
| JList (l : list json)
| JDict (d : list (string * json)).

(** A Python [dict] with string keys, in insertion order. *)
Abbreviation dict := (list (string * json)).

Fixpoint dict_lookup (k : string) (d : dict) : option json :=
  match d with
  | [] => None
  | (k', v) :: d' => if String.eqb k k' then Some v else dict_lookup k d'
  end.

(** [d[k] = v]: overwrite in place, or append a new key at the end. *)
Fixpoint dict_set (k : string) (v : json) (d : dict) : dict :=
  match d with
  | [] => [(k, v)]
  | (k', v') :: d' =>
      if String.eqb k k' then (k, v) :: d' else (k', v') :: dict_set k v d'
  end.

(** [d1.update(d2)], also [{**d1, **d2}]. *)
Definition dict_update (d1 d2 : dict) : dict :=
  fold_left (fun d kv => dict_set (fst kv) (snd kv) d) d2 d1.

(** Truth value of an object in a condition. *)
Definition truthy (v : json) : bool :=
  match v with
  | JNull => false
  | JBool b => b
  | JInt n => negb (Z.eqb n 0)
  | JFloat q => negb (bool_decide (q = 0%Qc))
  | JStr s => negb (String.eqb s "")
  | JList l => match l with [] => false | _ :: _ => true end
  | JDict d => match d with [] => false | _ :: _ => true end
  end.

(** [o.get(k, default)]: only a dict has the method. *)
Definition get (o : json) (k : string) (default : json) : res json :=
  match o with
  | JDict d => Ok (match dict_lookup k d with Some v => v | None => default end)
  | _ => Raise AttributeError
  end.

(** [o[k]] for a string key [k]. *)
Definition getitem_str (o : json) (k : string) : res json :=
  match o with
  | JDict d =>
      match dict_lookup k d with Some v => Ok v | None => Raise KeyError end
  | _ => Raise TypeError
  end.

(** [o[0]]. *)
Definition getitem_0 (o : json) : res json :=
  match o with
  | JList l => match l with x :: _ => Ok x | [] => Raise IndexError end
  | JStr s =>
      match s with
      | String c _ => Ok (JStr (String c EmptyString))
      | EmptyString => Raise IndexError
      end
  | JDict _ => Raise KeyError
  | _ => Raise TypeError
  end.

Definition Z2Qc (n : Z) : Qc := Q2Qc (inject_Z n).

(** What the interpreter's string conversions do is taken as given. *)
Record Runtime : Type := {
  float_of_str : string -> option Qc;   (* float(s); None is ValueError *)
  int_of_str : string -> option Z;      (* int(s); None is ValueError *)
  int_of_hex_str : string -> option Z;  (* int(s, 16); None is ValueError *)
  str : json -> string;                 (* str(x) *)
  strip : string -> string;             (* s.strip() *)
  format_2f : Qc -> string;             (* f"{x:.2f}" *)
  json_dumps : json -> string;          (* json.dumps(x) *)
  isoformat : Z -> string;              (* dt.isoformat() of a UTC instant *)
  fromisoformat : string -> option Z    (* datetime.fromisoformat(s), as UTC
                                           microseconds; naive is UTC *)
}.

Section Conversions.
Context (rt : Runtime).

(** [float(v)] *)
Definition float (v : json) : res Qc :=
  match v with
  | JFloat q => Ok q
  | JInt n => Ok (Z2Qc n)
  | JBool b => Ok (if b then 1%Qc else 0%Qc)
  | JStr s =>
      match float_of_str rt s with Some q => Ok q | None => Raise ValueError end
  | JNull | JList _ | JDict _ => Raise TypeError
  end.

(** [int(v)]: a float is truncated towards zero. *)
Definition int (v : json) : res Z :=
  match v with
  | JInt n => Ok n
  | JBool b => Ok (if b then 1 else 0)
  | JFloat q => Ok (Z.quot (Qnum q) (Zpos (Qden q)))
  | JStr s =>
      match int_of_str rt s with Some n => Ok n | None => Raise ValueError end
  | JNull | JList _ | JDict _ => Raise TypeError
  end.

(** [int(v, 16)]: an explicit base needs a string. *)
Definition int_base16 (v : json) : res Z :=
  match v with
  | JStr s =>
      match int_of_hex_str rt s with Some n => Ok n | None => Raise ValueError end
  | _ => Raise TypeError
  end.

End Conversions.

(** [round(x, ndigits)]: to the nearest multiple of [10^-ndigits], ties to
    the even one. *)
Definition round_half_even (q : Qc) : Z :=
  let n := Qnum q in
  let d := Zpos (Qden q) in
  let f := n / d in
  match (2 * (n mod d) ?= d) with
  | Lt => f
  | Gt => f + 1
  | Eq => if Z.even f then f else f + 1
  end.

Definition round (x : Qc) (ndigits : nat) : Qc :=
  let scale := Z.pow 10 (Z.of_nat ndigits) in
  (Z2Qc (round_half_even (x * Z2Qc scale)) / Z2Qc scale)%Qc.

(** [max(0, x)] *)
Definition max0 (x : Qc) : Qc := if bool_decide (0 < x)%Qc then x else 0%Qc.

(** [x / y] on numbers that are not strings or containers. *)
Definition number (v : json) : res Qc :=
  match v with
  | JInt n => Ok (Z2Qc n)
  | JFloat q => Ok q
  | JBool b => Ok (if b then 1%Qc else 0%Qc)
  | _ => Raise TypeError
  end.

(** [for item in v]: the items a loop over [v] visits. *)
Definition iter (v : json) : res (list json) :=
  match v with
  | JList l => Ok l
  | JDict d => Ok (map (fun kv => JStr (fst kv)) d)
  | JStr s => Ok (map (fun c => JStr (String c EmptyString)) (list_ascii_of_string s))
  | _ => Raise TypeError
  end.

(** [v[:8]] *)
Definition slice_to_8 (v : json) : res json :=
  match v with
  | JStr s => Ok (JStr (substring 0 8 s))
  | JList l => Ok (JList (firstn 8 l))
  | _ => Raise TypeError
  end.

(** The error monad of expressions that touch no external resource. *)
Definition rbind {A B} (r : res A) (k : A -> res B) : res B :=
  match r with Ok a => k a | Raise e => Raise e end.

(** [try: body / except (classes): handler] *)
Definition rcatch {A} (body : res A) (classes : list exn) (handler : res A) : res A :=
  match body with
  | Ok a => Ok a
  | Raise e => if bool_decide (e ∈ classes) then handler else Raise e
  end.

End Py.
Import Py.

Notation "'let?' x := r 'in' k" := (rbind r (fun x => k))
  (at level 10, x name, r at level 100, k at level 200).

(** ** Configuration *)

Definition COINGECKO_PRICE_URL : string := "https://api.coingecko.com/api/v3/simple/price".
Definition DEXSCREENER_URL : string := "https://api.dexscreener.com/latest/dex/tokens".
Definition JUPITER_SWAP_URL : string := "https://api.jup.ag/swap/v1".
Definition SOL_MINT : string := "So11111111111111111111111111111111111111112".
Definition USDC_MINT : string := "EPjFWdd5AufqSSqeM2qN1xzybapC8G4wEGGkZwyTDt1v".

Definition DECISIONS_LOG : string := "financial/memory/decisions.jsonl".
Definition EVENTS_LOG : string := "financial/events/financial_events.jsonl".
Definition TELEGRAM_MESSAGES_OUT : string := "financial/events/telegram_outbox.jsonl".

(** ** Data model *)

(** The request [check_policy] serialises to the policy script's stdin. *)
Record policy_request : Type := {
  req_chain : string;
  req_value_usd : Qc;
  req_to : string;
  req_commit : bool
}.

(** What [subprocess.run] does: it raises, or the process exits. *)
Inductive proc_outcome : Type :=
| ProcRaised (msg : string)
| ProcExited (returncode : Z) (stdout stderr : string).

(** One bucket of ledger.json. *)
Record day_entry : Type := {
  de_count : option Z;
  de_value_usd : option Qc
}.

(** policy.yaml, the keys [get_policy_status] reads. *)
Record policy_doc : Type := {
  pd_mode : option string;
  pd_max_tx_value_usd : option Qc;
  pd_max_daily_value_usd : option Qc;
  pd_max_daily_txs : option Z;
  pd_cooldown_seconds : option Z
}.

Record policy_status : Type := {
  mode : string;
  max_tx_usd : Qc;
  max_daily_usd : Qc;
  max_daily_txs : Z;
  daily_spent_usd : Qc;
  daily_tx_count : Z;
  daily_remaining_usd : Qc;
  cooldown_seconds : Z;
  cooldown_remaining : Z
}.

(** One row of a snapshot's [holdings]. *)
Record holding : Type := {
  h_chain : string;
  h_symbol : json;
  h_mint : json;
  h_amount : Qc;
  h_price_usd : Qc;
  h_value_usd : Qc
}.

Record snapshot : Type := {
  s_ts : string;
  s_total_value_usd : Qc;
  s_holdings : list holding;
  s_sol_balance : option Qc;
  s_sol_price : option Qc;
  s_base_balance : option Qc;
  s_eth_price : option Qc;
  s_policy : policy_status
}.

(** One line of portfolio_history.jsonl, the keys that are read back. *)
Record history_entry : Type := {
  he_ts : option string;
  he_total_value_usd : option Qc
}.

(** The line [compute_portfolio_snapshot] appends. *)
Record history_row : Type := {
  hr_ts : string;
  hr_total_value_usd : Qc;
  hr_sol_balance : option Qc;
  hr_sol_price : option Qc;
  hr_base_balance : option Qc;
  hr_eth_price : option Qc;
  hr_holdings_count : nat
}.

(** An entry of [get_solana_token_accounts]. *)
Record token_account : Type := {
  ta_mint : json;
  ta_amount : Qc;
  ta_decimals : json
}.

(** The dict [jupiter_swap] returns; a key that was never set is [None]. *)
Record swap_result : Type := {
  status : string;
  dry_run : bool;
  error : option string;
  quote : option dict;
  policy : option (bool * string);
  swap_transaction_b64 : option json
}.

(** ** External world and effects *)

Inductive event : Type :=
| EvHttpGet (url : string) (params : dict)
| EvHttpPost (url : string) (payload : json)
| EvCheckPolicy (req : policy_request)
| EvAppendJsonl (path : string) (entry : dict)
| EvWritePortfolio (snap : snapshot)
| EvAppendHistory (row : history_row)
| EvTelegram (message : string).

Record World : Type := {
  (* requests.get(...).json() and requests.post(...).json(); None when the
     call, the status check or the decoding raises *)
  http_get : string -> dict -> option json;
  http_post : string -> json -> option json;
  (* wallet/keys: the decoded file, None when missing or unreadable *)
  solana_keypair : option json;
  evm_key : option json;
  (* wallet/config/chain-config.json *)
  cfg_solana_rpc : option string;
  cfg_base_rpc : option string;
  (* the policy authority *)
  policy_script_exists : bool;
  run_policy_script : policy_request -> proc_outcome;
  policy_yaml : policy_doc;
  ledger : gmap string day_entry;
  last_tx_ts : option Z;
  (* financial/state/portfolio_history.jsonl, the lines that parse *)
  portfolio_history : list history_entry;
  (* Telegram: configured, and whether a send is acknowledged *)
  telegram_configured : bool;
  telegram_send : string -> option bool;
  (* the clock, in microseconds since the epoch, UTC *)
  now_us : Z
}.

(** A computation: its result and the events it performed, in order. *)
Definition M (A : Type) : Type := res A * list event.

Definition ret {A} (a : A) : M A := (Ok a, []).

Definition bind {A B} (m : M A) (k : A -> M B) : M B :=
  match m with
  | (Ok a, t) => let (r, t') := k a in (r, (t ++ t')%list)
  | (Raise e, t) => (Raise e, t)
  end.

Definition emit (e : event) : M unit := (Ok tt, [e]).

Definition lift {A} (r : res A) : M A := (r, []).

(** [try: body / except (classes): handler] around effectful code: what the
    body did before it raised stays done. *)
Definition catch {A} (body : M A) (classes : list exn) (handler : M A) : M A :=
  match body with
  | (Ok a, t) => (Ok a, t)
  | (Raise e, t) =>
      if bool_decide (e ∈ classes) then let (r, t') := handler in (r, (t ++ t')%list)
      else (Raise e, t)
  end.

(** [except Exception] *)
Definition Exception : list exn :=
  [KeyError; TypeError; ValueError; IndexError; AttributeError].

Notation "x <- m ;; k" := (bind m (fun x => k))
  (at level 100, m at next level, right associativity).
Notation "m ;;; k" := (bind m (fun _ => k))
  (at level 100, right associativity).

Definition result {A} (m : M A) : res A := fst m.
Definition trace {A} (m : M A) : list event := snd m.

(** ** The program *)

Section Program.
Context (rt : Runtime) (w : World).

(** [f"{v}"]: a string is itself, anything else goes through [str]. *)
Definition to_str (v : json) : string :=
  match v with JStr s => s | _ => str rt v end.

(** A condition on a value that may be [None]. *)
Definition truthy_opt (v : option json) : bool :=
  match v with Some j => truthy j | None => false end.

(** [if price:] on a [float | None]. *)
Definition truthy_price (p : option Qc) : bool :=
  match p with Some q => truthy (JFloat q) | None => false end.

(** *** JSONL helpers *)

Definition _utcnow : string := isoformat rt (now_us w).

Definition _append_jsonl (path : string) (entry : dict) : M unit :=
  emit (EvAppendJsonl path entry).

(** [entries[-limit:]] when [limit > 0]. *)
Definition _read_jsonl {A} (lines : list A) (limit : nat) : list A :=
  match limit with
  | O => lines
  | S _ => skipn (length lines - limit) lines
  end.

(** *** Chain config *)

Definition get_solana_rpc : string :=
  default "https://api.mainnet-beta.solana.com" (cfg_solana_rpc w).

Definition get_base_rpc : string :=
  default "https://mainnet.base.org" (cfg_base_rpc w).

(** *** Addresses *)

Definition b58_alphabet : string :=
  "123456789ABCDEFGHJKLMNPQRSTUVWXYZabcdefghijkmnopqrstuvwxyz".

Definition b58_char (r : Z) : ascii :=
  default "1"%char (String.get (Z.to_nat r) b58_alphabet).

(** The [while n > 0] loop: digits are produced least significant first. *)
Fixpoint b58_digits (fuel : nat) (n : Z) : list ascii :=
  match fuel with
  | O => []
  | S fuel' =>
      if Z.ltb 0 n then b58_char (n mod 58) :: b58_digits fuel' (n / 58) else []
  end.

(** The [for byte in data] loop: one ['1'] per leading zero byte. *)
Fixpoint b58_leading (data : list Z) : list ascii :=
  match data with
  | b :: data' => if Z.eqb b 0 then b58_char 0 :: b58_leading data' else []
  | [] => []
  end.

Definition int_from_bytes_big (data : list Z) : Z :=
  fold_left (fun acc b => acc * 256 + b) data 0.

Definition _b58encode (data : list Z) : string :=
  let n := int_from_bytes_big data in
  let digits := b58_digits (S (Z.to_nat (Z.log2 n))) n in
  string_of_list_ascii (rev (digits ++ b58_leading data)).

(** [bytes(l)]: every item must be an integer in [range(256)]. *)
Fixpoint bytes (l : list json) : res (list Z) :=
  match l with
  | [] => Ok []
  | x :: l' =>
      let? b := match x with
                | JInt n => if Z.leb 0 n && Z.ltb n 256 then Ok n else Raise ValueError
                | JBool b => Ok (if b then 1 else 0)
                | _ => Raise TypeError
                end in
      let? bs := bytes l' in
      Ok (b :: bs)
  end.

Definition get_solana_address : json :=
  match
    rcatch
      match solana_keypair w with
      | None => Ok (JStr "")
      | Some (JDict d) => get (JDict d) "public_key" (JStr "")
      | Some (JList kp) =>
          if Nat.leb 64 (length kp) then
            let? data := bytes (firstn 32 (skipn 32 kp)) in
            Ok (JStr (_b58encode data))
          else Ok (JStr "")
      | Some _ => Ok (JStr "")
      end
      Exception (Ok (JStr ""))
  with
  | Ok a => a
  | Raise _ => JStr ""
  end.

Definition get_base_address : json :=
  match
    rcatch
      match evm_key w with
      | None => Ok (JStr "")
      | Some data => get data "address" (JStr "")
      end
      Exception (Ok (JStr ""))
  with
  | Ok a => a
  | Raise _ => JStr ""
  end.

(** *** HTTP helpers *)

Definition _http_get_json (url : string) (params : dict) : M (option json) :=
  emit (EvHttpGet url params) ;;; ret (http_get w url params).

Definition _http_post_json (url : string) (payload : json) : M (option json) :=
  emit (EvHttpPost url payload) ;;; ret (http_post w url payload).

(** *** Price fetching *)

Definition _coingecko_price (coin_id : string) : M (option Qc) :=
  data <- _http_get_json COINGECKO_PRICE_URL
            [("ids", JStr coin_id); ("vs_currencies", JStr "usd")] ;;
  match data with
  | Some data =>
      if truthy data then
        lift (rcatch
                (let? entry := getitem_str data coin_id in
                 let? usd := getitem_str entry "usd" in
                 let? price := float rt usd in
                 Ok (Some price))
                [KeyError; TypeError; ValueError] (Ok None))
      else ret None
  | None => ret None
  end.

Definition _dexscreener_price (token_address : json) : M (option Qc) :=
  data <- _http_get_json (DEXSCREENER_URL ++ "/" ++ to_str token_address) [] ;;
  match data with
  | Some data =>
      if truthy data then
        lift (rcatch
                (let? pairs := get data "pairs" (JList []) in
                 if truthy pairs then
                   let? first := getitem_0 pairs in
                   let? usd := getitem_str first "priceUsd" in
                   let? price := float rt usd in
                   Ok (Some price)
                 else Ok None)
                [KeyError; TypeError; ValueError; IndexError] (Ok None))
      else ret None
  | None => ret None
  end.

Definition get_sol_price : M (option Qc) :=
  price <- _coingecko_price "solana" ;;
  if truthy_price price then ret price
  else _dexscreener_price (JStr SOL_MINT).

Definition get_eth_price : M (option Qc) :=
  price <- _coingecko_price "ethereum" ;;
  if truthy_price price then ret price
  else
    let weth_base := "0x4200000000000000000000000000000000000006" in
    _dexscreener_price (JStr weth_base).

Definition get_token_price (mint : json) : M (option Qc) :=
  _dexscreener_price mint.

(** *** Balance checking *)

Definition get_solana_balance : M (option Qc) :=
  let address := get_solana_address in
  if negb (truthy address) then ret None
  else
    let payload :=
      JDict [("jsonrpc", JStr "2.0"); ("id", JInt 1);
             ("method", JStr "getBalance"); ("params", JList [address])] in
    data <- _http_post_json get_solana_rpc payload ;;
    match data with
    | Some data =>
        if truthy data then
          lift (rcatch
                  (let? r := getitem_str data "result" in
                   let? lamports := getitem_str r "value" in
                   let? n := number lamports in
                   Ok (Some (n / Z2Qc 1000000000)%Qc))
                  [KeyError; TypeError] (Ok None))
        else ret None
    | None => ret None
    end.

(** One pass of the loop body of [get_solana_token_accounts]: the account to
    append, if its amount is positive. *)
Definition token_account_of (item : json) : res (option token_account) :=
  let? account := getitem_str item "account" in
  let? data := getitem_str account "data" in
  let? parsed := getitem_str data "parsed" in
  let? info := getitem_str parsed "info" in
  let? mint := getitem_str info "mint" in
  let? token_amount := getitem_str info "tokenAmount" in
  let? ui_amount := getitem_str token_amount "uiAmount" in
  let? amount := float rt (if truthy ui_amount then ui_amount else JInt 0) in
  let? token_amount' := getitem_str info "tokenAmount" in
  let? decimals := getitem_str token_amount' "decimals" in
  Ok (if bool_decide (0 < amount)%Qc
      then Some {| ta_mint := mint; ta_amount := amount; ta_decimals := decimals |}
      else None).

(** The loop appends to [accounts] as it goes: when an item raises, the
    accounts appended so far are kept. *)
Fixpoint token_accounts_loop (items : list json) (accounts : list token_account)
  : list token_account * option exn :=
  match items with
  | [] => (accounts, None)
  | item :: items' =>
      match token_account_of item with
      | Ok (Some a) => token_accounts_loop items' (accounts ++ [a])
      | Ok None => token_accounts_loop items' accounts
      | Raise e => (accounts, Some e)
      end
  end.

Definition get_solana_token_accounts : M (list token_account) :=
  let address := get_solana_address in
  if negb (truthy address) then ret []
  else
    let payload :=
      JDict [("jsonrpc", JStr "2.0"); ("id", JInt 1);
             ("method", JStr "getTokenAccountsByOwner");
             ("params",
              JList [address;
                     JDict [("programId", JStr "TokenkegQfeZyiNwAJbNbGKPFXCWuBvf9Ss623VQ5DA")];
                     JDict [("encoding", JStr "jsonParsed")]])] in
    data <- _http_post_json get_solana_rpc payload ;;
    if negb (truthy_opt data) then ret []
    else
      let data := default JNull data in
      match (let? r := getitem_str data "result" in
             let? v := getitem_str r "value" in
             iter v) with
      | Ok items =>
          match token_accounts_loop items [] with
          | (accounts, None) => ret accounts
          | (accounts, Some e) =>
              if bool_decide (e ∈ [KeyError; TypeError]) then ret accounts
              else lift (Raise e)
          end
      | Raise e =>
          if bool_decide (e ∈ [KeyError; TypeError]) then ret []
          else lift (Raise e)
      end.

Definition get_base_balance : M (option Qc) :=
  let address := get_base_address in
  if negb (truthy address) then ret None
  else
    let payload :=
      JDict [("jsonrpc", JStr "2.0"); ("id", JInt 1);
             ("method", JStr "eth_getBalance");
             ("params", JList [address; JStr "latest"])] in
    data <- _http_post_json get_base_rpc payload ;;
    match data with
    | Some data =>
        if truthy data then
          lift (rcatch
                  (let? r := getitem_str data "result" in
                   let? wei := int_base16 rt r in
                   Ok (Some (Z2Qc wei / Z2Qc (10 ^ 18))%Qc))
                  [KeyError; TypeError; ValueError] (Ok None))
        else ret None
    | None => ret None
    end.

(** *** Policy *)

Definition check_policy (chain : string) (value_usd : Qc) (to : string)
    (commit : bool) : M (bool * string) :=
  let req := {| req_chain := chain; req_value_usd := value_usd;
                req_to := to; req_commit := commit |} in
  emit (EvCheckPolicy req) ;;;
  if negb (policy_script_exists w) then ret (false, "policy_check.py not found")
  else
    match run_policy_script w req with
    | ProcExited returncode stdout stderr =>
        let output :=
          if truthy (JStr (strip rt stdout)) then strip rt stdout
          else strip rt stderr in
        ret (Z.eqb returncode 0, output)
    | ProcRaised e => ret (false, "policy check error: " ++ e)
    end.

(** Days since 1970-01-01 to (year, month, day), proleptic Gregorian. *)
Definition civil_from_days (days : Z) : Z * Z * Z :=
  let z := days + 719468 in
  let era := z / 146097 in
  let doe := z - era * 146097 in
  let yoe := (doe - doe / 1460 + doe / 36524 - doe / 146096) / 365 in
  let doy := doe - (365 * yoe + yoe / 4 - yoe / 100) in
  let mp := (5 * doy + 2) / 153 in
  let d := doy - (153 * mp + 2) / 5 + 1 in
  let m := if Z.ltb mp 10 then mp + 3 else mp - 9 in
  let y := yoe + era * 400 in
  (if Z.leb m 2 then y + 1 else y, m, d).

(** (year, month, day) to days since 1970-01-01: the inverse of
    [civil_from_days]. *)
Definition days_from_civil (y m d : Z) : Z :=
  let y := if Z.leb m 2 then y - 1 else y in
  let era := y / 400 in
  let yoe := y - era * 400 in
  let mp := (m + 9) mod 12 in
  let doy := (153 * mp + 2) / 5 + d - 1 in
  let doe := yoe * 365 + yoe / 4 - yoe / 100 + doy in
  era * 146097 + doe - 719468.

(** The first second of the year 10000, where ["%Y"] stops being four
    digits wide. *)
Definition year_10000 : Z := 253402300800.

Definition digit_char (n : Z) : ascii := ascii_of_nat (48 + Z.to_nat (n mod 10)).

Definition pad2 (n : Z) : string :=
  String (digit_char (n / 10)) (String (digit_char n) EmptyString).

Definition pad4 (n : Z) : string :=
  String (digit_char (n / 1000)) (String (digit_char (n / 100)) (pad2 n)).

(** [time.strftime("%Y-%m-%d", time.gmtime(t))], years 0 to 9999. *)
Definition strftime_ymd (t : Z) : string :=
  let '(y, m, d) := civil_from_days (t / 86400) in
  pad4 y ++ "-" ++ pad2 m ++ "-" ++ pad2 d.

(** [int(time.time())] *)
Definition time_now : Z := now_us w / 1000000.

Definition get_policy_status : policy_status :=
  let policy := policy_yaml w in
  let day_key := strftime_ymd time_now in
  let day_entry :=
    default {| de_count := Some 0; de_value_usd := Some 0%Qc |} (ledger w !! day_key) in
  let max_daily := default 0%Qc (pd_max_daily_value_usd policy) in
  let max_tx := default 0%Qc (pd_max_tx_value_usd policy) in
  let max_daily_txs := default 0 (pd_max_daily_txs policy) in
  let cooldown := default 0 (pd_cooldown_seconds policy) in
  let mode := default "UNKNOWN" (pd_mode policy) in
  let last_ts := default 0 (last_tx_ts w) in
  let cooldown_remaining :=
    if Z.ltb 0 cooldown && Z.ltb 0 last_ts then
      let elapsed := time_now - last_ts in
      Z.max 0 (cooldown - elapsed)
    else 0 in
  {| mode := mode;
     max_tx_usd := max_tx;
     max_daily_usd := max_daily;
     max_daily_txs := max_daily_txs;
     daily_spent_usd := default 0%Qc (de_value_usd day_entry);
     daily_tx_count := default 0 (de_count day_entry);
     daily_remaining_usd := max0 (max_daily - default 0%Qc (de_value_usd day_entry));
     cooldown_seconds := cooldown;
     cooldown_remaining := cooldown_remaining |}.

(** *** Telegram, event log, decision log *)

Definition send_telegram (message : string) : M bool :=
  if negb (telegram_configured w) then ret false
  else
    emit (EvTelegram message) ;;;
    match telegram_send w message with
    | Some true =>
        _append_jsonl TELEGRAM_MESSAGES_OUT
          [("ts", JStr _utcnow); ("to", JStr "operator"); ("message", JStr message)] ;;;
        ret true
    | Some false => ret false
    | None => ret false
    end.

Definition log_financial_event (event_type : string) (data : dict) : M unit :=
  let entry := [("ts", JStr _utcnow); ("event", JStr event_type)] in
  let entry := if truthy (JDict data) then dict_update entry data else entry in
  _append_jsonl EVENTS_LOG entry ;;;
  catch
    (send_telegram
       ("[" ++ event_type ++ "] " ++ substring 0 200 (json_dumps rt (JDict data))) ;;;
     ret tt)
    Exception (ret tt).

Definition record_decision (decision_type reasoning : string) (data : dict) : M unit :=
  let entry := [("ts", JStr _utcnow); ("type", JStr decision_type);
                ("reasoning", JStr reasoning)] in
  let entry := if truthy (JDict data) then dict_update entry data else entry in
  _append_jsonl DECISIONS_LOG entry.

(** *** Portfolio *)

(** The [for tok in tokens] loop of [compute_portfolio_snapshot], on the
    pair of accumulators ([holdings], [total_value]). *)
Fixpoint tokens_loop (tokens : list token_account) (acc : list holding * Qc)
  : M (list holding * Qc) :=
  match tokens with
  | [] => ret acc
  | tok :: tokens' =>
      price <- get_token_price (ta_mint tok) ;;
      match price with
      | Some price =>
          let val := (ta_amount tok * price)%Qc in
          let total_value := (snd acc + val)%Qc in
          symbol <- lift (slice_to_8 (ta_mint tok)) ;;
          tokens_loop tokens'
            ((fst acc ++ [{| h_chain := "solana"; h_symbol := symbol;
                            h_mint := ta_mint tok; h_amount := ta_amount tok;
                            h_price_usd := price; h_value_usd := val |}])%list,
             total_value)
      | None => tokens_loop tokens' acc
      end
  end.

Definition compute_portfolio_snapshot : M snapshot :=
  sol_bal <- get_solana_balance ;;
  sol_price <- get_sol_price ;;
  base_bal <- get_base_balance ;;
  eth_price <- get_eth_price ;;
  tokens <- get_solana_token_accounts ;;
  let acc : list holding * Qc := ([], 0%Qc) in
  let acc :=
    match sol_bal, sol_price with
    | Some sol_bal, Some sol_price =>
        let val := (sol_bal * sol_price)%Qc in
        ((fst acc ++ [{| h_chain := "solana"; h_symbol := JStr "SOL";
                        h_mint := JStr SOL_MINT; h_amount := sol_bal;
                        h_price_usd := sol_price; h_value_usd := val |}])%list,
         (snd acc + val)%Qc)
    | _, _ => acc
    end in
  let acc :=
    match base_bal, eth_price with
    | Some base_bal, Some eth_price =>
        let val := (base_bal * eth_price)%Qc in
        ((fst acc ++ [{| h_chain := "base"; h_symbol := JStr "ETH";
                        h_mint := JStr "native"; h_amount := base_bal;
                        h_price_usd := eth_price; h_value_usd := val |}])%list,
         (snd acc + val)%Qc)
    | _, _ => acc
    end in
  acc <- tokens_loop tokens acc ;;
  let holdings := fst acc in
  let total_value := snd acc in
  let snap :=
    {| s_ts := _utcnow;
       s_total_value_usd := round total_value 2;
       s_holdings := holdings;
       s_sol_balance := sol_bal;
       s_sol_price := sol_price;
       s_base_balance := base_bal;
       s_eth_price := eth_price;
       s_policy := get_policy_status |} in
  emit (EvWritePortfolio snap) ;;;
  emit (EvAppendHistory
          {| hr_ts := s_ts snap;
             hr_total_value_usd := s_total_value_usd snap;
             hr_sol_balance := sol_bal;
             hr_sol_price := sol_price;
             hr_base_balance := base_bal;
             hr_eth_price := eth_price;
             hr_holdings_count := length holdings |}) ;;;
  ret snap.

Record change_24h : Type := {
  change_usd : Qc;
  change_pct : Qc;
  value_24h_ago : Qc;
  current : Qc
}.

(** [s.endswith("Z")] and [s[:-1]] *)
Fixpoint endswith_Z (s : string) : bool :=
  match s with
  | EmptyString => false
  | String c EmptyString => Ascii.eqb c "Z"
  | String _ s' => endswith_Z s'
  end.

Fixpoint drop_last (s : string) : string :=
  match s with
  | EmptyString => EmptyString
  | String _ EmptyString => EmptyString
  | String c s' => String c (drop_last s')
  end.

(** A timestamp that does not parse counts as the present instant. *)
Definition _parse_ts (ts_str : string) : Z :=
  let s := strip rt ts_str in
  let s := if endswith_Z s then drop_last s ++ "+00:00" else s in
  match fromisoformat rt s with
  | Some dt => dt
  | None => now_us w
  end.

(** [abs(_parse_ts(entry.get("ts", "")) - target)], in microseconds. *)
Definition ts_delta (target : Z) (entry : history_entry) : Z :=
  Z.abs (_parse_ts (default "" (he_ts entry)) - target).

(** The [for entry in history] loop on ([best], [best_delta]). *)
Fixpoint nearest_loop (target : Z) (history : list history_entry)
    (best : history_entry) (best_delta : Z) : history_entry * Z :=
  match history with
  | [] => (best, best_delta)
  | entry :: history' =>
      let delta := ts_delta target entry in
      if Z.ltb delta best_delta then nearest_loop target history' entry delta
      else nearest_loop target history' best best_delta
  end.

Definition microseconds_24h : Z := 24 * 3600 * 1000000.

Definition get_portfolio_24h_change : change_24h :=
  let history := _read_jsonl (portfolio_history w) 200 in
  match history with
  | [] => {| change_usd := 0; change_pct := 0; value_24h_ago := 0; current := 0 |}
  | first :: _ =>
      let current := default 0%Qc (he_total_value_usd (List.last history first)) in
      let target := now_us w - microseconds_24h in
      let best := first in
      let best_delta := ts_delta target best in
      let best := fst (nearest_loop target history best best_delta) in
      let value_24h_ago := default 0%Qc (he_total_value_usd best) in
      let change := (current - value_24h_ago)%Qc in
      let pct :=
        if bool_decide (0 < value_24h_ago)%Qc
        then (change / value_24h_ago * Z2Qc 100)%Qc else 0%Qc in
      {| change_usd := round change 2;
         change_pct := round pct 2;
         value_24h_ago := value_24h_ago;
         current := current |}
  end.

(** *** Jupiter swap integration *)

Definition jupiter_get_quote (input_mint output_mint : string)
    (amount slippage_bps : Z) : M (option json) :=
  let params :=
    [("inputMint", JStr input_mint); ("outputMint", JStr output_mint);
     ("amount", JStr (str rt (JInt amount))); ("slippageBps", JInt slippage_bps);
     ("dynamicSlippage", JStr "false")] in
  emit (EvHttpGet (JUPITER_SWAP_URL ++ "/quote") params) ;;;
  ret (http_get w (JUPITER_SWAP_URL ++ "/quote") params).

(** The [.get] on the response is outside the [try]. *)
Definition jupiter_get_swap_tx (quote user_pubkey : json) : M json :=
  let payload := JDict [("quoteResponse", quote); ("userPublicKey", user_pubkey)] in
  emit (EvHttpPost (JUPITER_SWAP_URL ++ "/swap") payload) ;;;
  let data := http_post w (JUPITER_SWAP_URL ++ "/swap") payload in
  match data with
  | Some data =>
      if truthy data then lift (get data "swapTransaction" JNull)
      else ret JNull
  | None => ret JNull
  end.

(** [get_sol_price() or 0] *)
Definition price_or_0 (p : option Qc) : Qc :=
  if truthy_price p then default 0%Qc p else 0%Qc.

Definition jupiter_swap (input_mint output_mint : string)
    (amount slippage_bps : Z) (dry_run : bool) : M swap_result :=
  let result :=
    {| status := "error"; dry_run := dry_run; error := None; quote := None;
       policy := None; swap_transaction_b64 := None |} in
  quote <- jupiter_get_quote input_mint output_mint amount slippage_bps ;;
  if negb (truthy_opt quote) then
    ret {| status := status result; dry_run := dry_run;
           error := Some "Failed to get Jupiter quote"; quote := None;
           policy := None; swap_transaction_b64 := None |}
  else
    let quote := default JNull quote in
    value_usd <-
      catch
        (in_amount_raw <- lift (get quote "inAmount" (JInt 0)) ;;
         in_amount <- lift (int rt in_amount_raw) ;;
         price <- get_sol_price ;;
         let sol_price := price_or_0 price in
         if String.eqb input_mint SOL_MINT
         then ret (Z2Qc in_amount / Z2Qc 1000000000 * sol_price)%Qc
         else ret 0%Qc)
        [ValueError; TypeError] (ret 0%Qc) ;;
    in_amount_s <- lift (get quote "inAmount" (JStr "")) ;;
    out_amount_s <- lift (get quote "outAmount" (JStr "")) ;;
    price_impact <- lift (get quote "priceImpactPct" (JStr "?")) ;;
    let quote_info : dict :=
      [("input_mint", JStr input_mint);
       ("output_mint", JStr output_mint);
       ("in_amount", JStr (to_str in_amount_s));
       ("out_amount", JStr (to_str out_amount_s));
       ("price_impact_pct", price_impact);
       ("estimated_value_usd", JFloat (round value_usd 2))] in
    chk <- check_policy "solana" value_usd "jupiter_swap" false ;;
    let allowed := fst chk in
    let policy_msg := snd chk in
    if negb allowed then
      log_financial_event "swap_denied"
        (dict_update [("reason", JStr policy_msg)] quote_info) ;;;
      ret {| status := "policy_denied"; dry_run := dry_run; error := None;
             quote := Some quote_info; policy := Some (allowed, policy_msg);
             swap_transaction_b64 := None |}
    else if dry_run then
      ret {| status := "quote_ready"; dry_run := dry_run; error := None;
             quote := Some quote_info; policy := Some (allowed, policy_msg);
             swap_transaction_b64 := None |}
    else
      let address := get_solana_address in
      if negb (truthy address) then
        ret {| status := "error"; dry_run := dry_run;
               error := Some "No Solana wallet address";
               quote := Some quote_info; policy := Some (allowed, policy_msg);
               swap_transaction_b64 := None |}
      else
        swap_tx <- jupiter_get_swap_tx quote address ;;
        if negb (truthy swap_tx) then
          ret {| status := "error"; dry_run := dry_run;
                 error := Some "Failed to build swap transaction";
                 quote := Some quote_info; policy := Some (allowed, policy_msg);
                 swap_transaction_b64 := None |}
        else
          check_policy "solana" value_usd "jupiter_swap" true ;;;
          log_financial_event "swap"
            [("chain", JStr "solana");
             ("value_usd", JFloat value_usd);
             ("input_mint", JStr input_mint);
             ("output_mint", JStr output_mint);
             ("in_amount", JStr (to_str in_amount_s));
             ("out_amount", JStr (to_str out_amount_s))] ;;;
          record_decision "swap_executed"
            ("Jupiter swap " ++ substring 0 8 input_mint ++ "->"
               ++ substring 0 8 output_mint ++ ", ~$" ++ format_2f rt value_usd)
            quote_info ;;;
          ret {| status := "tx_ready"; dry_run := dry_run; error := None;
                 quote := Some quote_info; policy := Some (allowed, policy_msg);
                 swap_transaction_b64 := Some swap_tx |}.

End Program.

(** ** Observing a run

    The authorization and build calls of a trace, in the order they were
    made. *)

Definition swap_request (value_usd : Qc) (commit : bool) : policy_request :=
  {| req_chain := "solana"; req_value_usd := value_usd;
     req_to := "jupiter_swap"; req_commit := commit |}.

Definition is_commit_call (e : event) : bool :=
  match e with
  | EvCheckPolicy req => req_commit req
  | _ => false
  end.

Definition is_build_call (e : event) : bool :=
  match e with
  | EvHttpPost url _ => String.eqb url (JUPITER_SWAP_URL ++ "/swap")
  | _ => false
  end.

Definition is_gate_call (e : event) : bool :=
  match e with
  | EvCheckPolicy _ => true
  | _ => is_build_call e
  end.

Definition gate_calls (t : list event) : list event := List.filter is_gate_call t.

Definition commit_calls (t : list event) : list event := List.filter is_commit_call t.

Definition build_calls (t : list event) : list event := List.filter is_build_call t.

Definition http_gets (t : list event) : list string :=
  omap (fun e => match e with EvHttpGet url _ => Some url | _ => None end) t.

(** The answer the policy script gives to a request: allowed exactly when
    the script is installed, runs, and exits with status 0. *)
Definition authority_allows (w : World) (req : policy_request) : bool :=
  policy_script_exists w &&
  match run_policy_script w req with
  | ProcExited returncode _ _ => Z.eqb returncode 0
  | ProcRaised _ => false
  end.

(** The same world with other answers to committing requests. *)
Definition override_commit (w : World)
    (answer : policy_request -> proc_outcome) : World :=
  {| http_get := http_get w;
     http_post := http_post w;
     solana_keypair := solana_keypair w;
     evm_key := evm_key w;
     cfg_solana_rpc := cfg_solana_rpc w;
     cfg_base_rpc := cfg_base_rpc w;
     policy_script_exists := policy_script_exists w;
     run_policy_script :=
       fun req => if req_commit req then answer req else run_policy_script w req;
     policy_yaml := policy_yaml w;
     ledger := ledger w;
     last_tx_ts := last_tx_ts w;
     portfolio_history := portfolio_history w;
     telegram_configured := telegram_configured w;
     telegram_send := telegram_send w;
     now_us := now_us w |}.

(** The same world with another ledger file. *)
Definition with_ledger (w : World) (l : gmap string day_entry) : World :=
  {| http_get := http_get w;
     http_post := http_post w;
     solana_keypair := solana_keypair w;
     evm_key := evm_key w;
     cfg_solana_rpc := cfg_solana_rpc w;
     cfg_base_rpc := cfg_base_rpc w;
     policy_script_exists := policy_script_exists w;
     run_policy_script := run_policy_script w;
     policy_yaml := policy_yaml w;
     ledger := l;
     last_tx_ts := last_tx_ts w;
     portfolio_history := portfolio_history w;
     telegram_configured := telegram_configured w;
     telegram_send := telegram_send w;
     now_us := now_us w |}.

(** ** The stages of the swap flow

    [jupiter_swap] cut at the steps of the orchestrator's state machine;
    [jupiter_swap_stages] below shows that the program is their
    composition. *)

Section Stages.
Context (rt : Runtime) (w : World).
Context (input_mint output_mint : string).

(** Value: the [try] block that prices the quoted input amount. *)
Definition swap_value (quote : json) : M Qc :=
  catch
    (in_amount_raw <- lift (get quote "inAmount" (JInt 0)) ;;
     in_amount <- lift (int rt in_amount_raw) ;;
     price <- get_sol_price rt w ;;
     let sol_price := price_or_0 price in
     if String.eqb input_mint SOL_MINT
     then ret (Z2Qc in_amount / Z2Qc 1000000000 * sol_price)%Qc
     else ret 0%Qc)
    [ValueError; TypeError] (ret 0%Qc).

(** [result["quote"]] *)
Definition swap_quote_info (in_amount_s out_amount_s price_impact : json)
    (value_usd : Qc) : dict :=
  [("input_mint", JStr input_mint);
   ("output_mint", JStr output_mint);
   ("in_amount", JStr (to_str rt in_amount_s));
   ("out_amount", JStr (to_str rt out_amount_s));
   ("price_impact_pct", price_impact);
   ("estimated_value_usd", JFloat (round value_usd 2))].

(** Build, Authorize (commit), Finalize: what follows an allowed check of a
    swap that is not a dry run. *)
Definition swap_execute (dry_run : bool) (quote : json) (value_usd : Qc)
    (in_amount_s out_amount_s : json) (quote_info : dict)
    (allowed : bool) (policy_msg : string) : M swap_result :=
  let address := get_solana_address w in
  if negb (truthy address) then
    ret {| status := "error"; dry_run := dry_run;
           error := Some "No Solana wallet address";
           quote := Some quote_info; policy := Some (allowed, policy_msg);
           swap_transaction_b64 := None |}
  else
    swap_tx <- jupiter_get_swap_tx w quote address ;;
    if negb (truthy swap_tx) then
      ret {| status := "error"; dry_run := dry_run;
             error := Some "Failed to build swap transaction";
             quote := Some quote_info; policy := Some (allowed, policy_msg);
             swap_transaction_b64 := None |}
    else
      check_policy rt w "solana" value_usd "jupiter_swap" true ;;;
      log_financial_event rt w "swap"
        [("chain", JStr "solana");
         ("value_usd", JFloat value_usd);
         ("input_mint", JStr input_mint);
         ("output_mint", JStr output_mint);
         ("in_amount", JStr (to_str rt in_amount_s));
         ("out_amount", JStr (to_str rt out_amount_s))] ;;;
      record_decision rt w "swap_executed"
        ("Jupiter swap " ++ substring 0 8 input_mint ++ "->"
           ++ substring 0 8 output_mint ++ ", ~$" ++ format_2f rt value_usd)
        quote_info ;;;
      ret {| status := "tx_ready"; dry_run := dry_run; error := None;
             quote := Some quote_info; policy := Some (allowed, policy_msg);
             swap_transaction_b64 := Some swap_tx |}.

(** Authorize (check), Dry-run exit, and the rest. *)
Definition swap_gate (dry_run : bool) (quote : json) (value_usd : Qc)
    (in_amount_s out_amount_s : json) (quote_info : dict) : M swap_result :=
  chk <- check_policy rt w "solana" value_usd "jupiter_swap" false ;;
  let allowed := fst chk in
  let policy_msg := snd chk in
  if negb allowed then
    log_financial_event rt w "swap_denied"
      (dict_update [("reason", JStr policy_msg)] quote_info) ;;;
    ret {| status := "policy_denied"; dry_run := dry_run; error := None;
           quote := Some quote_info; policy := Some (allowed, policy_msg);
           swap_transaction_b64 := None |}
  else if dry_run then
    ret {| status := "quote_ready"; dry_run := dry_run; error := None;
           quote := Some quote_info; policy := Some (allowed, policy_msg);
           swap_transaction_b64 := None |}
  else
    swap_execute dry_run quote value_usd in_amount_s out_amount_s quote_info
      allowed policy_msg.

(** Everything after a quote was obtained. *)
Definition swap_quoted (dry_run : bool) (quote : json) : M swap_result :=
  value_usd <- swap_value quote ;;
  in_amount_s <- lift (get quote "inAmount" (JStr "")) ;;
  out_amount_s <- lift (get quote "outAmount" (JStr "")) ;;
  price_impact <- lift (get quote "priceImpactPct" (JStr "?")) ;;
  swap_gate dry_run quote value_usd in_amount_s out_amount_s
    (swap_quote_info in_amount_s out_amount_s price_impact value_usd).

End Stages.

Definition resolved {A} (m : M (option A)) : option A :=
  match result m with Ok a => a | Raise _ => None end.

(** The USD value of a quote as the program computes it: the quoted input
    amount in lamports times the SOL price when the input is SOL and the
    amount converts to an integer, and zero in every other case. *)
Definition quoted_value (rt : Runtime) (w : World) (input_mint : string)
    (quote : json) : Qc :=
  match get quote "inAmount" (JInt 0) with
  | Ok raw =>
      match int rt raw with
      | Ok in_amount =>
          if String.eqb input_mint SOL_MINT
          then (Z2Qc in_amount / Z2Qc 1000000000
                * price_or_0 (resolved (get_sol_price rt w)))%Qc
          else 0%Qc
      | Raise _ => 0%Qc
      end
  | Raise _ => 0%Qc
  end.

(** The parameters of the quote request. *)
Definition quote_params (rt : Runtime) (input_mint output_mint : string)
    (amount slippage_bps : Z) : dict :=
  [("inputMint", JStr input_mint); ("outputMint", JStr output_mint);
   ("amount", JStr (str rt (JInt amount))); ("slippageBps", JInt slippage_bps);
   ("dynamicSlippage", JStr "false")].

(** ** The terminal paths of the swap flow

    One constructor per way an invocation can end, with the result and the
    trace it leaves.  [jupiter_swap_run] below shows that every invocation
    of the program ends in one of them. *)

Definition quote_call (rt : Runtime) (input_mint output_mint : string)
    (amount slippage_bps : Z) : event :=
  EvHttpGet (JUPITER_SWAP_URL ++ "/quote")
    [("inputMint", JStr input_mint); ("outputMint", JStr output_mint);
     ("amount", JStr (str rt (JInt amount))); ("slippageBps", JInt slippage_bps);
     ("dynamicSlippage", JStr "false")].

Definition check_call (value_usd : Qc) : event :=
  EvCheckPolicy (swap_request value_usd false).

Definition commit_call (value_usd : Qc) : event :=
  EvCheckPolicy (swap_request value_usd true).

Definition build_call (w : World) (quote : json) : event :=
  EvHttpPost (JUPITER_SWAP_URL ++ "/swap")
    (JDict [("quoteResponse", quote); ("userPublicKey", get_solana_address w)]).

(** From the authorization check on: the result, and the trace from the
    check to the end. *)
Inductive gated (rt : Runtime) (w : World) (dry_run : bool) (quote : json)
    (value_usd : Qc) (quote_info : dict) : res swap_result -> list event -> Prop :=
| gated_denied (msg : string) (t : list event) :
    result (check_policy rt w "solana" value_usd "jupiter_swap" false) = Ok (false, msg) ->
    gate_calls t = [] ->
    gated rt w dry_run quote value_usd quote_info
      (Ok {| status := "policy_denied"; dry_run := dry_run; error := None;
             quote := Some quote_info; policy := Some (false, msg);
             swap_transaction_b64 := None |})
      (check_call value_usd
         :: EvAppendJsonl EVENTS_LOG
              (dict_update [("ts", JStr (_utcnow rt w)); ("event", JStr "swap_denied")]
                 (dict_update [("reason", JStr msg)] quote_info))
         :: t)
| gated_quote_ready (msg : string) :
    result (check_policy rt w "solana" value_usd "jupiter_swap" false) = Ok (true, msg) ->
    dry_run = true ->
    gated rt w dry_run quote value_usd quote_info
      (Ok {| status := "quote_ready"; dry_run := dry_run; error := None;
             quote := Some quote_info; policy := Some (true, msg);
             swap_transaction_b64 := None |})
      [check_call value_usd]
| gated_no_wallet (msg : string) :
    result (check_policy rt w "solana" value_usd "jupiter_swap" false) = Ok (true, msg) ->
    dry_run = false ->
    truthy (get_solana_address w) = false ->
    gated rt w dry_run quote value_usd quote_info
      (Ok {| status := "error"; dry_run := dry_run;
             error := Some "No Solana wallet address";
             quote := Some quote_info; policy := Some (true, msg);
             swap_transaction_b64 := None |})
      [check_call value_usd]
| gated_build_raised (msg : string) (e : exn) :
    result (check_policy rt w "solana" value_usd "jupiter_swap" false) = Ok (true, msg) ->
    dry_run = false ->
    truthy (get_solana_address w) = true ->
    result (jupiter_get_swap_tx w quote (get_solana_address w)) = Raise e ->
    gated rt w dry_run quote value_usd quote_info
      (Raise e)
      [check_call value_usd; build_call w quote]
| gated_build_failed (msg : string) (swap_tx : json) :
    result (check_policy rt w "solana" value_usd "jupiter_swap" false) = Ok (true, msg) ->
    dry_run = false ->
    truthy (get_solana_address w) = true ->
    result (jupiter_get_swap_tx w quote (get_solana_address w)) = Ok swap_tx ->
    truthy swap_tx = false ->
    gated rt w dry_run quote value_usd quote_info
      (Ok {| status := "error"; dry_run := dry_run;
             error := Some "Failed to build swap transaction";
             quote := Some quote_info; policy := Some (true, msg);
             swap_transaction_b64 := None |})
      [check_call value_usd; build_call w quote]
| gated_tx_ready (msg : string) (swap_tx : json) (t : list event) :
    result (check_policy rt w "solana" value_usd "jupiter_swap" false) = Ok (true, msg) ->
    dry_run = false ->
    truthy (get_solana_address w) = true ->
    result (jupiter_get_swap_tx w quote (get_solana_address w)) = Ok swap_tx ->
    truthy swap_tx = true ->
    gate_calls t = [] ->
    gated rt w dry_run quote value_usd quote_info
      (Ok {| status := "tx_ready"; dry_run := dry_run; error := None;
             quote := Some quote_info; policy := Some (true, msg);
             swap_transaction_b64 := Some swap_tx |})
      (check_call value_usd :: build_call w quote :: commit_call value_usd :: t).

(** A whole invocation. *)
Inductive swap_run (rt : Runtime) (w : World) (input_mint output_mint : string)
    (amount slippage_bps : Z) (dry_run : bool) : M swap_result -> Prop :=
| run_no_quote :
    truthy_opt (http_get w (JUPITER_SWAP_URL ++ "/quote")
                  (quote_params rt input_mint output_mint amount slippage_bps)) = false ->
    swap_run rt w input_mint output_mint amount slippage_bps dry_run
      (Ok {| status := "error"; dry_run := dry_run;
             error := Some "Failed to get Jupiter quote"; quote := None;
             policy := None; swap_transaction_b64 := None |},
       [quote_call rt input_mint output_mint amount slippage_bps])
| run_raised (quote : json) (t : list event) :
    http_get w (JUPITER_SWAP_URL ++ "/quote")
      (quote_params rt input_mint output_mint amount slippage_bps) = Some quote ->
    truthy quote = true ->
    (forall d, quote <> JDict d) \/ result (get_sol_price rt w) = Raise AttributeError ->
    gate_calls t = [] ->
    swap_run rt w input_mint output_mint amount slippage_bps dry_run
      (Raise AttributeError, t)
| run_gated (quote : json) (d : dict) (t : list event) (r : res swap_result)
    (calls : list event) :
    http_get w (JUPITER_SWAP_URL ++ "/quote")
      (quote_params rt input_mint output_mint amount slippage_bps) = Some quote ->
    truthy quote = true ->
    quote = JDict d ->
    gate_calls t = [] ->
    gated rt w dry_run quote (quoted_value rt w input_mint quote)
      (swap_quote_info rt input_mint output_mint
         (default (JStr "") (dict_lookup "inAmount" d))
         (default (JStr "") (dict_lookup "outAmount" d))
         (default (JStr "?") (dict_lookup "priceImpactPct" d))
         (quoted_value rt w input_mint quote))
      r calls ->
    swap_run rt w input_mint output_mint amount slippage_bps dry_run
      (r, (t ++ calls)%list).

(** ** The specification's reading of the data

    Definitions that follow the specification's words, to compare with the
    program. *)

(** PriceResolver, [resolve(assetRef)]: SOL goes through the primary source
    and then the fallback, any other token through the fallback alone. *)
Definition resolve_price (rt : Runtime) (w : World) (mint : string) : M (option Qc) :=
  if String.eqb mint SOL_MINT then get_sol_price rt w
  else get_token_price rt w (JStr mint).

(** An ordered pair of sources as the program chains them: the primary
    never raises; its price wins, with the fallback not consulted, whenever
    it is a number other than zero; otherwise the resolver is the fallback,
    consulted after the primary. *)
Definition first_nonzero_wins (resolver primary fallback : M (option Qc)) : Prop :=
  (exists p, result primary = Ok p) /\
  (forall p, result primary = Ok (Some p) -> p <> 0%Qc -> resolver = primary) /\
  (forall p, result primary = Ok (Some p) -> (0 < p)%Qc ->
     result resolver = Ok (Some p) /\ trace resolver = trace primary) /\
  (result primary = Ok None \/ result primary = Ok (Some 0%Qc) ->
     result resolver = result fallback /\
     trace resolver = (trace primary ++ trace fallback)%list).

(** A (chain, asset) pair the aggregator looks at, with what was resolved
    for it. *)
Record candidate : Type := {
  c_chain : string;
  c_symbol : json;
  c_mint : json;
  c_balance : option Qc;
  c_price : option Qc
}.

(** One Holding per pair where both a balance and a price were resolved. *)
Definition holding_of (c : candidate) : option holding :=
  match c_balance c, c_price c with
  | Some balance, Some price =>
      Some {| h_chain := c_chain c; h_symbol := c_symbol c; h_mint := c_mint c;
              h_amount := balance; h_price_usd := price;
              h_value_usd := (balance * price)%Qc |}
  | _, _ => None
  end.

Definition holdings_of (cs : list candidate) : list holding := omap holding_of cs.

Definition resolved_list {A} (m : M (list A)) : list A :=
  match result m with Ok l => l | Raise _ => [] end.

Definition token_candidate (rt : Runtime) (w : World) (tok : token_account) : candidate :=
  {| c_chain := "solana";
     c_symbol := match slice_to_8 (ta_mint tok) with Ok s => s | Raise _ => JNull end;
     c_mint := ta_mint tok;
     c_balance := Some (ta_amount tok);
     c_price := resolved (get_token_price rt w (ta_mint tok)) |}.

Definition candidates (rt : Runtime) (w : World) : list candidate :=
  {| c_chain := "solana"; c_symbol := JStr "SOL"; c_mint := JStr SOL_MINT;
     c_balance := resolved (get_solana_balance w);
     c_price := resolved (get_sol_price rt w) |}
  :: {| c_chain := "base"; c_symbol := JStr "ETH"; c_mint := JStr "native";
        c_balance := resolved (get_base_balance rt w);
        c_price := resolved (get_eth_price rt w) |}
  :: map (token_candidate rt w) (resolved_list (get_solana_token_accounts rt w)).

Definition sum_values (hs : list holding) : Qc :=
  fold_left (fun acc h => (acc + h_value_usd h)%Qc) hs 0%Qc.

(** The minimum-distance entry of a history, the first one on a tie. *)
Definition nearest_at (rt : Runtime) (w : World) (target : Z)
    (history : list history_entry) (i : nat) (best : history_entry) : Prop :=
  history !! i = Some best /\
  (forall j e, history !! j = Some e ->
     ts_delta rt w target best <= ts_delta rt w target e) /\
  (forall j e, (j < i)%nat -> history !! j = Some e ->
     ts_delta rt w target best < ts_delta rt w target e).

(** ** A concrete runtime and concrete worlds

    String conversions that are exact on plain ASCII decimal, hexadecimal
    and [YYYY-MM-DDTHH:MM:SS+00:00] strings, and the worlds the examples
    run in. *)

Module Ex.

Fixpoint digits_value (base : Z) (s : string) (acc : Z) : option Z :=
  match s with
  | EmptyString => Some acc
  | String c s' =>
      let n := Z.of_nat (nat_of_ascii c) in
      let d :=
        if Z.leb 48 n && Z.leb n 57 then Some (n - 48)
        else if Z.leb 97 n && Z.leb n 102 then Some (n - 87)
        else if Z.leb 65 n && Z.leb n 70 then Some (n - 55)
        else None in
      match d with
      | Some d => if Z.ltb d base then digits_value base s' (acc * base + d) else None
      | None => None
      end
  end.

Definition parse_nat (base : Z) (s : string) : option Z :=
  match s with
  | EmptyString => None
  | _ => digits_value base s 0
  end.

Definition parse_int (s : string) : option Z :=
  match s with
  | String "-" s' => option_map Z.opp (parse_nat 10 s')
  | _ => parse_nat 10 s
  end.

Definition parse_hex (s : string) : option Z :=
  match s with
  | String "0" (String "x" s') => parse_nat 16 s'
  | _ => parse_nat 16 s
  end.

(** The text before the first ['.'] and the text after it. *)
Fixpoint split_dot (s : string) : string * option string :=
  match s with
  | EmptyString => (EmptyString, None)
  | String "." s' => (EmptyString, Some s')
  | String c s' => let (a, b) := split_dot s' in (String c a, b)
  end.

Definition parse_unsigned_float (s : string) : option Qc :=
  match split_dot s with
  | (whole, None) => option_map Z2Qc (parse_nat 10 whole)
  | (whole, Some frac) =>
      match parse_nat 10 whole, parse_nat 10 frac with
      | Some a, Some b =>
          Some (Z2Qc a + Z2Qc b / Z2Qc (10 ^ Z.of_nat (String.length frac)))%Qc
      | _, _ => None
      end
  end.

Definition parse_float (s : string) : option Qc :=
  match s with
  | String "-" s' => option_map Qcopp (parse_unsigned_float s')
  | _ => parse_unsigned_float s
  end.

Definition is_space (c : ascii) : bool :=
  let n := nat_of_ascii c in
  Nat.eqb n 32 || (Nat.leb 9 n && Nat.leb n 13) || (Nat.leb 28 n && Nat.leb n 31).

Fixpoint lstrip (s : string) : string :=
  match s with
  | String c s' => if is_space c then lstrip s' else s
  | EmptyString => EmptyString
  end.

Fixpoint rstrip (s : string) : string :=
  match s with
  | EmptyString => EmptyString
  | String c s' =>
      match rstrip s' with
      | EmptyString => if is_space c then EmptyString else String c EmptyString
      | r => String c r
      end
  end.

Definition field (s : string) (start len : nat) : option Z :=
  parse_nat 10 (substring start len s).

(** [YYYY-MM-DDTHH:MM:SS+00:00] to microseconds since the epoch. *)
Definition parse_iso (s : string) : option Z :=
  if negb (Nat.eqb (String.length s) 25) then None
  else if negb (String.eqb (substring 19 6 s) "+00:00") then None
  else
    match field s 0 4, field s 5 2, field s 8 2,
          field s 11 2, field s 14 2, field s 17 2 with
    | Some y, Some mo, Some d, Some h, Some mi, Some sec =>
        Some ((days_from_civil y mo d * 86400 + h * 3600 + mi * 60 + sec) * 1000000)
    | _, _, _, _, _, _ => None
    end.

Definition format_iso (t : Z) : string :=
  let secs := t / 1000000 in
  let tod := secs mod 86400 in
  strftime_ymd secs ++ "T" ++ pad2 (tod / 3600) ++ ":" ++ pad2 (tod / 60 mod 60)
    ++ ":" ++ pad2 (tod mod 60) ++ "+00:00".

Definition format_cents (x : Qc) : string :=
  let c := round_half_even (x * Z2Qc 100) in
  (if Z.ltb c 0 then "-" else "") ++ pretty (Z.abs c / 100) ++ "." ++ pad2 (Z.abs c).

Definition show (v : json) : string :=
  match v with
  | JNull => "None"
  | JBool b => if b then "True" else "False"
  | JInt n => pretty n
  | JStr s => s
  | _ => "?"
  end.

Definition rt0 : Runtime :=
  {| float_of_str := fun s => parse_float (rstrip (lstrip s));
     int_of_str := fun s => parse_int (rstrip (lstrip s));
     int_of_hex_str := fun s => parse_hex (rstrip (lstrip s));
     str := show;
     strip := fun s => rstrip (lstrip s);
     format_2f := format_cents;
     json_dumps := show;
     isoformat := format_iso;
     fromisoformat := parse_iso |}.

(** 2024-03-02T00:00:00Z, in microseconds. *)
Definition T0 : Z := 1709337600 * 1000000.

Definition hours (n : Z) : Z := n * 3600 * 1000000.

Definition no_policy : policy_doc :=
  {| pd_mode := None; pd_max_tx_value_usd := None; pd_max_daily_value_usd := None;
     pd_max_daily_txs := None; pd_cooldown_seconds := None |}.

(** A world given by its network, its wallet key file, its policy script and
    its history; everything else is absent. *)
Definition world (get : string -> dict -> option json)
    (post : string -> json -> option json) (keypair : option json)
    (script : option (policy_request -> proc_outcome))
    (history : list history_entry) : World :=
  {| http_get := get;
     http_post := post;
     solana_keypair := keypair;
     evm_key := None;
     cfg_solana_rpc := None;
     cfg_base_rpc := None;
     policy_script_exists := match script with Some _ => true | None => false end;
     run_policy_script := default (fun _ => ProcRaised "no script") script;
     policy_yaml := no_policy;
     ledger := ∅;
     last_tx_ts := None;
     portfolio_history := history;
     telegram_configured := false;
     telegram_send := fun _ => None;
     now_us := T0 |}.

Definition quote_url : string := JUPITER_SWAP_URL ++ "/quote".
Definition swap_url : string := JUPITER_SWAP_URL ++ "/swap".
Definition sol_dex_url : string := DEXSCREENER_URL ++ "/" ++ SOL_MINT.
Definition usdc_dex_url : string := DEXSCREENER_URL ++ "/" ++ USDC_MINT.

Definition quote_body (in_amount out_amount : string) : json :=
  JDict [("inAmount", JStr in_amount); ("outAmount", JStr out_amount);
         ("priceImpactPct", JStr "0.01")].

Definition coingecko_body (coin : string) (usd : Qc) : json :=
  JDict [(coin, JDict [("usd", JFloat usd)])].

Definition dex_body (price_usd : string) : json :=
  JDict [("pairs", JList [JDict [("priceUsd", JStr price_usd)]])].

(** Jupiter quotes 1 SOL for USDC, CoinGecko prices SOL at 150 USD. *)
Definition get_sol_swap (url : string) (params : dict) : option json :=
  if String.eqb url quote_url then Some (quote_body "1000000000" "150000000")
  else if String.eqb url COINGECKO_PRICE_URL then Some (coingecko_body "solana" (Z2Qc 150))
  else None.

(** Jupiter quotes 1 USDC for SOL, DexScreener prices USDC at 1 USD; the
    primary source is down. *)
Definition get_usdc_swap (url : string) (params : dict) : option json :=
  if String.eqb url quote_url then Some (quote_body "1000000" "6600000")
  else if String.eqb url usdc_dex_url then Some (dex_body "1.0")
  else None.

(** CoinGecko prices SOL at 150 USD, DexScreener prices USDC at 1 USD and
    knows no other token. *)
Definition get_prices (url : string) (params : dict) : option json :=
  if String.eqb url COINGECKO_PRICE_URL then Some (coingecko_body "solana" (Z2Qc 150))
  else if String.eqb url usdc_dex_url then Some (dex_body "1.0")
  else None.

Definition token_item (mint : string) (ui_amount : json) : json :=
  JDict [("account",
          JDict [("data",
                  JDict [("parsed",
                          JDict [("info",
                                  JDict [("mint", JStr mint);
                                         ("tokenAmount",
                                          JDict [("uiAmount", ui_amount);
                                                 ("decimals", JInt 6)])])])])])].

(** The Solana RPC: 2 SOL, 25.5 USDC, 3 units of a token no source prices,
    and an empty token account. *)
Definition post_rpc (url : string) (payload : json) : option json :=
  match get payload "method" JNull with
  | Ok (JStr "getBalance") =>
      Some (JDict [("result", JDict [("value", JInt 2000000000)])])
  | Ok (JStr "getTokenAccountsByOwner") =>
      Some (JDict [("result",
                    JDict [("value",
                            JList [token_item USDC_MINT (JFloat (Q2Qc (51 # 2)));
                                   token_item "UnlistedMint1111111111111111111111111111111" (JInt 3);
                                   token_item "EmptyAccount1111111111111111111111111111111" JNull])])])
  | _ => None
  end.

(** The primary source is down and DexScreener lists SOL at price "0". *)
Definition get_zero_fallback (url : string) (params : dict) : option json :=
  if String.eqb url sol_dex_url then Some (dex_body "0") else None.

(** The primary source reports a negative number. *)
Definition get_negative_primary (url : string) (params : dict) : option json :=
  if String.eqb url COINGECKO_PRICE_URL then Some (coingecko_body "solana" (Z2Qc (-5)))
  else if String.eqb url sol_dex_url then Some (dex_body "150")
  else None.

(** The primary source is down and DexScreener answers with a JSON array. *)
Definition get_array_fallback (url : string) (params : dict) : option json :=
  if String.eqb url sol_dex_url then Some (JList [JInt 1]) else None.

Definition post_build (url : string) (payload : json) : option json :=
  if String.eqb url swap_url then Some (JDict [("swapTransaction", JStr "AQAAAA==")])
  else None.

Definition post_none (url : string) (payload : json) : option json := None.

Definition keypair_dict : json :=
  JDict [("public_key", JStr "7xKXtg2CW87d97TXJSDpbD5jBkheTqA83TZRuJosgAsU")].

Definition script_allow (req : policy_request) : proc_outcome :=
  ProcExited 0 "ok" "".

Definition script_deny (req : policy_request) : proc_outcome :=
  ProcExited 1 "DENY: daily limit exceeded" "".

Definition script_commit_fails (req : policy_request) : proc_outcome :=
  if req_commit req then ProcExited 1 "DENY: daily limit exceeded" ""
  else ProcExited 0 "ok" "".

Definition w_tx_ready : World :=
  world get_sol_swap post_build (Some keypair_dict) (Some script_allow) [].

Definition w_commit_denied : World :=
  world get_sol_swap post_build (Some keypair_dict) (Some script_commit_fails) [].

Definition w_denied : World :=
  world get_sol_swap post_build (Some keypair_dict) (Some script_deny) [].

Definition w_no_wallet : World :=
  world get_sol_swap post_build None (Some script_allow) [].

Definition w_portfolio : World :=
  world get_prices post_rpc (Some keypair_dict) None [].

Definition w_usdc : World :=
  world get_usdc_swap post_build (Some keypair_dict) (Some script_allow) [].

Definition w_zero_fallback : World :=
  world get_zero_fallback post_none None None [].

Definition w_negative_primary : World :=
  world get_negative_primary post_none None None [].

Definition w_array_fallback : World :=
  world get_array_fallback post_none None None [].

(** The history of the specification's example: snapshots 48, 25 and 23
    hours ago and now, worth 100, 110, 115 and 120. *)
Definition entry_at (t : Z) (value : Z) : history_entry :=
  {| he_ts := Some (format_iso t); he_total_value_usd := Some (Z2Qc value) |}.

Definition history_4 : list history_entry :=
  [entry_at (T0 - hours 48) 100; entry_at (T0 - hours 25) 110;
   entry_at (T0 - hours 23) 115; entry_at T0 120].

Definition w_history : World :=
  world (fun _ _ => None) post_none None None history_4.

(** The same history, queried one second after the last snapshot. *)
Definition w_history_later : World :=
  {| http_get := fun _ _ => None;
     http_post := post_none;
     solana_keypair := None;
     evm_key := None;
     cfg_solana_rpc := None;
     cfg_base_rpc := None;
     policy_script_exists := false;
     run_policy_script := fun _ => ProcRaised "no script";
     policy_yaml := no_policy;
     ledger := ∅;
     last_tx_ts := None;
     portfolio_history := history_4;
     telegram_configured := false;
     telegram_send := fun _ => None;
     now_us := T0 + 1000000 |}.

(** A policy of 1000 USD per day with a 60 second cooldown; yesterday's
    bucket holds 500 USD in 3 transactions, today's bucket does not exist
    yet, and the last action was 20 seconds ago. *)
Definition policy_60 (cooldown : Z) : policy_doc :=
  {| pd_mode := Some "LIVE"; pd_max_tx_value_usd := Some (Z2Qc 100);
     pd_max_daily_value_usd := Some (Z2Qc 1000); pd_max_daily_txs := Some 10;
     pd_cooldown_seconds := Some cooldown |}.

Definition yesterday_entry : day_entry :=
  {| de_count := Some 3; de_value_usd := Some (Z2Qc 500) |}.

Definition w_status (cooldown : Z) (last_ts : option Z) : World :=
  {| http_get := fun _ _ => None;
     http_post := post_none;
     solana_keypair := None;
     evm_key := None;
     cfg_solana_rpc := None;
     cfg_base_rpc := None;
     policy_script_exists := true;
     run_policy_script := script_allow;
     policy_yaml := policy_60 cooldown;
     ledger := {[ "2024-03-01" := yesterday_entry ]};
     last_tx_ts := last_ts;
     portfolio_history := [];
     telegram_configured := false;
     telegram_send := fun _ => None;
     now_us := T0 |}.

Definition w_rollover : World := w_status 60 (Some (1709337600 - 20)).

(** No cooldown is configured and the recorded last action is 100 seconds
    ahead of the local clock. *)
Definition w_clock_skew : World := w_status 0 (Some (1709337600 + 100)).

End Ex.

(** ** Observing more of a run *)

(** A network call, as opposed to a write to the state directory. *)
Definition is_http (e : event) : bool :=
  match e with
  | EvHttpGet _ _ | EvHttpPost _ _ => true
  | _ => false
  end.

Definition only_http (t : list event) : Prop := Forall (fun e => is_http e = true) t.

(** The log files a run appended a line to, in order. *)
Definition appended_paths (t : list event) : list string :=
  omap (fun e => match e with EvAppendJsonl path _ => Some path | _ => None end) t.

(** A JSON-RPC call to the Solana node, and one to the Base node. *)
Definition solana_rpc_call (w : World) (method : string) (params : list json) : event :=
  EvHttpPost (get_solana_rpc w)
    (JDict [("jsonrpc", JStr "2.0"); ("id", JInt 1);
            ("method", JStr method); ("params", JList params)]).

Definition base_rpc_call (w : World) (method : string) (params : list json) : event :=
  EvHttpPost (get_base_rpc w)
    (JDict [("jsonrpc", JStr "2.0"); ("id", JInt 1);
            ("method", JStr method); ("params", JList params)]).

(** The decoded answer of the token-accounts RPC call. *)
Definition token_accounts_response (w : World) : option json :=
  http_post w (get_solana_rpc w)
    (JDict [("jsonrpc", JStr "2.0"); ("id", JInt 1);
            ("method", JStr "getTokenAccountsByOwner");
            ("params",
             JList [get_solana_address w;
                    JDict [("programId", JStr "TokenkegQfeZyiNwAJbNbGKPFXCWuBvf9Ss623VQ5DA")];
                    JDict [("encoding", JStr "jsonParsed")]])]).

(** The history line that belongs to a snapshot. *)
Definition history_row_of (snap : snapshot) : history_row :=
  {| hr_ts := s_ts snap;
     hr_total_value_usd := s_total_value_usd snap;
     hr_sol_balance := s_sol_balance snap;
     hr_sol_price := s_sol_price snap;
     hr_base_balance := s_base_balance snap;
     hr_eth_price := s_eth_price snap;
     hr_holdings_count := length (s_holdings snap) |}.

(** The same world with another history file. *)
Definition with_history (w : World) (h : list history_entry) : World :=
  {| http_get := http_get w;
     http_post := http_post w;
     solana_keypair := solana_keypair w;
     evm_key := evm_key w;
     cfg_solana_rpc := cfg_solana_rpc w;
     cfg_base_rpc := cfg_base_rpc w;
     policy_script_exists := policy_script_exists w;
     run_policy_script := run_policy_script w;
     policy_yaml := policy_yaml w;
     ledger := ledger w;
     last_tx_ts := last_tx_ts w;
     portfolio_history := h;
     telegram_configured := telegram_configured w;
     telegram_send := telegram_send w;
     now_us := now_us w |}.

(** What a swap invocation may leave in the logs, by outcome: the event
    line, the outbox line of an acknowledged notification, the decision
    line. *)
Definition swap_log_lines (r : swap_result) (lines : list string) : Prop :=
  (status r = "tx_ready" /\
   (lines = [EVENTS_LOG; DECISIONS_LOG] \/
    lines = [EVENTS_LOG; TELEGRAM_MESSAGES_OUT; DECISIONS_LOG])) \/
  (status r = "policy_denied" /\
   (lines = [EVENTS_LOG] \/ lines = [EVENTS_LOG; TELEGRAM_MESSAGES_OUT])) \/
  ((status r = "error" \/ status r = "quote_ready") /\ lines = []).

(** A Python dict holds a key once. *)
Definition well_formed (d : dict) : Prop := NoDup (map fst d).

(** ** A Base58 decoder

    The inverse the encoder is checked against: one zero byte per leading
    ['1'], then the big-endian bytes of the numeral's value. *)

Fixpoint index_in (c : ascii) (s : string) (i : Z) : option Z :=
  match s with
  | EmptyString => None
  | String c' s' => if Ascii.eqb c c' then Some i else index_in c s' (i + 1)
  end.

Definition b58_index (c : ascii) : option Z := index_in c b58_alphabet 0.

(** The number a numeral denotes, most significant digit first. *)
Fixpoint b58_value (cs : list ascii) (acc : Z) : option Z :=
  match cs with
  | [] => Some acc
  | c :: cs' =>
      match b58_index c with
      | Some d => b58_value cs' (acc * 58 + d)
      | None => None
      end
  end.

Fixpoint count_ones (cs : list ascii) : nat :=
  match cs with
  | c :: cs' => if Ascii.eqb c "1" then S (count_ones cs') else O
  | [] => O
  end.

(** The bytes of a number, least significant first. *)
Fixpoint bytes_little (fuel : nat) (n : Z) : list Z :=
  match fuel with
  | O => []
  | S fuel' =>
      if Z.ltb 0 n then n mod 256 :: bytes_little fuel' (n / 256) else []
  end.

Definition b58decode (s : string) : option (list Z) :=
  let cs := list_ascii_of_string s in
  match b58_value cs 0 with
  | Some n =>
      Some (repeat 0 (count_ones cs)
              ++ rev (bytes_little (S (Z.to_nat (Z.log2 n))) n))%list
  | None => None
  end.

Fixpoint strip_zeros (data : list Z) : list Z :=
  match data with
  | b :: data' => if Z.eqb b 0 then strip_zeros data' else data
  | [] => []
  end.

Definition is_byte (b : Z) : Prop := 0 <= b < 256.

(** ** Alerts and research notes (src/core/finance.py) *)

Definition ALERTS_LOG : string := "financial/events/alerts.jsonl".
Definition RESEARCH_LOG : string := "financial/memory/research.jsonl".

Definition log_alert (rt : Runtime) (w : World) (alert_type message : string)
    (data : dict) : M unit :=
  let entry := [("ts", JStr (_utcnow rt w)); ("alert", JStr alert_type);
                ("message", JStr message)] in
  let entry := if truthy (JDict data) then dict_update entry data else entry in
  _append_jsonl ALERTS_LOG entry.

Definition record_research (rt : Runtime) (w : World) (topic findings : string)
    (data : dict) : M unit :=
  let entry := [("ts", JStr (_utcnow rt w)); ("topic", JStr topic);
                ("findings", JStr findings)] in
  let entry := if truthy (JDict data) then dict_update entry data else entry in
  _append_jsonl RESEARCH_LOG entry.

(** ** The transaction log (src/core/finance.py) *)

(** [l[-n:]]: the last [n] items when [n > 0]; [-0] is [0], so [l[-0:]] is
    the whole list; a negative [n] makes [-n] a start index. *)
Definition slice_last {A} (n : Z) (l : list A) : list A :=
  if Z.ltb 0 n then skipn (length l - Z.to_nat n) l
  else skipn (Z.to_nat (- n)) l.

Definition trade_types : list string :=
  ["trade"; "swap"; "transfer"; "bet"; "deposit"; "withdrawal"].

(** [x in trade_types]: membership in a set hashes [x]. *)
Definition in_trade_types (x : json) : res bool :=
  match x with
  | JStr s => Ok (bool_decide (s ∈ trade_types))
  | JList _ | JDict _ => Raise TypeError
  | JNull | JBool _ | JInt _ | JFloat _ => Ok false
  end.

(** [[e for e in events if e.get("event", "") in trade_types]] *)
Fixpoint trades_of (events : list json) : res (list json) :=
  match events with
  | [] => Ok []
  | e :: events' =>
      let? ty := get e "event" (JStr "") in
      let? keep := in_trade_types ty in
      let? rest := trades_of events' in
      Ok (if keep then e :: rest else rest)
  end.

(** [events_log]: the lines of financial_events.jsonl that parse, as
    untyped JSON (callers of [log_financial_event] choose the fields). *)
Definition get_transactions (events_log : list json) (limit : Z) : res (list json) :=
  let events := _read_jsonl events_log 200 in
  let? trades := trades_of events in
  Ok (slice_last limit trades).

(** An entry that is an object whose ["event"] is one of the trade types. *)
Definition is_trade (e : json) : Prop :=
  exists d ty, e = JDict d /\ dict_lookup "event" d = Some (JStr ty) /\ ty ∈ trade_types.

(** ** The conversation view (src/core/finance.py) *)

(** A line of telegram_messages.jsonl (written by the bot's [/msg] handler)
    or of telegram_outbox.jsonl (written by [send_telegram]), with the key
    the conversation view adds. *)
Record tg_message : Type := {
  tm_ts : option string;
  tm_from : option string;
  tm_to : option string;
  tm_message : option string;
  tm_direction : option string
}.

(** [m["direction"] = d] *)
Definition set_direction (d : string) (m : tg_message) : tg_message :=
  {| tm_ts := tm_ts m; tm_from := tm_from m; tm_to := tm_to m;
     tm_message := tm_message m; tm_direction := Some d |}.

(** [x.get("ts", "")] *)
Definition ts_key (m : tg_message) : string := default "" (tm_ts m).

(** [sorted(l, key=key)] on string keys, which Python compares by code
    point, that is bytewise on UTF-8.  Python's sort is stable, and the
    stable arrangement of a list under a total preorder is unique: it is
    computed here by inserting each item after the items that are not
    greater. *)
Fixpoint insert_sorted {A} (key : A -> string) (x : A) (l : list A) : list A :=
  match l with
  | [] => [x]
  | y :: l' =>
      if String.leb (key y) (key x) then y :: insert_sorted key x l'
      else x :: y :: l'
  end.

Definition sorted {A} (key : A -> string) (l : list A) : list A :=
  fold_left (fun acc x => insert_sorted key x acc) l [].

Definition key_le {A} (key : A -> string) (a b : A) : Prop :=
  String.leb (key a) (key b) = true.

(** [limit] is a Python int: [_read_jsonl] keeps everything unless it is
    positive. *)
Definition read_telegram_conversation (inbox_file outbox_file : list tg_message)
    (limit : Z) : list tg_message :=
  let inbox := _read_jsonl inbox_file (Z.to_nat limit) in
  let outbox := _read_jsonl outbox_file (Z.to_nat limit) in
  let inbox := map (set_direction "in") inbox in
  let outbox := map (set_direction "out") outbox in
  let combined := sorted ts_key (inbox ++ outbox) in
  slice_last limit combined.

(** ** Polymarket (src/core/finance.py) *)

Definition POLYMARKET_API : string := "https://gamma-api.polymarket.com".

(** The dict built for one market of the response. *)
Definition market_row (m : json) : res dict :=
  let? id := get m "id" (JStr "") in
  let? question := get m "question" (JStr "") in
  let? volume := get m "volume24hr" (JInt 0) in
  let? liquidity := get m "liquidity" (JInt 0) in
  let? end_date := get m "endDate" (JStr "") in
  let? outcomes := get m "outcomes" (JList []) in
  let? prices := get m "outcomePrices" (JList []) in
  Ok [("id", id); ("question", question); ("volume_24h", volume);
      ("liquidity", liquidity); ("end_date", end_date);
      ("outcomes", outcomes); ("outcome_prices", prices)].

Definition search_row (m : json) : res dict :=
  let? id := get m "id" (JStr "") in
  let? question := get m "question" (JStr "") in
  let? volume := get m "volume24hr" (JInt 0) in
  let? prices := get m "outcomePrices" (JList []) in
  Ok [("id", id); ("question", question); ("volume_24h", volume);
      ("outcome_prices", prices)].

(** A loop or comprehension that builds one row per item and stops at the
    first item that raises. *)
Fixpoint rows_of (row : json -> res dict) (items : list json) : res (list dict) :=
  match items with
  | [] => Ok []
  | m :: items' =>
      let? r := row m in
      let? rest := rows_of row items' in
      Ok (r :: rest)
  end.

Definition polymarket_get_markets (w : World) (limit : Z) (active : bool)
  : M (list dict) :=
  let params :=
    [("limit", JInt limit); ("active", JStr (if active then "true" else "false"));
     ("order", JStr "volume24hr"); ("ascending", JStr "false")] in
  data <- _http_get_json w (POLYMARKET_API ++ "/markets") params ;;
  match data with
  | Some data =>
      if truthy data then
        lift (rows_of market_row (match data with JList l => l | _ => [] end))
      else ret []
  | None => ret []
  end.

Definition polymarket_search (w : World) (query : string) (limit : Z)
  : M (list dict) :=
  let params :=
    [("limit", JInt limit); ("query", JStr query); ("active", JStr "true")] in
  data <- _http_get_json w (POLYMARKET_API ++ "/markets") params ;;
  match data with
  | Some (JList l) =>
      if truthy (JList l) then lift (rows_of search_row l) else ret []
  | _ => ret []
  end.

(** The items of a response body that the market loops visit. *)
Definition market_items (body : option json) : list json :=
  match body with
  | Some (JList l) => l
  | _ => []
  end.

Definition is_object (v : json) : bool :=
  match v with JDict _ => true | _ => false end.

(** ** The budget gauge of the bot's balance reply (src/telegram/bot.py) *)

(** [s * n]: the empty string when [n <= 0]. *)
Fixpoint str_repeat (s : string) (n : nat) : string :=
  match n with
  | O => ""
  | S n' => s ++ str_repeat s n'
  end.

Definition str_mul (s : string) (n : Z) : string := str_repeat s (Z.to_nat n).

(** [int(x)] on a float: truncation towards zero. *)
Definition trunc (x : Qc) : Z := Z.quot (Qnum x) (Zpos (Qden x)).

Definition budget_pct (daily_spent daily_max : Qc) : Qc :=
  if bool_decide (0 < daily_max)%Qc then (daily_spent / daily_max * Z2Qc 100)%Qc
  else 0%Qc.

(** [int(budget_pct / 12.5)] *)
Definition budget_filled (daily_spent daily_max : Qc) : Z :=
  trunc (budget_pct daily_spent daily_max / Q2Qc (25 # 2))%Qc.

(** Full blocks, then light-shade blocks; each is three bytes of UTF-8. *)
Definition budget_bar (daily_spent daily_max : Qc) : string :=
  let filled := budget_filled daily_spent daily_max in
  str_mul "█" filled ++ str_mul "░" (8 - filled).

(** ** The fallback policy parser (src/core/finance.py) *)

(** [s.lower()] on the ASCII letters.  The words it is compared with below
    hold no letter that a non-ASCII character lowers to, so the comparison
    is the one Python makes. *)
Definition ascii_lower (c : ascii) : ascii :=
  let n := nat_of_ascii c in
  if Nat.leb 65 n && Nat.leb n 90 then ascii_of_nat (n + 32) else c.

Fixpoint lower (s : string) : string :=
  match s with
  | EmptyString => EmptyString
  | String c s' => String (ascii_lower c) (lower s')
  end.

(** [s.split(c)[0]]: the text before the first [c]. *)
Fixpoint before_char (c : ascii) (s : string) : string :=
  match s with
  | EmptyString => EmptyString
  | String c' s' => if Ascii.eqb c' c then EmptyString else String c' (before_char c s')
  end.

(** [s.split(c, 1)] when [c in s]; [None] when it is not. *)
Fixpoint split_char (c : ascii) (s : string) : option (string * string) :=
  match s with
  | EmptyString => None
  | String c' s' =>
      if Ascii.eqb c' c then Some (EmptyString, s')
      else match split_char c s' with
           | Some (a, b) => Some (String c' a, b)
           | None => None
           end
  end.

(** [s.strip(c)] for a single character [c]. *)
Fixpoint lstrip_char (c : ascii) (s : string) : string :=
  match s with
  | String c' s' => if Ascii.eqb c' c then lstrip_char c s' else s
  | EmptyString => EmptyString
  end.

Fixpoint rstrip_char (c : ascii) (s : string) : string :=
  match s with
  | EmptyString => EmptyString
  | String c' s' =>
      match rstrip_char c s' with
      | EmptyString => if Ascii.eqb c' c then EmptyString else String c' EmptyString
      | r => String c' r
      end
  end.

Definition strip_char (c : ascii) (s : string) : string :=
  rstrip_char c (lstrip_char c s).

Definition double_quote : ascii := ascii_of_nat 34.

(** The value a line assigns: a boolean word, else an integer, else a
    float, else the text. *)
Definition yaml_value (rt : Runtime) (val : string) : json :=
  if bool_decide (lower val ∈ ["true"; "yes"]) then JBool true
  else if bool_decide (lower val ∈ ["false"; "no"]) then JBool false
  else
    match int_of_str rt val with
    | Some n => JInt n
    | None =>
        match float_of_str rt val with
        | Some q => JFloat q
        | None => JStr val
        end
    end.

(** One pass of the loop body: the assignment the line makes, if any. *)
Definition yaml_line (rt : Runtime) (line : string) : option (string * json) :=
  let line := strip rt (before_char "#" line) in
  if String.eqb line "" then None
  else
    match split_char ":" line with
    | None => None
    | Some (key, val) =>
        let key := strip rt key in
        let val := strip_char "'" (strip_char double_quote (strip rt val)) in
        if String.eqb val "" || String.eqb val "[]" || String.eqb val "{}" then None
        else Some (key, yaml_value rt val)
    end.

(** [lines] is [text.splitlines()]. *)
Definition _parse_simple_yaml (rt : Runtime) (lines : list string) : dict :=
  fold_left
    (fun result line =>
       match yaml_line rt line with
       | Some (key, v) => dict_set key v result
       | None => result
       end)
    lines [].

(** A value the parser can produce. *)
Definition yaml_scalar (v : json) : Prop :=
  match v with
  | JBool _ | JInt _ | JFloat _ => True
  | JStr s => s <> "" /\ s <> "[]" /\ s <> "{}"
  | JNull | JList _ | JDict _ => False
  end.

(** ** A wallet key file

    A 64-item key file in the Solana CLI's format: 32 secret bytes, then
    the 32 bytes of the public key. *)

Module ExKey.

Definition secret_half : list json := map (fun n => JInt (Z.of_nat n)) (seq 1 32).

Definition public_half : list json := map (fun n => JInt (Z.of_nat n)) (seq 101 32).

Definition w_keypair_list : World :=
  Ex.world (fun _ _ => None) Ex.post_none
    (Some (JList (secret_half ++ public_half ++ []))) None [].

End ExKey.

(** * Properties *)

(** ** The embedding on known values *)

(** The [while n > 0] loop of [_b58encode] has run to its end with the fuel
    [_b58encode] gives it: more fuel changes nothing. *)
Lemma b58_digits_zero (fuel : nat) : b58_digits fuel 0 = [].
Proof. now destruct fuel. Qed.

Lemma b58_digits_fuel (fuel : nat) :
  forall n, (Z.to_nat (Z.log2 n) < fuel)%nat ->
            b58_digits (S fuel) n = b58_digits fuel n.
Proof.
  induction fuel as [| fuel IH]; intros n H; [lia |].
  cbn [b58_digits]. destruct (Z.ltb_spec 0 n) as [Hn | Hn]; [| reflexivity].
  f_equal.
  destruct (Z.eq_dec (n / 58) 0) as [-> | Hq].
  - now rewrite !b58_digits_zero.
  - apply IH.
    assert (Hpos : 0 < n / 58) by (Z.div_mod_to_equations; lia).
    assert (Hle : 2 * (n / 58) <= n) by (Z.div_mod_to_equations; lia).
    pose proof (Z.log2_le_mono _ _ Hle) as Hl.
    rewrite (Z.log2_double _ Hpos) in Hl.
    pose proof (Z.log2_nonneg (n / 58)). lia.
Qed.

Example b58encode_hello_world :
  _b58encode [72; 101; 108; 108; 111; 32; 87; 111; 114; 108; 100; 33]
  = "2NEpo7TZRRrLZSi2U".
Proof. vm_compute. reflexivity. Qed.

Example b58encode_leading_zeros : _b58encode [0; 0; 1; 2; 3] = "11Ldp".
Proof. vm_compute. reflexivity. Qed.

Example strftime_ymd_leap_day :
  strftime_ymd 951782400 = "2000-02-29" /\ strftime_ymd 951868800 = "2000-03-01" /\
  strftime_ymd 0 = "1970-01-01" /\ strftime_ymd 1767225599 = "2025-12-31".
Proof. repeat split. Qed.

Example round_half_even_cents :
  round (Q2Qc (2675 # 1000)) 2 = Q2Qc (268 # 100) /\
  round (Q2Qc (2665 # 1000)) 2 = Q2Qc (266 # 100) /\
  round (Q2Qc (-5 # 1000)) 2 = 0%Qc /\
  round (Z2Qc 150) 2 = Z2Qc 150.
Proof. repeat split; apply Qc_is_canon; vm_compute; reflexivity. Qed.

(** ** Traces *)

Lemma gate_calls_app (t1 t2 : list event) :
  gate_calls (t1 ++ t2) = (gate_calls t1 ++ gate_calls t2)%list.
Proof. unfold gate_calls. apply List.filter_app. Qed.

(** ** The policy gate client *)

Lemma check_policy_run (rt : Runtime) (w : World) (chain : string)
    (value_usd : Qc) (to : string) (commit : bool) :
  exists message,
    check_policy rt w chain value_usd to commit =
      (Ok (authority_allows w
             {| req_chain := chain; req_value_usd := value_usd;
                req_to := to; req_commit := commit |}, message),
       [EvCheckPolicy {| req_chain := chain; req_value_usd := value_usd;
                         req_to := to; req_commit := commit |}]).
Proof.
  unfold check_policy, authority_allows.
  destruct (policy_script_exists w); cbn.
  - destruct (run_policy_script w _); cbn; eauto.
  - eauto.
Qed.


(** ** The status query *)

(** [civil_from_days] is inverted by [days_from_civil], so distinct days have
    distinct dates; with four-digit years, distinct dates print as distinct
    keys. *)
Lemma civil_from_days_inverse (z : Z) :
  let '(y, m, d) := civil_from_days z in
  days_from_civil y m d = z /\ 1 <= m <= 12 /\ 1 <= d <= 31.
Proof.
  unfold civil_from_days, days_from_civil.
  set (z' := z + 719468).
  set (era := z' / 146097).
  set (doe := z' - era * 146097).
  assert (Hz : z = era * 146097 + doe - 719468) by (subst doe z'; lia).
  assert (Hdoe : 0 <= doe <= 146096).
  { subst doe era. Z.div_mod_to_equations. lia. }
  clearbody doe era. clear z'.
  set (yoe := (doe - doe / 1460 + doe / 36524 - doe / 146096) / 365).
  assert (Hyoe : 0 <= yoe <= 399).
  { subst yoe. Z.div_mod_to_equations. lia. }
  set (doy := doe - (365 * yoe + yoe / 4 - yoe / 100)).
  assert (Hdoy : 0 <= doy <= 365).
  { subst doy yoe. Z.div_mod_to_equations. lia. }
  assert (Hdoe' : doe = yoe * 365 + yoe / 4 - yoe / 100 + doy) by (subst doy; lia).
  clearbody doy. clearbody yoe.
  set (mp := (5 * doy + 2) / 153).
  assert (Hmp : 0 <= mp <= 11) by (subst mp; Z.div_mod_to_equations; lia).
  set (d := doy - (153 * mp + 2) / 5 + 1).
  assert (Hd : 1 <= d <= 31) by (subst d mp; Z.div_mod_to_equations; lia).
  assert (Hdoy' : doy = (153 * mp + 2) / 5 + d - 1) by (subst d; lia).
  clearbody d. clearbody mp.
  destruct (Z.ltb_spec mp 10); destruct (Z.leb_spec (mp + 3) 2); destruct (Z.leb_spec (mp - 9) 2); try lia.
  - split; [| lia].
    replace ((mp + 3 + 9) mod 12) with mp by (Z.div_mod_to_equations; lia).
    replace ((yoe + era * 400) / 400) with era by (Z.div_mod_to_equations; lia).
    replace (yoe + era * 400 - era * 400) with yoe by lia. lia.
  - split; [| lia].
    replace ((mp - 9 + 9) mod 12) with mp by (Z.div_mod_to_equations; lia).
    replace (yoe + era * 400 + 1 - 1) with (yoe + era * 400) by lia.
    replace ((yoe + era * 400) / 400) with era by (Z.div_mod_to_equations; lia).
    replace (yoe + era * 400 - era * 400) with yoe by lia. lia.
Qed.

Lemma digit_char_inj (a b : Z) : digit_char a = digit_char b -> a mod 10 = b mod 10.
Proof.
  unfold digit_char. intros H. apply (f_equal nat_of_ascii) in H.
  pose proof (Z.mod_pos_bound a 10 ltac:(lia)).
  pose proof (Z.mod_pos_bound b 10 ltac:(lia)).
  rewrite !nat_ascii_embedding in H by lia. lia.
Qed.

Lemma pad2_inj (a b : Z) : 0 <= a < 100 -> 0 <= b < 100 -> pad2 a = pad2 b -> a = b.
Proof.
  unfold pad2. intros Ha Hb H. inversion H as [[H1 H2]].
  apply digit_char_inj in H1, H2. Z.div_mod_to_equations. lia.
Qed.

Lemma pad4_inj (a b : Z) : 0 <= a < 10000 -> 0 <= b < 10000 -> pad4 a = pad4 b -> a = b.
Proof.
  unfold pad4, pad2. intros Ha Hb H. inversion H as [[H1 H2 H3 H4]].
  apply digit_char_inj in H1, H2, H3, H4. Z.div_mod_to_equations. lia.
Qed.

Lemma civil_year_range (z : Z) :
  0 <= z < year_10000 / 86400 ->
  let '(y, m, d) := civil_from_days z in 0 <= y < 10000.
Proof.
  intros Hz. pose proof (civil_from_days_inverse z) as H.
  destruct (civil_from_days z) as [[y m] d]. destruct H as (H & Hm & Hd).
  change (year_10000 / 86400) with 2932897 in Hz.
  unfold days_from_civil in H.
  destruct (Z.leb_spec m 2); Z.div_mod_to_equations; lia.
Qed.

Lemma strftime_ymd_inj (t1 t2 : Z) :
  0 <= t1 < year_10000 -> 0 <= t2 < year_10000 ->
  strftime_ymd t1 = strftime_ymd t2 -> t1 / 86400 = t2 / 86400.
Proof.
  intros H1 H2. unfold strftime_ymd.
  assert (R1 : 0 <= t1 / 86400 < year_10000 / 86400) by (unfold year_10000 in *; Z.div_mod_to_equations; lia).
  assert (R2 : 0 <= t2 / 86400 < year_10000 / 86400) by (unfold year_10000 in *; Z.div_mod_to_equations; lia).
  pose proof (civil_from_days_inverse (t1 / 86400)) as I1.
  pose proof (civil_from_days_inverse (t2 / 86400)) as I2.
  pose proof (civil_year_range _ R1) as Y1.
  pose proof (civil_year_range _ R2) as Y2.
  destruct (civil_from_days (t1 / 86400)) as [[y1 m1] d1].
  destruct (civil_from_days (t2 / 86400)) as [[y2 m2] d2].
  destruct I1 as (I1 & Hm1 & Hd1). destruct I2 as (I2 & Hm2 & Hd2).
  intros H. unfold pad4, pad2 in H. cbn [append] in H. inversion H.
  assert (y1 = y2) by (apply pad4_inj; [lia | lia | unfold pad4, pad2; congruence]).
  assert (m1 = m2) by (apply pad2_inj; [lia | lia | unfold pad2; congruence]).
  assert (d1 = d2) by (apply pad2_inj; [lia | lia | unfold pad2; congruence]).
  congruence.
Qed.

Lemma max0_spec (x : Qc) :
  ((0 < x)%Qc -> max0 x = x) /\ ((x <= 0)%Qc -> max0 x = 0%Qc).
Proof.
  unfold max0. split; intros H.
  - now rewrite bool_decide_eq_true_2.
  - rewrite bool_decide_eq_false_2; [reflexivity |].
    intros Hlt. apply (Qclt_not_le _ _ Hlt H).
Qed.




(** ** The 24h change *)

(** [history[-1]] is the entry at the last position. *)
Lemma lookup_last_cons {A} (l : list A) (x d : A) :
  (x :: l) !! (length (x :: l) - 1)%nat = Some (List.last (x :: l) d).
Proof.
  revert x. induction l as [| y l IH]; intros x; [reflexivity |].
  change (List.last (x :: y :: l) d) with (List.last (y :: l) d).
  rewrite <- (IH y). cbn [length].
  replace (S (S (length l)) - 1)%nat with (S (S (length l) - 1)) by lia.
  reflexivity.
Qed.

Section Nearest.
Context (rt : Runtime) (w : World) (target : Z).

(** The loop keeps the first entry of minimum distance among those it has
    visited: [pre] are the visited entries, [i] the position of [best]. *)
Lemma nearest_loop_first_minimum (history pre : list history_entry)
    (best : history_entry) (i : nat) :
  (pre ++ history)%list !! i = Some best ->
  (forall j e, pre !! j = Some e ->
     ts_delta rt w target best <= ts_delta rt w target e) ->
  (forall j e, (j < i)%nat -> (pre ++ history)%list !! j = Some e ->
     ts_delta rt w target best < ts_delta rt w target e) ->
  exists i',
    nearest_at rt w target (pre ++ history)
      i' (fst (nearest_loop rt w target history best (ts_delta rt w target best))).
Proof.
  revert pre best i.
  induction history as [| entry history IH]; intros pre best i Hbest Hmin Hfirst.
  - exists i. cbn [nearest_loop fst]. rewrite app_nil_r in *.
    repeat split; eauto.
  - cbn [nearest_loop].
    replace (pre ++ entry :: history)%list with ((pre ++ [entry]) ++ history)%list
      in * by (rewrite <- app_assoc; reflexivity).
    destruct (Z.ltb_spec (ts_delta rt w target entry) (ts_delta rt w target best))
      as [Hlt | Hge].
    + apply (IH (pre ++ [entry])%list entry (length pre)).
      * rewrite lookup_app_l by (rewrite length_app; cbn; lia).
        rewrite lookup_app_r by lia. now rewrite Nat.sub_diag.
      * intros j e Hj. apply lookup_app_Some in Hj as [Hj | [_ Hj]].
        -- specialize (Hmin j e Hj). lia.
        -- destruct (j - length pre)%nat; cbn in Hj; [| now destruct n].
           inversion Hj. lia.
      * intros j e Hj He.
        rewrite lookup_app_l in He by (rewrite length_app; cbn; lia).
        rewrite lookup_app_l in He by lia.
        specialize (Hmin j e He). lia.
    + apply (IH (pre ++ [entry])%list best i); [assumption | | assumption].
      intros j e Hj. apply lookup_app_Some in Hj as [Hj | [_ Hj]].
      * eauto.
      * destruct (j - length pre)%nat; cbn in Hj; [| now destruct n].
        inversion Hj. subst. lia.
Qed.

End Nearest.



(** ** The price resolver *)

Lemma getitem_str_raises (o : json) (k : string) (e : exn) :
  getitem_str o k = Raise e -> e = KeyError \/ e = TypeError.
Proof. unfold getitem_str. repeat case_match; intros; simplify_eq; auto. Qed.

Lemma getitem_0_raises (o : json) (e : exn) :
  getitem_0 o = Raise e -> e = IndexError \/ e = KeyError \/ e = TypeError.
Proof. unfold getitem_0. repeat case_match; intros; simplify_eq; auto. Qed.

Lemma float_raises (rt : Runtime) (v : json) (e : exn) :
  float rt v = Raise e -> e = ValueError \/ e = TypeError.
Proof. unfold float. repeat case_match; intros; simplify_eq; auto. Qed.

Lemma get_raises (o : json) (k : string) (default : json) (e : exn) :
  get o k default = Raise e -> e = AttributeError /\ forall d, o <> JDict d.
Proof. unfold get. destruct o; intros; simplify_eq; split; try reflexivity; discriminate. Qed.

(** A [try] whose [except] lists every exception its body can raise, and
    whose handler returns, returns. *)
Lemma rcatch_total {A} (body : res A) (classes : list exn) (a : A) :
  (forall e, body = Raise e -> e ∈ classes) ->
  exists r, rcatch body classes (Ok a) = Ok r.
Proof.
  intros H. destruct body as [x | e]; cbn; [eauto |].
  rewrite bool_decide_eq_true_2 by auto. eauto.
Qed.

Lemma coingecko_price_run (rt : Runtime) (w : World) (coin_id : string) :
  exists p,
    _coingecko_price rt w coin_id =
      (Ok p, [EvHttpGet COINGECKO_PRICE_URL
                [("ids", JStr coin_id); ("vs_currencies", JStr "usd")]]).
Proof.
  unfold _coingecko_price, _http_get_json. cbn.
  destruct (http_get w _ _) as [data |]; cbn; [| eauto].
  destruct (truthy data); cbn; [| eauto].
  match goal with
  | |- context [rcatch ?body ?classes (Ok ?a)] =>
      destruct (rcatch_total body classes a) as [r Hr]
  end.
  - intros e. unfold rbind.
    destruct (getitem_str data coin_id) as [entry | e1] eqn:H1.
    2: { intros He; inversion He; subst.
         destruct (getitem_str_raises _ _ _ H1) as [-> | ->]; set_solver. }
    destruct (getitem_str entry "usd") as [usd | e2] eqn:H2.
    2: { intros He; inversion He; subst.
         destruct (getitem_str_raises _ _ _ H2) as [-> | ->]; set_solver. }
    destruct (float rt usd) as [price | e3] eqn:H3; [discriminate |].
    intros He; inversion He; subst.
    destruct (float_raises _ _ _ H3) as [-> | ->]; set_solver.
  - unfold lift. rewrite Hr. cbn. eauto.
Qed.

Lemma dexscreener_price_trace (rt : Runtime) (w : World) (token_address : json) :
  trace (_dexscreener_price rt w token_address) =
    [EvHttpGet (DEXSCREENER_URL ++ "/" ++ to_str rt token_address) []].
Proof.
  unfold _dexscreener_price, _http_get_json. cbn.
  destruct (http_get w _ _) as [data |]; cbn; [| reflexivity].
  destruct (truthy data); cbn; reflexivity.
Qed.

(** The fallback source raises only on a decoded body that is truthy and is
    not a JSON object, through the [.get] that [except] does not list. *)
Lemma dexscreener_price_raises (rt : Runtime) (w : World) (token_address : json)
    (e : exn) :
  result (_dexscreener_price rt w token_address) = Raise e ->
  e = AttributeError /\
  exists body,
    http_get w (DEXSCREENER_URL ++ "/" ++ to_str rt token_address) [] = Some body /\
    truthy body = true /\ forall d, body <> JDict d.
Proof.
  unfold _dexscreener_price, _http_get_json. cbn.
  destruct (http_get w _ _) as [data |] eqn:Hget; cbn; [| discriminate].
  destruct (truthy data) eqn:Ht; cbn; [| discriminate].
  unfold rbind.
  destruct (get data "pairs" (JList [])) as [pairs | e0] eqn:Hpairs.
  - intros H. exfalso. revert H.
    match goal with
    | |- context [rcatch ?body ?classes (Ok ?a)] =>
        destruct (rcatch_total body classes a) as [r Hr]; [| rewrite Hr; discriminate]
    end.
    intros e'. destruct (truthy pairs); [| discriminate].
    destruct (getitem_0 pairs) as [first | e1] eqn:H1.
    2: { intros He; inversion He; subst.
         destruct (getitem_0_raises _ _ H1) as [-> | [-> | ->]]; set_solver. }
    destruct (getitem_str first "priceUsd") as [usd | e2] eqn:H2.
    2: { intros He; inversion He; subst.
         destruct (getitem_str_raises _ _ _ H2) as [-> | ->]; set_solver. }
    destruct (float rt usd) as [price | e3] eqn:H3; [discriminate |].
    intros He; inversion He; subst.
    destruct (float_raises _ _ _ H3) as [-> | ->]; set_solver.
  - destruct (get_raises _ _ _ _ Hpairs) as [-> Hd]. cbn.
    intros H. inversion H; subst. split; [reflexivity |]. eauto.
Qed.

Lemma truthy_price_nonzero (p : Qc) :
  truthy_price (Some p) = true <-> p <> 0%Qc.
Proof.
  unfold truthy_price, truthy. rewrite negb_true_iff, bool_decide_eq_false.
  reflexivity.
Qed.

Lemma chain_first_nonzero_wins (primary fallback : M (option Qc)) :
  (exists p t, primary = (Ok p, t)) ->
  first_nonzero_wins
    (price <- primary ;; if truthy_price price then ret price else fallback)
    primary fallback.
Proof.
  intros (p0 & t & ->).
  assert (Hnz : forall p, p <> 0%Qc ->
            (price <- (Ok (Some p), t) ;;
             if truthy_price price then ret price else fallback)
            = (Ok (Some p) : res (option Qc), t)).
  { intros p Hp. unfold bind.
    rewrite (proj2 (truthy_price_nonzero p) Hp). unfold ret.
    now rewrite app_nil_r. }
  assert (Hpos : forall p, Ok (Some p) = Ok p0 -> (0 < p)%Qc ->
            (price <- (Ok p0, t) ;;
             if truthy_price price then ret price else fallback)
            = (Ok (Some p) : res (option Qc), t)).
  { intros p Hp Hlt. inversion Hp; subst. apply Hnz.
    intros ->. now apply Qclt_not_eq in Hlt. }
  split; [eauto |]. split; [| split].
  - intros p Hp Hne. cbn in Hp. inversion Hp; subst. now apply Hnz.
  - intros p Hp Hlt. cbn in Hp. symmetry in Hp.
    rewrite (Hpos p Hp Hlt). split; reflexivity.
  - intros H. cbn in H.
    destruct H as [H | H]; inversion H; subst; cbn; now destruct fallback.
Qed.



(** ** The swap flow *)

(** The program is the composition of its stages. *)
Lemma jupiter_swap_stages (rt : Runtime) (w : World)
    (input_mint output_mint : string) (amount slippage_bps : Z) (dry_run : bool) :
  jupiter_swap rt w input_mint output_mint amount slippage_bps dry_run =
    (quote <- jupiter_get_quote rt w input_mint output_mint amount slippage_bps ;;
     if negb (truthy_opt quote) then
       ret {| status := "error"; dry_run := dry_run;
              error := Some "Failed to get Jupiter quote"; quote := None;
              policy := None; swap_transaction_b64 := None |}
     else swap_quoted rt w input_mint output_mint dry_run (default JNull quote)).
Proof. reflexivity. Qed.

Lemma bind_ok {A B} (m : M A) (k : A -> M B) (a : A) (t : list event) :
  m = (Ok a, t) -> bind m k = (result (k a), (t ++ trace (k a))%list).
Proof. intros ->. unfold bind, result, trace. now destruct (k a). Qed.

Lemma bind_raise {A B} (m : M A) (k : A -> M B) (e : exn) (t : list event) :
  m = (Raise e, t) -> bind m k = (Raise e, t).
Proof. now intros ->. Qed.

Lemma build_calls_gate (t : list event) :
  build_calls t = build_calls (gate_calls t).
Proof.
  unfold build_calls, gate_calls. induction t as [| e t IH]; [reflexivity |].
  destruct e; cbn; try exact IH.
  destruct (String.eqb url _) eqn:E; cbn; rewrite ?E; [f_equal |]; exact IH.
Qed.

Lemma in_gate_calls (e : event) (t : list event) :
  In e t -> is_gate_call e = true -> In e (gate_calls t).
Proof. intros Hin He. apply List.filter_In. auto. Qed.

Lemma bind_cong {A B} (m m' : M A) (k k' : A -> M B) :
  m = m' -> (forall a, k a = k' a) -> bind m k = bind m' k'.
Proof. intros -> H. unfold bind. destruct m' as [[a | e] t]; [now rewrite H | reflexivity]. Qed.

Lemma commit_calls_gate (t : list event) :
  commit_calls t = commit_calls (gate_calls t).
Proof.
  unfold commit_calls, gate_calls. induction t as [| e t IH]; [reflexivity |].
  destruct e; cbn; rewrite ?IH; try reflexivity.
  all: repeat case_match; cbn; rewrite ?IH; try reflexivity; congruence.
Qed.

Lemma get_sol_price_gate_calls (rt : Runtime) (w : World) :
  gate_calls (trace (get_sol_price rt w)) = [].
Proof.
  unfold get_sol_price.
  destruct (coingecko_price_run rt w "solana") as [p Hp]. rewrite Hp.
  unfold bind. destruct (truthy_price p); [reflexivity |].
  pose proof (dexscreener_price_trace rt w (JStr SOL_MINT)) as Ht.
  destruct (_dexscreener_price rt w (JStr SOL_MINT)) as [r t].
  cbn in Ht. subst t. reflexivity.
Qed.

(** The only exception [get_sol_price] lets through. *)
Lemma get_sol_price_raises (rt : Runtime) (w : World) (e : exn) :
  result (get_sol_price rt w) = Raise e -> e = AttributeError.
Proof.
  unfold get_sol_price.
  destruct (coingecko_price_run rt w "solana") as [p Hp]. rewrite Hp.
  unfold bind. destruct (truthy_price p); [discriminate |].
  pose proof (dexscreener_price_raises rt w (JStr SOL_MINT) e) as Hr.
  destruct (_dexscreener_price rt w (JStr SOL_MINT)) as [r t].
  cbn in *. intros H. now destruct (Hr H).
Qed.

Lemma int_raises (rt : Runtime) (v : json) (e : exn) :
  int rt v = Raise e -> e = ValueError \/ e = TypeError.
Proof. unfold int. repeat case_match; intros; simplify_eq; auto. Qed.

(** Value: the stage calls no gate; it returns [quoted_value] on a quote
    that is an object, unless [get_sol_price] raises; it raises
    [AttributeError] in the two other cases. *)
Lemma swap_value_run (rt : Runtime) (w : World) (input_mint : string) (quote : json) :
  exists r t,
    swap_value rt w input_mint quote = (r, t) /\
    gate_calls t = [] /\
    ((r = Ok (quoted_value rt w input_mint quote) /\ exists d, quote = JDict d) \/
     (r = Raise AttributeError /\
      ((forall d, quote <> JDict d) \/
       result (get_sol_price rt w) = Raise AttributeError))).
Proof.
  unfold swap_value, quoted_value, resolved.
  destruct quote; cbn;
    try (eexists _, _; split; [reflexivity |]; split; [reflexivity |];
         right; split; [reflexivity |]; left; discriminate).
  set (raw := match dict_lookup "inAmount" d with Some v => v | None => JInt 0 end).
  destruct (int rt raw) as [n | e] eqn:Hint; cbn.
  - pose proof (get_sol_price_gate_calls rt w) as Hg.
    pose proof (get_sol_price_raises rt w) as Hr.
    destruct (get_sol_price rt w) as [[p | e] t]; cbn in *.
    + destruct (String.eqb input_mint SOL_MINT); cbn;
        (eexists _, _; split; [reflexivity |]; rewrite app_nil_r;
         split; [exact Hg |]; left; split; [reflexivity | eauto]).
    + rewrite (Hr e eq_refl). cbn.
      eexists _, _. split; [reflexivity |]. split; [exact Hg |].
      right. split; [reflexivity |]. now right.
  - destruct (int_raises rt raw e Hint) as [-> | ->]; cbn;
      (eexists _, _; split; [reflexivity |]; split; [reflexivity |];
       left; split; [reflexivity | eauto]).
Qed.

Lemma send_telegram_run (rt : Runtime) (w : World) (message : string) :
  exists r t, send_telegram rt w message = (Ok r, t) /\ gate_calls t = [].
Proof.
  unfold send_telegram. destruct (telegram_configured w); cbn; [| eauto].
  destruct (telegram_send w message) as [[|] |]; cbn; eauto.
Qed.

(** The event is appended to the log, then the notification is attempted;
    neither is a gate call and the whole never raises. *)
Lemma log_financial_event_run (rt : Runtime) (w : World) (event_type : string)
    (data : dict) :
  exists t,
    log_financial_event rt w event_type data =
      (Ok tt,
       EvAppendJsonl EVENTS_LOG
         (if truthy (JDict data)
          then dict_update [("ts", JStr (_utcnow rt w)); ("event", JStr event_type)] data
          else [("ts", JStr (_utcnow rt w)); ("event", JStr event_type)]) :: t) /\
    gate_calls t = [].
Proof.
  unfold log_financial_event, _append_jsonl.
  destruct (send_telegram_run rt w
              ("[" ++ event_type ++ "] " ++ substring 0 200 (json_dumps rt (JDict data))))
    as (r & t & Hs & Hg).
  rewrite Hs. cbn. rewrite app_nil_r. eauto.
Qed.

Lemma record_decision_run (rt : Runtime) (w : World) (ty reasoning : string)
    (data : dict) :
  exists entry, record_decision rt w ty reasoning data =
                  (Ok tt, [EvAppendJsonl DECISIONS_LOG entry]).
Proof. unfold record_decision, _append_jsonl, emit. eauto. Qed.

Lemma jupiter_get_swap_tx_run (w : World) (quote user_pubkey : json) :
  exists r,
    jupiter_get_swap_tx w quote user_pubkey =
      (r, [EvHttpPost (JUPITER_SWAP_URL ++ "/swap")
             (JDict [("quoteResponse", quote); ("userPublicKey", user_pubkey)])]).
Proof.
  unfold jupiter_get_swap_tx. cbn.
  destruct (http_post w _ _) as [data |]; cbn; [| eauto].
  destruct (truthy data); cbn; [| eauto].
  destruct (get data "swapTransaction" JNull); cbn; eauto.
Qed.

Lemma dict_set_nonempty (k : string) (v : json) (d : dict) : dict_set k v d <> [].
Proof. destruct d as [| [k' v'] d]; cbn; [discriminate |]. now destruct (String.eqb k k'). Qed.

Lemma dict_update_nonempty (d1 d2 : dict) : d1 <> [] -> dict_update d1 d2 <> [].
Proof.
  unfold dict_update. revert d1.
  induction d2 as [| kv d2 IH]; intros d1 H; cbn; [exact H |].
  apply IH, dict_set_nonempty.
Qed.

Lemma truthy_dict_update (d1 d2 : dict) :
  d1 <> [] -> truthy (JDict (dict_update d1 d2)) = true.
Proof.
  intros H. pose proof (dict_update_nonempty d1 d2 H) as Hne.
  cbn. now destruct (dict_update d1 d2).
Qed.

(** Build, commit and finalize end in one of four ways. *)
Lemma swap_execute_run (rt : Runtime) (w : World) (input_mint output_mint : string)
    (quote : json) (value_usd : Qc) (in_amount_s out_amount_s : json)
    (quote_info : dict) (msg : string) :
  result (check_policy rt w "solana" value_usd "jupiter_swap" false) = Ok (true, msg) ->
  gated rt w false quote value_usd quote_info
    (result (swap_execute rt w input_mint output_mint false quote value_usd
               in_amount_s out_amount_s quote_info true msg))
    (check_call value_usd
       :: trace (swap_execute rt w input_mint output_mint false quote value_usd
                   in_amount_s out_amount_s quote_info true msg)).
Proof.
  intros Hchk. unfold swap_execute.
  destruct (truthy (get_solana_address w)) eqn:Haddr; cbn [negb].
  2: { now apply gated_no_wallet with (msg := msg). }
  destruct (jupiter_get_swap_tx_run w quote (get_solana_address w)) as [r Hb].
  fold (build_call w quote) in Hb.
  destruct r as [swap_tx | e].
  2: { rewrite (bind_raise _ _ _ _ Hb).
       apply gated_build_raised with (msg := msg); try assumption; try reflexivity.
       now rewrite Hb. }
  rewrite (bind_ok _ _ _ _ Hb).
  destruct (truthy swap_tx) eqn:Htx; cbn [negb].
  2: { apply gated_build_failed with (msg := msg) (swap_tx := swap_tx);
         try assumption; try reflexivity. now rewrite Hb. }
  destruct (check_policy_run rt w "solana" value_usd "jupiter_swap" true) as [msg' Hc].
  rewrite (bind_ok _ _ _ _ Hc).
  match goal with
  | |- context [log_financial_event rt w ?ty ?data] =>
      destruct (log_financial_event_run rt w ty data) as (t & Hl & Hg)
  end.
  rewrite (bind_ok _ _ _ _ Hl).
  match goal with
  | |- context [record_decision rt w ?ty ?reasoning ?data] =>
      destruct (record_decision_run rt w ty reasoning data) as [entry Hd]
  end.
  rewrite (bind_ok _ _ _ _ Hd).
  cbn [result trace fst snd ret app].
  apply gated_tx_ready with (msg := msg); try assumption; try reflexivity.
  - now rewrite Hb.
  - change (gate_calls (t ++ [EvAppendJsonl DECISIONS_LOG entry]) = []).
    rewrite gate_calls_app, Hg. reflexivity.
Qed.

(** From the check on, every run is one of the six gated paths. *)
Lemma swap_gate_run (rt : Runtime) (w : World) (input_mint output_mint : string)
    (dry_run : bool) (quote : json) (value_usd : Qc) (in_amount_s out_amount_s : json)
    (quote_info : dict) :
  gated rt w dry_run quote value_usd quote_info
    (result (swap_gate rt w input_mint output_mint dry_run quote value_usd
               in_amount_s out_amount_s quote_info))
    (trace (swap_gate rt w input_mint output_mint dry_run quote value_usd
              in_amount_s out_amount_s quote_info)).
Proof.
  unfold swap_gate.
  destruct (check_policy_run rt w "solana" value_usd "jupiter_swap" false) as [msg Hc].
  fold (swap_request value_usd false) in Hc. fold (check_call value_usd) in Hc.
  rewrite (bind_ok _ _ _ _ Hc). cbn [fst snd].
  assert (Hres : result (check_policy rt w "solana" value_usd "jupiter_swap" false)
                 = Ok (authority_allows w (swap_request value_usd false), msg))
    by now rewrite Hc.
  destruct (authority_allows w (swap_request value_usd false)) eqn:Ha; cbn [negb].
  - destruct dry_run.
    + cbn [result trace fst snd ret app].
      now apply gated_quote_ready with (msg := msg).
    + now apply swap_execute_run.
  - match goal with
    | |- context [log_financial_event rt w ?ty ?data] =>
        destruct (log_financial_event_run rt w ty data) as (t & Hl & Hg)
    end.
    rewrite truthy_dict_update in Hl by discriminate.
    rewrite (bind_ok _ _ _ _ Hl).
    cbn [result trace fst snd ret app]. rewrite app_nil_r.
    now apply gated_denied.
Qed.

(** Every invocation of the swap flow ends in one of the terminal paths. *)
Lemma jupiter_swap_run (rt : Runtime) (w : World) (input_mint output_mint : string)
    (amount slippage_bps : Z) (dry_run : bool) :
  swap_run rt w input_mint output_mint amount slippage_bps dry_run
    (jupiter_swap rt w input_mint output_mint amount slippage_bps dry_run).
Proof.
  rewrite jupiter_swap_stages.
  assert (Hq : jupiter_get_quote rt w input_mint output_mint amount slippage_bps
               = (Ok (http_get w (JUPITER_SWAP_URL ++ "/quote")
                        (quote_params rt input_mint output_mint amount slippage_bps)),
                  [quote_call rt input_mint output_mint amount slippage_bps]))
    by reflexivity.
  rewrite (bind_ok _ _ _ _ Hq). clear Hq.
  destruct (http_get w _ _) as [quote |] eqn:Hget; cbn [truthy_opt negb].
  2: { now apply run_no_quote; rewrite Hget. }
  destruct (truthy quote) eqn:Ht; cbn [negb default].
  2: { apply run_no_quote. rewrite Hget. exact Ht. }
  unfold swap_quoted.
  destruct (swap_value_run rt w input_mint quote)
    as (r & t & Hv & Hg & [[-> [d ->]] | [-> Hwhy]]).
  - rewrite (bind_ok _ _ _ _ Hv).
    rewrite (bind_ok _ _ _ _
               (eq_refl : lift (get (JDict d) "inAmount" (JStr ""))
                          = (Ok (default (JStr "") (dict_lookup "inAmount" d)), []))).
    rewrite (bind_ok _ _ _ _
               (eq_refl : lift (get (JDict d) "outAmount" (JStr ""))
                          = (Ok (default (JStr "") (dict_lookup "outAmount" d)), []))).
    rewrite (bind_ok _ _ _ _
               (eq_refl : lift (get (JDict d) "priceImpactPct" (JStr "?"))
                          = (Ok (default (JStr "?") (dict_lookup "priceImpactPct" d)), []))).
    cbn [result trace fst snd app].
    match goal with
    | |- swap_run _ _ _ _ _ _ _ (?r, ?q :: (?t ++ ?c)%list) =>
        change (r, q :: (t ++ c)%list) with (r, ((q :: t) ++ c)%list)
    end.
    eapply run_gated; [exact Hget | exact Ht | reflexivity | exact Hg |].
    apply swap_gate_run.
  - rewrite (bind_raise _ _ _ _ Hv). cbn [result trace fst snd app].
    eapply run_raised; [exact Hget | exact Ht | exact Hwhy | exact Hg].
Qed.

(** The answer to a committing request does not reach the result or the
    trace of Build, commit and finalize. *)
Lemma swap_execute_commit_answer (rt : Runtime) (w : World)
    (answer : policy_request -> proc_outcome) (input_mint output_mint : string)
    (quote : json) (value_usd : Qc) (in_amount_s out_amount_s : json)
    (quote_info : dict) (allowed : bool) (msg : string) :
  swap_execute rt (override_commit w answer) input_mint output_mint false quote
    value_usd in_amount_s out_amount_s quote_info allowed msg =
  swap_execute rt w input_mint output_mint false quote
    value_usd in_amount_s out_amount_s quote_info allowed msg.
Proof.
  unfold swap_execute.
  change (get_solana_address (override_commit w answer)) with (get_solana_address w).
  destruct (negb (truthy (get_solana_address w))); [reflexivity |].
  apply bind_cong; [reflexivity |]. intros swap_tx.
  destruct (negb (truthy swap_tx)); [reflexivity |].
  destruct (check_policy_run rt w "solana" value_usd "jupiter_swap" true) as [m1 H1].
  destruct (check_policy_run rt (override_commit w answer)
              "solana" value_usd "jupiter_swap" true) as [m2 H2].
  rewrite (bind_ok _ _ _ _ H1), (bind_ok _ _ _ _ H2). reflexivity.
Qed.


(** The authority allows the check and would deny the commit: the swap still
    ends in [tx_ready], after exactly one committing call. *)
Example tx_ready_when_commit_denied :
  let m := jupiter_swap Ex.rt0 Ex.w_commit_denied SOL_MINT USDC_MINT 1000000000 50 false in
  authority_allows Ex.w_commit_denied (swap_request (Z2Qc 150) true) = false /\
  option_map status (match result m with Ok r => Some r | Raise _ => None end)
    = Some "tx_ready" /\
  length (commit_calls (trace m)) = 1%nat /\
  m = jupiter_swap Ex.rt0 Ex.w_tx_ready SOL_MINT USDC_MINT 1000000000 50 false.
Proof. cbv zeta. repeat split; vm_compute; reflexivity. Qed.

(** A check call found in a trace is found among its gate calls. *)
Lemma check_call_in_gate (v : Qc) (t : list event) :
  In (check_call v) t -> In (check_call v) (gate_calls t).
Proof. intros H. now apply in_gate_calls. Qed.

Lemma check_allowed (rt : Runtime) (w : World) (v : Qc) (allowed : bool) (msg : string) :
  result (check_policy rt w "solana" v "jupiter_swap" false) = Ok (allowed, msg) ->
  authority_allows w (swap_request v false) = allowed.
Proof.
  destruct (check_policy_run rt w "solana" v "jupiter_swap" false) as [msg' Hrun].
  rewrite Hrun. cbn. intros H. now inversion H.
Qed.

(** The authorization and build calls of a gated run. *)
Lemma gated_calls (rt : Runtime) (w : World) (dry_run : bool) (quote : json)
    (v : Qc) (qi : dict) (r : res swap_result) (calls : list event) :
  gated rt w dry_run quote v qi r calls ->
  gate_calls calls = [check_call v] \/
  gate_calls calls = [check_call v; build_call w quote] \/
  gate_calls calls = [check_call v; build_call w quote; commit_call v].
Proof.
  intros Hgated. destruct Hgated; unfold gate_calls in *; cbn;
    rewrite ?H0, ?H4; auto.
Qed.

(** The check a gated run performs is its only non-committing call. *)
Lemma gated_check (rt : Runtime) (w : World) (dry_run : bool) (quote : json)
    (v v' : Qc) (qi : dict) (r : res swap_result) (calls : list event) :
  gated rt w dry_run quote v qi r calls ->
  In (check_call v') (gate_calls calls) -> v' = v.
Proof.
  intros Hgated Hin.
  destruct (gated_calls _ _ _ _ _ _ _ _ Hgated) as [H | [H | H]];
    rewrite H in Hin; cbn in Hin; intuition (try discriminate);
    match goal with H : check_call _ = check_call _ |- _ => now inversion H end.
Qed.

(** An invocation that performs a check is a gated run whose check is for
    the quoted value. *)
Lemma swap_check_performed (rt : Runtime) (w : World) (input_mint output_mint : string)
    (amount slippage_bps : Z) (dry_run : bool) (v : Qc) :
  In (check_call v)
    (trace (jupiter_swap rt w input_mint output_mint amount slippage_bps dry_run)) ->
  exists quote d t r calls,
    jupiter_swap rt w input_mint output_mint amount slippage_bps dry_run
      = (r, (t ++ calls)%list) /\
    gate_calls t = [] /\
    gated rt w dry_run quote v
      (swap_quote_info rt input_mint output_mint
         (default (JStr "") (dict_lookup "inAmount" d))
         (default (JStr "") (dict_lookup "outAmount" d))
         (default (JStr "?") (dict_lookup "priceImpactPct" d)) v)
      r calls.
Proof.
  intros Hin. apply check_call_in_gate in Hin.
  destruct (jupiter_swap_run rt w input_mint output_mint amount slippage_bps dry_run)
    as [Hq | quote t Hget Ht Hwhy Hg | quote d t r calls Hget Ht Hd Hg Hgated].
  - cbn in Hin. contradiction.
  - cbn [trace snd] in Hin. rewrite Hg in Hin. contradiction.
  - cbn [trace snd] in Hin. rewrite gate_calls_app, Hg in Hin. cbn [app] in Hin.
    rewrite (gated_check _ _ _ _ _ _ _ _ _ Hgated Hin).
    exists quote, d, t, r, calls. auto.
Qed.

Lemma gate_calls_prefix (t calls : list event) :
  gate_calls t = [] -> gate_calls (t ++ calls) = gate_calls calls.
Proof. intros H. now rewrite gate_calls_app, H. Qed.

(** C2. A swap whose non-committing check is denied returns
    [policy_denied] with the authority's message, appends a [swap_denied]
    event carrying that message and the quote details to the event log, and
    makes no build call and no committing call: the check is its only
    authorization or build call. *)
Theorem denied_check_ends_swap (rt : Runtime) (w : World)
    (input_mint output_mint : string) (amount slippage_bps : Z) (dry_run : bool)
    (v : Qc) :
  let m := jupiter_swap rt w input_mint output_mint amount slippage_bps dry_run in
  In (check_call v) (trace m) ->
  authority_allows w (swap_request v false) = false ->
  exists r quote_info msg,
    result m = Ok r /\ status r = "policy_denied" /\
    quote r = Some quote_info /\ policy r = Some (false, msg) /\
    result (check_policy rt w "solana" v "jupiter_swap" false) = Ok (false, msg) /\
    In (EvAppendJsonl EVENTS_LOG
          (("ts", JStr (_utcnow rt w)) :: ("event", JStr "swap_denied")
             :: ("reason", JStr msg) :: quote_info))
       (trace m) /\
    gate_calls (trace m) = [check_call v] /\
    build_calls (trace m) = [] /\ commit_calls (trace m) = [].
Proof.
  intros m Hin Hdeny.
  destruct (swap_check_performed rt w input_mint output_mint amount slippage_bps
              dry_run v Hin)
    as (quote & d & t & r & calls & Hm & Hg & Hgated).
  fold m in Hm. rewrite Hm. cbn [result trace fst snd].
  rewrite build_calls_gate, commit_calls_gate, (gate_calls_prefix _ _ Hg).
  destruct Hgated as [msg t' Hc Hg' | msg Hc Hdry | msg Hc Hdry Haddr
                      | msg e Hc Hdry Haddr Hb | msg tx Hc Hdry Haddr Hb Htx
                      | msg tx t' Hc Hdry Haddr Hb Htx Hg'];
    try (apply check_allowed in Hc; rewrite Hc in Hdeny; discriminate Hdeny).
  eexists _, _, msg. split; [reflexivity |]. split; [reflexivity |].
  split; [reflexivity |]. split; [reflexivity |]. split; [exact Hc |].
  split; [apply in_or_app; right; right; left; reflexivity |].
  unfold gate_calls in *. cbn. rewrite Hg'. repeat split.
Qed.

(** The authority denies a 150 USD swap of 1 SOL. *)
Lemma denied_check_witness :
  let m := jupiter_swap Ex.rt0 Ex.w_denied SOL_MINT USDC_MINT 1000000000 50 false in
  exists r quote_info msg,
    result m = Ok r /\ status r = "policy_denied" /\
    quote r = Some quote_info /\ policy r = Some (false, msg) /\
    result (check_policy Ex.rt0 Ex.w_denied "solana" (Z2Qc 150) "jupiter_swap" false)
      = Ok (false, msg) /\
    In (EvAppendJsonl EVENTS_LOG
          (("ts", JStr (_utcnow Ex.rt0 Ex.w_denied)) :: ("event", JStr "swap_denied")
             :: ("reason", JStr msg) :: quote_info))
       (trace m) /\
    gate_calls (trace m) = [check_call (Z2Qc 150)] /\
    build_calls (trace m) = [] /\ commit_calls (trace m) = [].
Proof.
  apply (denied_check_ends_swap Ex.rt0 Ex.w_denied SOL_MINT USDC_MINT
           1000000000 50 false (Z2Qc 150)).
  - apply (nth_error_In _ 2). vm_compute. reflexivity.
  - vm_compute. reflexivity.
Defined.

(** C3. A dry-run swap whose non-committing check is allowed returns
    [quote_ready] with the quote and the authorization result attached, and
    makes no build call and no committing call. *)
Theorem dry_run_allowed_is_quote_ready (rt : Runtime) (w : World)
    (input_mint output_mint : string) (amount slippage_bps : Z) (v : Qc) :
  let m := jupiter_swap rt w input_mint output_mint amount slippage_bps true in
  In (check_call v) (trace m) ->
  authority_allows w (swap_request v false) = true ->
  exists r quote_info msg,
    result m = Ok r /\ status r = "quote_ready" /\
    quote r = Some quote_info /\
    dict_lookup "estimated_value_usd" quote_info = Some (JFloat (round v 2)) /\
    policy r = Some (true, msg) /\
    result (check_policy rt w "solana" v "jupiter_swap" false) = Ok (true, msg) /\
    gate_calls (trace m) = [check_call v] /\
    build_calls (trace m) = [] /\ commit_calls (trace m) = [].
Proof.
  intros m Hin Hallow.
  destruct (swap_check_performed rt w input_mint output_mint amount slippage_bps
              true v Hin)
    as (quote & d & t & r & calls & Hm & Hg & Hgated).
  fold m in Hm. rewrite Hm. cbn [result trace fst snd].
  rewrite build_calls_gate, commit_calls_gate, (gate_calls_prefix _ _ Hg).
  destruct Hgated as [msg t' Hc Hg' | msg Hc Hdry | msg Hc Hdry Haddr
                      | msg e Hc Hdry Haddr Hb | msg tx Hc Hdry Haddr Hb Htx
                      | msg tx t' Hc Hdry Haddr Hb Htx Hg'];
    try discriminate Hdry.
  - apply check_allowed in Hc. rewrite Hc in Hallow. discriminate Hallow.
  - eexists _, _, msg. repeat (split; [reflexivity |]).
    split; [exact Hc |]. repeat split.
Qed.

(** A preview of a 150 USD swap of 1 SOL that the authority allows. *)
Lemma dry_run_witness :
  let m := jupiter_swap Ex.rt0 Ex.w_tx_ready SOL_MINT USDC_MINT 1000000000 50 true in
  exists r quote_info msg,
    result m = Ok r /\ status r = "quote_ready" /\
    quote r = Some quote_info /\
    dict_lookup "estimated_value_usd" quote_info = Some (JFloat (round (Z2Qc 150) 2)) /\
    policy r = Some (true, msg) /\
    result (check_policy Ex.rt0 Ex.w_tx_ready "solana" (Z2Qc 150) "jupiter_swap" false)
      = Ok (true, msg) /\
    gate_calls (trace m) = [check_call (Z2Qc 150)] /\
    build_calls (trace m) = [] /\ commit_calls (trace m) = [].
Proof.
  apply (dry_run_allowed_is_quote_ready Ex.rt0 Ex.w_tx_ready SOL_MINT USDC_MINT
           1000000000 50 (Z2Qc 150)).
  - apply (nth_error_In _ 2). vm_compute. reflexivity.
  - vm_compute. reflexivity.
Defined.

(** C10. A swap that is not a dry run, whose check is allowed, and for which
    no wallet address can be read ends in the error outcome without a build
    call and without a committing call. *)
Theorem no_wallet_no_commit (rt : Runtime) (w : World)
    (input_mint output_mint : string) (amount slippage_bps : Z) (v : Qc) :
  let m := jupiter_swap rt w input_mint output_mint amount slippage_bps false in
  In (check_call v) (trace m) ->
  authority_allows w (swap_request v false) = true ->
  truthy (get_solana_address w) = false ->
  exists r,
    result m = Ok r /\ status r = "error" /\
    error r = Some "No Solana wallet address" /\
    swap_transaction_b64 r = None /\
    gate_calls (trace m) = [check_call v] /\
    build_calls (trace m) = [] /\ commit_calls (trace m) = [].
Proof.
  intros m Hin Hallow Hnone.
  destruct (swap_check_performed rt w input_mint output_mint amount slippage_bps
              false v Hin)
    as (quote & d & t & r & calls & Hm & Hg & Hgated).
  fold m in Hm. rewrite Hm. cbn [result trace fst snd].
  rewrite build_calls_gate, commit_calls_gate, (gate_calls_prefix _ _ Hg).
  destruct Hgated as [msg t' Hc Hg' | msg Hc Hdry | msg Hc Hdry Haddr
                      | msg e Hc Hdry Haddr Hb | msg tx Hc Hdry Haddr Hb Htx
                      | msg tx t' Hc Hdry Haddr Hb Htx Hg'];
    try discriminate Hdry;
    try (rewrite Hnone in Haddr; discriminate Haddr).
  - apply check_allowed in Hc. rewrite Hc in Hallow. discriminate Hallow.
  - eexists. repeat (split; [reflexivity |]). repeat split.
Qed.

(** An allowed swap on a machine with no Solana key file. *)
Lemma no_wallet_witness :
  let m := jupiter_swap Ex.rt0 Ex.w_no_wallet SOL_MINT USDC_MINT 1000000000 50 false in
  exists r,
    result m = Ok r /\ status r = "error" /\
    error r = Some "No Solana wallet address" /\
    swap_transaction_b64 r = None /\
    gate_calls (trace m) = [check_call (Z2Qc 150)] /\
    build_calls (trace m) = [] /\ commit_calls (trace m) = [].
Proof.
  apply (no_wallet_no_commit Ex.rt0 Ex.w_no_wallet SOL_MINT USDC_MINT
           1000000000 50 (Z2Qc 150)).
  - apply (nth_error_In _ 2). vm_compute. reflexivity.
  - vm_compute. reflexivity.
  - vm_compute. reflexivity.
Defined.

Lemma price_or_0_some (p : Qc) : price_or_0 (Some p) = p.
Proof.
  unfold price_or_0, truthy_price, truthy.
  destruct (bool_decide_reflect (p = 0%Qc)) as [-> | _]; reflexivity.
Qed.




(** ** The aggregator *)

Lemma resolved_ok {A} (m : M (option A)) (a : option A) (t : list event) :
  m = (Ok a, t) -> resolved m = a.
Proof. now intros ->. Qed.

Lemma holdings_of_cons (c : candidate) (cs : list candidate) :
  holdings_of (c :: cs) =
    match holding_of c with
    | Some h => h :: holdings_of cs
    | None => holdings_of cs
    end.
Proof. reflexivity. Qed.

Lemma holding_of_token (rt : Runtime) (w : World) (tok : token_account)
    (price : option Qc) (tp : list event) :
  get_token_price rt w (ta_mint tok) = (Ok price, tp) ->
  holding_of (token_candidate rt w tok) =
    match price with
    | Some price =>
        Some {| h_chain := "solana";
                h_symbol := match slice_to_8 (ta_mint tok) with
                            | Ok s => s | Raise _ => JNull end;
                h_mint := ta_mint tok; h_amount := ta_amount tok;
                h_price_usd := price;
                h_value_usd := (ta_amount tok * price)%Qc |}
    | None => None
    end.
Proof.
  intros Hp. unfold holding_of, token_candidate. cbn [c_balance c_price].
  rewrite (resolved_ok _ _ _ Hp). now destruct price.
Qed.

(** The token loop appends, in order, one holding per token account whose
    price resolved, and adds its value to the running total. *)
Lemma tokens_loop_run (rt : Runtime) (w : World) (tokens : list token_account) :
  forall (acc r : list holding * Qc) (t : list event),
    tokens_loop rt w tokens acc = (Ok r, t) ->
    fst r = (fst acc ++ holdings_of (map (token_candidate rt w) tokens))%list /\
    snd r = fold_left (fun a h => (a + h_value_usd h)%Qc)
              (holdings_of (map (token_candidate rt w) tokens)) (snd acc).
Proof.
  induction tokens as [| tok tokens IH]; intros acc r t H.
  - cbn in H. inversion H; subst. cbn. now rewrite app_nil_r.
  - cbn [tokens_loop] in H. cbn [map]. rewrite holdings_of_cons.
    destruct (get_token_price rt w (ta_mint tok)) as [[price | e] tp] eqn:Hp;
      [| discriminate H].
    rewrite (holding_of_token rt w tok price tp Hp).
    unfold bind at 1 in H.
    destruct price as [price |].
    + destruct (slice_to_8 (ta_mint tok)) as [symbol | e] eqn:Hs.
      2: { cbn in H. discriminate H. }
      unfold lift, bind at 1 in H.
      destruct (tokens_loop rt w tokens _) as [[r' | e] t'] eqn:Hloop;
        [| discriminate H].
      assert (r' = r) as -> by congruence.
      destruct (IH _ _ _ Hloop) as [Hh Hv]. cbn [fst snd] in Hh, Hv.
      rewrite Hh, Hv. cbn [fold_left h_value_usd].
      rewrite <- app_assoc. split; reflexivity.
    + destruct (tokens_loop rt w tokens acc) as [[r' | e] t'] eqn:Hloop;
        [| discriminate H].
      assert (r' = r) as -> by congruence. now apply (IH _ _ _ Hloop).
Qed.

Lemma sum_values_app (hs hs' : list holding) :
  sum_values (hs ++ hs') =
    fold_left (fun a h => (a + h_value_usd h)%Qc) hs' (sum_values hs).
Proof. unfold sum_values. apply fold_left_app. Qed.

Lemma holdings_of_values (cs : list candidate) :
  Forall (fun h => h_value_usd h = (h_amount h * h_price_usd h)%Qc) (holdings_of cs).
Proof.
  induction cs as [| c cs IH]; [constructor |].
  rewrite holdings_of_cons. unfold holding_of.
  destruct (c_balance c), (c_price c); try exact IH.
  constructor; [reflexivity | exact IH].
Qed.



(** ** Base58 and the wallet address *)

Lemma b58_index_char (r : Z) : 0 <= r < 58 -> b58_index (b58_char r) = Some r.
Proof.
  intros H.
  assert (Hall : forallb (fun i => bool_decide (b58_index (b58_char (Z.of_nat i))
                                                = Some (Z.of_nat i)))
                   (seq 0 58) = true) by (vm_compute; reflexivity).
  rewrite forallb_forall in Hall.
  assert (Hr := Hall (Z.to_nat r) ltac:(apply in_seq; lia)).
  rewrite Z2Nat.id in Hr by lia. now apply bool_decide_eq_true in Hr.
Qed.

(** Only the digit zero is written ['1']. *)
Lemma b58_char_not_one (r : Z) : 1 <= r < 58 -> Ascii.eqb (b58_char r) "1" = false.
Proof.
  intros H. destruct (Ascii.eqb_spec (b58_char r) "1"%char) as [Heq | Hne];
    [| reflexivity].
  pose proof (b58_index_char r ltac:(lia)) as Hi. rewrite Heq in Hi.
  assert (Hone : b58_index "1"%char = Some 0) by reflexivity.
  rewrite Hone in Hi. injection Hi as Hi. lia.
Qed.

Lemma b58_value_app (l1 l2 : list ascii) :
  forall acc,
    b58_value (l1 ++ l2) acc =
      match b58_value l1 acc with
      | Some n => b58_value l2 n
      | None => None
      end.
Proof.
  induction l1 as [| c l1 IH]; intros acc; [reflexivity |].
  cbn [app b58_value]. destruct (b58_index c); [apply IH | reflexivity].
Qed.

Lemma div58_fuel (fuel : nat) (n : Z) :
  0 < n < 2 ^ Z.of_nat (S fuel) -> 0 <= n / 58 < 2 ^ Z.of_nat fuel.
Proof.
  intros Hn. rewrite Nat2Z.inj_succ, Z.pow_succ_r in Hn by lia.
  split; [apply Z.div_pos; lia |]. apply Z.div_lt_upper_bound; lia.
Qed.

(** The digits the loop produces denote the number it started from. *)
Lemma b58_digits_value (fuel : nat) :
  forall n, 0 <= n < 2 ^ Z.of_nat fuel ->
            b58_value (rev (b58_digits fuel n)) 0 = Some n.
Proof.
  induction fuel as [| fuel IH]; intros n Hn.
  - cbn in Hn. assert (n = 0) as -> by lia. reflexivity.
  - cbn [b58_digits]. destruct (Z.ltb_spec 0 n) as [Hpos | Hz].
    + cbn [rev]. rewrite b58_value_app, IH by (apply div58_fuel; lia).
      cbn [b58_value]. rewrite b58_index_char by (apply Z.mod_pos_bound; lia).
      f_equal. rewrite (Z.div_mod n 58) at 3 by lia. lia.
    + assert (n = 0) as -> by lia. reflexivity.
Qed.

(** The most significant digit of a positive number is not ['1']. *)
Lemma b58_digits_msd (fuel : nat) :
  forall n, 0 <= n < 2 ^ Z.of_nat fuel -> count_ones (rev (b58_digits fuel n)) = O.
Proof.
  induction fuel as [| fuel IH]; intros n Hn; [reflexivity |].
  cbn [b58_digits]. destruct (Z.ltb_spec 0 n) as [Hpos | Hz]; [| reflexivity].
  cbn [rev]. specialize (IH _ (div58_fuel fuel n ltac:(lia))).
  destruct (rev (b58_digits fuel (n / 58))) as [| c hi] eqn:Hhi.
  - cbn [app count_ones]. rewrite b58_char_not_one; [reflexivity |].
    assert (Hq : n / 58 = 0).
    { destruct fuel as [| fuel']; [pose proof (div58_fuel 0 n ltac:(lia)); cbn in *; lia |].
      cbn [b58_digits] in Hhi. destruct (Z.ltb_spec 0 (n / 58)) as [Hq | Hq].
      - cbn [rev] in Hhi. now destruct (rev (b58_digits fuel' (n / 58 / 58))).
      - pose proof (Z.div_pos n 58). lia. }
    pose proof (Z.mod_pos_bound n 58 ltac:(lia)).
    pose proof (Z.div_mod n 58 ltac:(lia)). lia.
  - cbn [app count_ones] in IH |- *.
    destruct (Ascii.eqb c "1"%char); [discriminate IH | reflexivity].
Qed.

Lemma log2_fuel (n : Z) : 0 <= n -> n < 2 ^ Z.of_nat (S (Z.to_nat (Z.log2 n))).
Proof.
  intros Hn. rewrite Nat2Z.inj_succ, Z2Nat.id by apply Z.log2_nonneg.
  destruct (Z.eq_dec n 0) as [-> | Hnz]; [reflexivity |].
  apply Z.log2_spec. lia.
Qed.

Lemma int_from_bytes_big_snoc (data : list Z) (b : Z) :
  int_from_bytes_big (data ++ [b]) = int_from_bytes_big data * 256 + b.
Proof. unfold int_from_bytes_big. now rewrite fold_left_app. Qed.

Lemma int_from_bytes_big_nonneg (data : list Z) :
  Forall is_byte data -> 0 <= int_from_bytes_big data.
Proof.
  induction data as [| b data IH] using rev_ind; intros H; [reflexivity |].
  rewrite int_from_bytes_big_snoc.
  apply Forall_app in H as [H1 H2]. inversion H2; subst.
  unfold is_byte in *. specialize (IH H1). lia.
Qed.

Lemma strip_zeros_snoc (data : list Z) (b : Z) :
  strip_zeros (data ++ [b]) =
    if bool_decide (strip_zeros data = []) && Z.eqb b 0 then []
    else (strip_zeros data ++ [b])%list.
Proof.
  induction data as [| a data IH].
  - cbn. destruct (Z.eqb b 0); reflexivity.
  - cbn [app strip_zeros]. destruct (Z.eqb a 0); [exact IH |].
    reflexivity.
Qed.

Lemma strip_zeros_nil (data : list Z) :
  Forall is_byte data -> (strip_zeros data = [] <-> int_from_bytes_big data = 0).
Proof.
  induction data as [| b data IH] using rev_ind; intros H; [easy |].
  apply Forall_app in H as [H1 H2]. inversion H2 as [| ? ? Hb _]; subst.
  specialize (IH H1). pose proof (int_from_bytes_big_nonneg data H1) as Hn.
  rewrite strip_zeros_snoc, int_from_bytes_big_snoc. unfold is_byte in Hb.
  destruct (decide (strip_zeros data = [])) as [Hs | Hs].
  - rewrite bool_decide_eq_true_2 by exact Hs. cbn [andb].
    apply IH in Hs. destruct (Z.eqb_spec b 0); split; try easy; try lia.
    intros Habs. destruct (strip_zeros data); discriminate Habs.
  - rewrite bool_decide_eq_false_2 by exact Hs. cbn [andb].
    split; [intros Habs; now destruct (strip_zeros data) |].
    intros Hz. exfalso. apply Hs, IH. lia.
Qed.

(** The big-endian bytes of [int.from_bytes(data, "big")] are [data]
    without its leading zero bytes. *)
Lemma bytes_little_strip (data : list Z) :
  Forall is_byte data ->
  forall fuel, int_from_bytes_big data < 2 ^ Z.of_nat fuel ->
    rev (bytes_little fuel (int_from_bytes_big data)) = strip_zeros data.
Proof.
  induction data as [| b data IH] using rev_ind; intros H fuel Hf.
  - destruct fuel; reflexivity.
  - pose proof (proj1 (strip_zeros_nil _ H)) as Hnil.
    pose proof (proj2 (strip_zeros_nil _ H)) as Hnil'.
    pose proof (int_from_bytes_big_nonneg _ H) as Hn.
    revert Hnil Hnil' Hn Hf.
    rewrite strip_zeros_snoc, int_from_bytes_big_snoc.
    apply Forall_app in H as [H1 H2]. inversion H2 as [| ? ? Hb _]; subst.
    unfold is_byte in Hb. pose proof (int_from_bytes_big_nonneg _ H1) as Hd.
    set (n := int_from_bytes_big data) in *.
    intros Hnil Hnil' Hn Hf.
    destruct fuel as [| fuel].
    { cbn in Hf. assert (Hz : n * 256 + b = 0) by lia.
      rewrite (Hnil' Hz). reflexivity. }
    cbn [bytes_little]. destruct (Z.ltb_spec 0 (n * 256 + b)) as [Hpos | Hz].
    + replace ((n * 256 + b) mod 256) with b
        by (apply Z.mod_unique with n; lia).
      replace ((n * 256 + b) / 256) with n
        by (apply Z.div_unique with b; lia).
      cbn [rev]. rewrite IH; [| exact H1 |].
      * destruct (bool_decide (strip_zeros data = []) && Z.eqb b 0) eqn:Hc;
          [| reflexivity].
        specialize (Hnil eq_refl). lia.
      * rewrite Nat2Z.inj_succ, Z.pow_succ_r in Hf by lia. lia.
    + rewrite Hnil' by lia. reflexivity.
Qed.

Lemma b58_leading_repeat (data : list Z) :
  exists z, b58_leading data = repeat "1"%char z /\
            data = (repeat 0 z ++ strip_zeros data)%list.
Proof.
  induction data as [| b data [z [IH1 IH2]]]; [now exists O |].
  cbn [b58_leading strip_zeros]. destruct (Z.eqb_spec b 0) as [-> | Hb].
  - exists (S z). cbn [repeat app]. rewrite IH1. split; [reflexivity |].
    now f_equal.
  - now exists O.
Qed.

Lemma b58_value_ones (z : nat) (cs : list ascii) :
  b58_value (repeat "1"%char z ++ cs) 0 = b58_value cs 0.
Proof. induction z as [| z IH]; [reflexivity | exact IH]. Qed.

Lemma count_ones_repeat (z : nat) (cs : list ascii) :
  count_ones cs = O -> count_ones (repeat "1"%char z ++ cs) = z.
Proof. intros H. induction z as [| z IH]; [exact H |]. cbn. now rewrite IH. Qed.

(** X1. Base58 encoding loses nothing: decoding the text [_b58encode]
    produces for a byte string (zero bytes for the leading ['1']s, then the
    big-endian bytes of the numeral's value) gives the byte string back,
    leading zero bytes included. *)
Theorem b58encode_round_trip (data : list Z) :
  Forall is_byte data -> b58decode (_b58encode data) = Some data.
Proof.
  intros H. unfold b58decode, _b58encode.
  rewrite list_ascii_of_string_of_list_ascii.
  pose proof (int_from_bytes_big_nonneg data H) as Hn.
  set (n := int_from_bytes_big data) in *.
  pose proof (log2_fuel n Hn) as Hf.
  destruct (b58_leading_repeat data) as [z [Hz Hdata]].
  rewrite rev_app_distr, Hz, rev_repeat.
  rewrite b58_value_ones.
  rewrite b58_digits_value by lia.
  rewrite count_ones_repeat by (apply b58_digits_msd; lia).
  subst n. rewrite bytes_little_strip by assumption.
  now rewrite <- Hdata.
Qed.

Lemma b58encode_round_trip_witness :
  Forall is_byte [0; 0; 72; 101; 108; 108; 111; 255] /\
  _b58encode [0; 0; 72; 101; 108; 108; 111; 255] = "11d3yC1LPg" /\
  b58decode (_b58encode [0; 0; 72; 101; 108; 108; 111; 255])
    = Some [0; 0; 72; 101; 108; 108; 111; 255].
Proof.
  assert (H : Forall is_byte [0; 0; 72; 101; 108; 108; 111; 255]).
  { repeat constructor; unfold is_byte; lia. }
  split; [exact H |]. split; [vm_compute; reflexivity |].
  apply (b58encode_round_trip _ H).
Defined.

Lemma bytes_are_bytes (l : list json) :
  forall data, bytes l = Ok data -> Forall is_byte data /\ length data = length l.
Proof.
  induction l as [| x l IH]; intros data H.
  - cbn in H. injection H as <-. split; [constructor | reflexivity].
  - cbn [bytes] in H.
    destruct (bytes l) as [bs | e] eqn:Hbs.
    2: { destruct x as [| b | n | | | |]; cbn in H; try discriminate H.
         destruct (Z.leb 0 n && Z.ltb n 256); discriminate H. }
    destruct (IH bs eq_refl) as [IH1 IH2].
    destruct x as [| b | n | | | |]; cbn in H; try discriminate H.
    + injection H as <-. split; [| cbn; now rewrite IH2].
      constructor; [| exact IH1]. unfold is_byte. destruct b; lia.
    + destruct (Z.leb 0 n && Z.ltb n 256) eqn:Hr; cbn in H; [| discriminate H].
      injection H as <-. split; [| cbn; now rewrite IH2].
      constructor; [| exact IH1]. unfold is_byte. lia.
Qed.

(** X2. A key file that is a JSON list of at least 64 items: the address is
    the Base58 encoding of items 32..63 alone, whatever the first 32 items
    (the secret half) and the items after the 64th are; when one of the 32
    items is not an integer in [range(256)], the address is empty. *)
Theorem solana_address_public_half (w : World) (secret public rest : list json) :
  solana_keypair w = Some (JList (secret ++ public ++ rest)) ->
  length secret = 32%nat -> length public = 32%nat ->
  (forall data, bytes public = Ok data ->
     get_solana_address w = JStr (_b58encode data) /\
     Forall is_byte data /\ length data = 32%nat) /\
  (forall e, bytes public = Raise e -> get_solana_address w = JStr "").
Proof.
  intros Hkp Hs Hp. unfold get_solana_address. rewrite Hkp.
  assert (Hlen : Nat.leb 64 (length (secret ++ public ++ rest)) = true).
  { apply Nat.leb_le. rewrite !length_app. lia. }
  rewrite Hlen.
  assert (Hpub : firstn 32 (skipn 32 (secret ++ public ++ rest)) = public).
  { pose proof (firstn_app (length public) public rest) as Hf.
    rewrite Nat.sub_diag, firstn_all, app_nil_r in Hf.
    pose proof (skipn_app (length secret) secret (public ++ rest)) as Hk.
    rewrite Nat.sub_diag, skipn_all in Hk. cbn [skipn app] in Hk.
    rewrite Hs in Hk. rewrite Hp in Hf. now rewrite Hk. }
  rewrite Hpub. split.
  - intros data Hd. rewrite Hd. split; [reflexivity |].
    destruct (bytes_are_bytes _ _ Hd) as [Hb Hl]. split; [exact Hb | congruence].
  - intros e Hd. rewrite Hd. cbn. destruct e; reflexivity.
Qed.

Lemma solana_address_public_half_witness :
  solana_keypair ExKey.w_keypair_list
    = Some (JList (ExKey.secret_half ++ ExKey.public_half ++ [])) /\
  length ExKey.secret_half = 32%nat /\ length ExKey.public_half = 32%nat /\
  get_solana_address ExKey.w_keypair_list
    = JStr "7ppk9w8NHnH6ehajvJyU31VcMafwZ3ybRtJWumSyD2wd" /\
  ((forall data, bytes ExKey.public_half = Ok data ->
      get_solana_address ExKey.w_keypair_list = JStr (_b58encode data) /\
      Forall is_byte data /\ length data = 32%nat) /\
   (forall e, bytes ExKey.public_half = Raise e ->
      get_solana_address ExKey.w_keypair_list = JStr "")).
Proof.
  split; [reflexivity |]. split; [reflexivity |]. split; [reflexivity |].
  split; [vm_compute; reflexivity |].
  apply (solana_address_public_half ExKey.w_keypair_list
           ExKey.secret_half ExKey.public_half []); reflexivity.
Defined.

(** ** The balance fetchers *)

Lemma number_raises (v : json) (e : exn) : number v = Raise e -> e = TypeError.
Proof. destruct v; cbn; intros H; now inversion H. Qed.

Lemma int_base16_raises (rt : Runtime) (v : json) (e : exn) :
  int_base16 rt v = Raise e -> e = ValueError \/ e = TypeError.
Proof.
  destruct v; cbn; intros H; try (inversion H; now right).
  destruct (int_of_hex_str rt s); inversion H. now left.
Qed.

Lemma iter_raises (v : json) (e : exn) : iter v = Raise e -> e = TypeError.
Proof. destruct v; cbn; intros H; now inversion H. Qed.

Lemma rbind_ok {A B} (r : res A) (k : A -> res B) (b : B) :
  rbind r k = Ok b -> exists a, r = Ok a /\ k a = Ok b.
Proof. destruct r as [a | e]; cbn; intros H; [eauto | discriminate H]. Qed.

Lemma rbind_raise {A B} (r : res A) (k : A -> res B) (e : exn) :
  rbind r k = Raise e -> r = Raise e \/ exists a, r = Ok a /\ k a = Raise e.
Proof.
  destruct r as [a | e']; cbn; intros H; [right; eauto | injection H as ->; now left].
Qed.

Lemma rcatch_ok_some {A} (body : res (option A)) (classes : list exn) (a : A) :
  rcatch body classes (Ok None) = Ok (Some a) -> body = Ok (Some a).
Proof.
  destruct body as [b | e]; cbn; [easy |].
  destruct (bool_decide (e ∈ classes)); discriminate.
Qed.



(** ** Token accounts *)

Ltac rbind_raise_in H x :=
  let H' := fresh in
  apply rbind_raise in H as [H' | (x & _ & H)];
  [try (destruct (getitem_str_raises _ _ _ H') as [-> | ->]; tauto) |].

Lemma token_account_of_raises (rt : Runtime) (item : json) (e : exn) :
  token_account_of rt item = Raise e ->
  e = KeyError \/ e = TypeError \/ e = ValueError.
Proof.
  unfold token_account_of. intros H.
  rbind_raise_in H account. rbind_raise_in H data. rbind_raise_in H parsed.
  rbind_raise_in H info. rbind_raise_in H mint. rbind_raise_in H token_amount.
  rbind_raise_in H ui_amount.
  apply rbind_raise in H as [H' | (amount & _ & H)].
  { destruct (float_raises _ _ _ H') as [-> | ->]; tauto. }
  rbind_raise_in H token_amount'. rbind_raise_in H decimals.
  discriminate H.
Qed.

Lemma token_account_of_positive (rt : Runtime) (item : json) (a : token_account) :
  token_account_of rt item = Ok (Some a) -> (0 < ta_amount a)%Qc.
Proof.
  unfold token_account_of. intros H.
  repeat (apply rbind_ok in H as (? & _ & H)).
  destruct (bool_decide _) eqn:Hpos in H; [| discriminate H].
  injection H as <-. cbn. now apply bool_decide_eq_true in Hpos.
Qed.

Lemma token_accounts_loop_positive (rt : Runtime) (items : list json) :
  forall accounts,
    Forall (fun a => (0 < ta_amount a)%Qc) accounts ->
    Forall (fun a => (0 < ta_amount a)%Qc) (fst (token_accounts_loop rt items accounts)).
Proof.
  induction items as [| item items IH]; intros accounts H; [exact H |].
  cbn [token_accounts_loop].
  destruct (token_account_of rt item) as [[a |] | e] eqn:Hi.
  - apply IH, Forall_app. split; [exact H |].
    constructor; [| constructor]. exact (token_account_of_positive _ _ _ Hi).
  - now apply IH.
  - exact H.
Qed.

Lemma token_accounts_loop_raises (rt : Runtime) (items : list json) :
  forall accounts accounts' e,
    token_accounts_loop rt items accounts = (accounts', Some e) ->
    e = KeyError \/ e = TypeError \/ e = ValueError.
Proof.
  induction items as [| item items IH]; intros accounts accounts' e H;
    [discriminate H |].
  cbn [token_accounts_loop] in H.
  destruct (token_account_of rt item) as [[a |] | e'] eqn:Hi.
  - exact (IH _ _ _ H).
  - exact (IH _ _ _ H).
  - injection H as _ ->. exact (token_account_of_raises _ _ _ Hi).
Qed.

(** The loop stops at the first item that raises: the items after it are
    never looked at. *)
Lemma token_accounts_loop_stops (rt : Runtime) (items : list json) :
  forall accounts accounts' bad rest e,
    token_accounts_loop rt items accounts = (accounts', None) ->
    token_account_of rt bad = Raise e ->
    token_accounts_loop rt (items ++ bad :: rest) accounts = (accounts', Some e).
Proof.
  induction items as [| item items IH]; intros accounts accounts' bad rest e H Hbad.
  - cbn in H. injection H as <-. cbn. now rewrite Hbad.
  - cbn [token_accounts_loop app] in H |- *.
    destruct (token_account_of rt item) as [[a |] | e'];
      [now apply IH | now apply IH | discriminate H].
Qed.


(** ** What the aggregator writes *)

Lemma only_http_app (t1 t2 : list event) :
  only_http t1 -> only_http t2 -> only_http (t1 ++ t2).
Proof. intros H1 H2. apply Forall_app. now split. Qed.

Lemma solana_balance_http (w : World) : only_http (trace (get_solana_balance w)).
Proof.
  unfold get_solana_balance.
  destruct (truthy (get_solana_address w)); cbn [negb]; [| constructor].
  unfold _http_post_json. cbn [bind emit ret app].
  destruct (http_post w _ _) as [data |]; [| repeat constructor].
  destruct (truthy data); repeat constructor.
Qed.

Lemma base_balance_http (rt : Runtime) (w : World) :
  only_http (trace (get_base_balance rt w)).
Proof.
  unfold get_base_balance.
  destruct (truthy (get_base_address w)); cbn [negb]; [| constructor].
  unfold _http_post_json. cbn [bind emit ret app].
  destruct (http_post w _ _) as [data |]; [| repeat constructor].
  destruct (truthy data); repeat constructor.
Qed.

Lemma token_accounts_http (rt : Runtime) (w : World) :
  only_http (trace (get_solana_token_accounts rt w)).
Proof.
  unfold get_solana_token_accounts.
  destruct (truthy (get_solana_address w)); cbn [negb]; [| constructor].
  unfold _http_post_json. cbn [bind emit ret app].
  destruct (http_post w _ _) as [data |]; cbn [truthy_opt]; [| repeat constructor].
  destruct (truthy data); cbn [negb]; [| repeat constructor].
  match goal with
  | |- context [match ?b with Ok _ => _ | Raise _ => _ end] => destruct b as [items | e]
  end.
  - destruct (token_accounts_loop rt items []) as [accounts [e |]];
      [destruct (bool_decide _) |]; repeat constructor.
  - destruct (bool_decide _); repeat constructor.
Qed.

Lemma dexscreener_price_http (rt : Runtime) (w : World) (a : json) :
  only_http (trace (_dexscreener_price rt w a)).
Proof. rewrite dexscreener_price_trace. repeat constructor. Qed.

Lemma chain_price_http (rt : Runtime) (w : World) (coin_id : string) (a : json) :
  only_http (trace (price <- _coingecko_price rt w coin_id ;;
                    if truthy_price price then ret price
                    else _dexscreener_price rt w a)).
Proof.
  destruct (coingecko_price_run rt w coin_id) as [p Hp].
  rewrite (bind_ok _ _ _ _ Hp). cbn [trace snd].
  apply only_http_app; [repeat constructor |].
  destruct (truthy_price p); [constructor | apply dexscreener_price_http].
Qed.

Lemma tokens_loop_http (rt : Runtime) (w : World) (tokens : list token_account) :
  forall acc, only_http (trace (tokens_loop rt w tokens acc)).
Proof.
  induction tokens as [| tok tokens IH]; intros acc; [constructor |].
  cbn [tokens_loop]. unfold get_token_price.
  pose proof (dexscreener_price_http rt w (ta_mint tok)) as Hd.
  destruct (_dexscreener_price rt w (ta_mint tok)) as [[price | e] tp];
    cbn [trace snd] in Hd; [| exact Hd].
  unfold bind at 1.
  destruct price as [price |].
  - destruct (slice_to_8 (ta_mint tok)) as [symbol | e].
    + unfold lift, bind at 1.
      match goal with
      | |- context [tokens_loop rt w tokens ?a] =>
          specialize (IH a); destruct (tokens_loop rt w tokens a) as [r t]
      end.
      cbn [trace snd app] in IH |- *. now apply only_http_app.
    + cbn. now rewrite app_nil_r.
  - specialize (IH acc). destruct (tokens_loop rt w tokens acc) as [r t].
    cbn [trace snd] in IH |- *. now apply only_http_app.
Qed.

(** A run of the aggregator is network calls, then, if nothing raised, the
    two writes. *)
Lemma snapshot_run (rt : Runtime) (w : World) :
  match compute_portfolio_snapshot rt w with
  | (Ok snap, t) =>
      exists t0, only_http t0 /\
        t = (t0 ++ [EvWritePortfolio snap; EvAppendHistory (history_row_of snap)])%list
  | (Raise _, t) => only_http t
  end.
Proof.
  unfold compute_portfolio_snapshot.
  pose proof (solana_balance_http w) as T1.
  destruct (get_solana_balance w) as [[sol_bal | e1] t1]; cbn [trace snd] in T1;
    [| exact T1].
  unfold bind at 1.
  pose proof (chain_price_http rt w "solana" (JStr SOL_MINT)) as T2.
  fold (get_sol_price rt w) in T2.
  destruct (get_sol_price rt w) as [[sol_price | e2] t2]; cbn [trace snd] in T2;
    [| now apply only_http_app].
  unfold bind at 1.
  pose proof (base_balance_http rt w) as T3.
  destruct (get_base_balance rt w) as [[base_bal | e3] t3]; cbn [trace snd] in T3;
    [| repeat apply only_http_app; assumption].
  unfold bind at 1.
  pose proof (chain_price_http rt w "ethereum"
                (JStr "0x4200000000000000000000000000000000000006")) as T4.
  fold (get_eth_price rt w) in T4.
  destruct (get_eth_price rt w) as [[eth_price | e4] t4]; cbn [trace snd] in T4;
    [| repeat apply only_http_app; assumption].
  unfold bind at 1.
  pose proof (token_accounts_http rt w) as T5.
  destruct (get_solana_token_accounts rt w) as [[tokens | e5] t5]; cbn [trace snd] in T5;
    [| repeat apply only_http_app; assumption].
  unfold bind at 1.
  match goal with
  | |- context [tokens_loop rt w tokens ?acc] =>
      pose proof (tokens_loop_http rt w tokens acc) as T6;
      destruct (tokens_loop rt w tokens acc) as [[r | e6] t6]
  end; cbn [trace snd] in T6; [| repeat apply only_http_app; assumption].
  cbn [bind emit ret].
  exists (t1 ++ t2 ++ t3 ++ t4 ++ t5 ++ t6)%list.
  split; [repeat apply only_http_app; assumption |].
  rewrite !app_nil_r, <- !app_assoc. reflexivity.
Qed.

(** X6. [compute_portfolio_snapshot] persists all or nothing: when it
    returns a snapshot, its trace is network calls followed by exactly one
    write of that snapshot to portfolio.json and one history line with the
    snapshot's timestamp, total, balances and prices and the number of its
    holdings; when it raises, it has written nothing. *)
Theorem snapshot_persistence (rt : Runtime) (w : World) :
  let m := compute_portfolio_snapshot rt w in
  (forall snap, result m = Ok snap ->
     exists t, only_http t /\
       trace m = (t ++ [EvWritePortfolio snap; EvAppendHistory (history_row_of snap)])%list) /\
  (forall e, result m = Raise e -> only_http (trace m)).
Proof.
  intros m. pose proof (snapshot_run rt w) as H. fold m in H.
  destruct m as [[snap | e] t]; cbn [result trace fst snd].
  - split; [| discriminate]. intros snap' Hs. injection Hs as <-. exact H.
  - split; [discriminate |]. intros _ _. exact H.
Qed.

(** ** The 24h change on short and long histories *)

Lemma read_jsonl_window {A} (old recent : list A) (limit : nat) :
  length recent = S limit -> _read_jsonl (old ++ recent) (S limit) = recent.
Proof.
  intros H. unfold _read_jsonl. rewrite length_app, H.
  replace (length old + S limit - S limit)%nat with (length old + 0)%nat by lia.
  rewrite skipn_app, Nat.add_0_r, skipn_all.
  replace (length old - length old)%nat with O by lia. reflexivity.
Qed.

Lemma read_jsonl_idem {A} (l : list A) (limit : nat) :
  _read_jsonl (_read_jsonl l limit) limit = _read_jsonl l limit.
Proof.
  unfold _read_jsonl. destruct limit as [| n]; [reflexivity |].
  rewrite length_skipn.
  replace (length l - (length l - S n) - S n)%nat with O by lia. reflexivity.
Qed.

Lemma read_jsonl_suffix {A} (l : list A) (limit : nat) : suffix (_read_jsonl l limit) l.
Proof. unfold _read_jsonl. destruct limit; [reflexivity | apply suffix_drop]. Qed.

Lemma round_0 (ndigits : nat) : round 0 ndigits = 0%Qc.
Proof.
  unfold round. rewrite Qcmult_0_l.
  change (round_half_even 0) with 0.
  unfold Qcdiv. apply Qcmult_0_l.
Qed.

Lemma nearest_loop_single (rt : Runtime) (w : World) (target : Z) (e : history_entry) :
  fst (nearest_loop rt w target [e] e (ts_delta rt w target e)) = e.
Proof. cbn. now rewrite Z.ltb_irrefl. Qed.

(** X7. [get_portfolio_24h_change]: both changes are zero whenever the
    matched entry is worth what the newest entry is worth; a history of a
    single snapshot is matched with itself whatever its age, so a first
    snapshot shows no change; and only the last 200 lines of the history
    file count: older lines never change the answer. *)
Theorem change_24h_same_value (rt : Runtime) (w : World) :
  let r := get_portfolio_24h_change rt w in
  (value_24h_ago r = current r -> change_usd r = 0%Qc /\ change_pct r = 0%Qc) /\
  (forall e, portfolio_history w = [e] ->
     value_24h_ago r = default 0%Qc (he_total_value_usd e) /\
     current r = default 0%Qc (he_total_value_usd e) /\
     change_usd r = 0%Qc /\ change_pct r = 0%Qc) /\
  r = get_portfolio_24h_change rt
        (with_history w (_read_jsonl (portfolio_history w) 200)) /\
  (forall old recent,
     portfolio_history w = (old ++ recent)%list -> length recent = 200%nat ->
     r = get_portfolio_24h_change rt (with_history w recent)).
Proof.
  intros r.
  assert (Hwin : r = get_portfolio_24h_change rt
                       (with_history w (_read_jsonl (portfolio_history w) 200))).
  { subst r. unfold get_portfolio_24h_change.
    cbn [portfolio_history with_history now_us]. rewrite read_jsonl_idem.
    reflexivity. }
  assert (Hold : forall old recent,
     portfolio_history w = (old ++ recent)%list -> length recent = 200%nat ->
     r = get_portfolio_24h_change rt (with_history w recent)).
  { intros old recent Hh Hl. rewrite Hwin, Hh.
    now rewrite (read_jsonl_window old recent 199 Hl). }
  assert (Hsame : value_24h_ago r = current r -> change_usd r = 0%Qc /\ change_pct r = 0%Qc).
  { subst r. unfold get_portfolio_24h_change.
    destruct (_read_jsonl (portfolio_history w) 200) as [| first rest];
      cbn [value_24h_ago current change_usd change_pct]; [easy |].
    intros ->.
    match goal with
    | |- context [(?c - ?c)%Qc] => replace (c - c)%Qc with 0%Qc by ring
    end.
    unfold Qcdiv. rewrite !Qcmult_0_l.
    split; [apply round_0 |].
    destruct (bool_decide _); apply round_0. }
  split; [exact Hsame |]. split; [| split; [exact Hwin | exact Hold]].
  intros e He.
  assert (Hv : value_24h_ago r = default 0%Qc (he_total_value_usd e) /\
               current r = default 0%Qc (he_total_value_usd e)).
  { subst r. unfold get_portfolio_24h_change. rewrite He.
    change (_read_jsonl [e] 200) with [e].
    cbn [value_24h_ago current List.last]. now rewrite nearest_loop_single. }
  destruct Hv as [Hv Hc]. split; [exact Hv |]. split; [exact Hc |].
  apply Hsame. now rewrite Hv, Hc.
Qed.

(** ** Timestamps *)

Lemma endswith_Z_snoc (s : string) : endswith_Z (s ++ "Z") = true.
Proof.
  induction s as [| c s IH]; [reflexivity |].
  change (String c s ++ "Z") with (String c (s ++ "Z")).
  cbn [endswith_Z]. destruct (s ++ "Z") eqn:Hs; [| exact IH].
  destruct s; discriminate Hs.
Qed.

Lemma drop_last_snoc (s : string) (c : ascii) :
  drop_last (s ++ String c "") = s.
Proof.
  induction s as [| c' s IH]; [reflexivity |].
  change (String c' s ++ String c "") with (String c' (s ++ String c "")).
  cbn [drop_last]. destruct (s ++ String c "") eqn:Hs.
  - destruct s; discriminate Hs.
  - now rewrite IH.
Qed.

Lemma endswith_Z_spec (s : string) :
  endswith_Z s = true -> s = drop_last s ++ "Z".
Proof.
  induction s as [| c s IH]; [discriminate |].
  cbn [endswith_Z drop_last]. destruct s as [| c' s'].
  - intros H. apply Ascii.eqb_eq in H as ->. reflexivity.
  - intros H. rewrite (IH H) at 1. reflexivity.
Qed.

(** X8. [_parse_ts] reads a trailing [Z] as the UTC offset: the stripped
    text [body ++ "Z"] is parsed as [body ++ "+00:00"], with exactly the
    one [Z] removed; any other text is parsed as it stands; and the result
    is either the parse of some text or the present instant, which is what
    a text that does not parse is replaced with. *)
Theorem parse_ts_utc_designator (rt : Runtime) (w : World) (ts_str : string) :
  let s := strip rt ts_str in
  (endswith_Z s = true ->
     exists body, s = body ++ "Z" /\
       _parse_ts rt w ts_str =
         default (now_us w) (fromisoformat rt (body ++ "+00:00"))) /\
  (endswith_Z s = false ->
     _parse_ts rt w ts_str = default (now_us w) (fromisoformat rt s)) /\
  (forall body, endswith_Z (body ++ "Z") = true /\ drop_last (body ++ "Z") = body) /\
  (_parse_ts rt w ts_str = now_us w \/
   exists text, fromisoformat rt text = Some (_parse_ts rt w ts_str)).
Proof.
  intros s. unfold _parse_ts. fold s.
  split; [| split; [| split]].
  - intros H. rewrite H. exists (drop_last s). split; [now apply endswith_Z_spec |].
    now destruct (fromisoformat rt _).
  - intros H. rewrite H. now destruct (fromisoformat rt s).
  - intros body. split; [apply endswith_Z_snoc | apply drop_last_snoc].
  - destruct (fromisoformat rt _) as [dt |] eqn:Hf; [right; eauto | now left].
Qed.

(** ** Bounds of the status query *)

Lemma max0_nonneg (x : Qc) : (0 <= max0 x)%Qc.
Proof.
  unfold max0. destruct (bool_decide (0 < x)%Qc) eqn:H.
  - apply bool_decide_eq_true in H. now apply Qclt_le_weak.
  - apply Qcle_refl.
Qed.

Lemma max0_le (x y : Qc) : (0 <= y)%Qc -> (x <= y)%Qc -> (max0 x <= y)%Qc.
Proof. intros Hy Hx. unfold max0. now destruct (bool_decide (0 < x)%Qc). Qed.

(** X9. [get_policy_status]: the cooldown remainder is never negative, is
    at most the configured cooldown when the last action is not stamped
    ahead of the clock, and is zero exactly when no cooldown is configured,
    no last action is recorded, or the cooldown has elapsed; the daily
    remainder is never negative, is at most the daily limit when the spent
    amount and the limit are not negative, and is zero exactly when the
    spent amount has reached the limit. *)
Theorem policy_status_bounds (w : World) :
  let st := get_policy_status w in
  let last_ts := default 0 (last_tx_ts w) in
  0 <= cooldown_remaining st /\
  (last_ts <= time_now w -> cooldown_remaining st <= Z.max 0 (cooldown_seconds st)) /\
  (cooldown_remaining st = 0 <->
     cooldown_seconds st <= 0 \/ last_ts <= 0 \/
     cooldown_seconds st <= time_now w - last_ts) /\
  (0 <= daily_remaining_usd st)%Qc /\
  ((0 <= daily_spent_usd st)%Qc -> (0 <= max_daily_usd st)%Qc ->
   (daily_remaining_usd st <= max_daily_usd st)%Qc) /\
  (daily_remaining_usd st = 0%Qc <-> (max_daily_usd st <= daily_spent_usd st)%Qc).
Proof.
  intros st last_ts. subst st. unfold get_policy_status.
  cbn [cooldown_remaining cooldown_seconds daily_remaining_usd daily_spent_usd max_daily_usd].
  fold last_ts.
  set (cooldown := default 0 (pd_cooldown_seconds (policy_yaml w))).
  set (spent := default 0%Qc (de_value_usd _)).
  set (max_daily := default 0%Qc (pd_max_daily_value_usd (policy_yaml w))).
  split; [destruct (Z.ltb_spec 0 cooldown), (Z.ltb_spec 0 last_ts); cbn; lia |].
  split; [destruct (Z.ltb_spec 0 cooldown), (Z.ltb_spec 0 last_ts); cbn; lia |].
  split; [destruct (Z.ltb_spec 0 cooldown), (Z.ltb_spec 0 last_ts); cbn; lia |].
  split; [apply max0_nonneg |].
  split.
  - intros Hs Hm. apply max0_le; [exact Hm |].
    unfold Qcminus. rewrite <- (Qcplus_0_r max_daily) at 2.
    apply Qcplus_le_compat; [apply Qcle_refl |].
    apply Qcopp_le_compat in Hs. exact Hs.
  - unfold max0. destruct (bool_decide (0 < max_daily - spent)%Qc) eqn:Hd.
    + apply bool_decide_eq_true in Hd. split.
      * intros H0. apply Qclt_not_eq in Hd. congruence.
      * intros Hle. exfalso. apply (Qclt_not_le _ _ Hd).
        apply Qcle_minus_iff in Hle. rewrite Qcle_minus_iff.
        replace (0 + - (max_daily - spent))%Qc with (spent + - max_daily)%Qc by ring.
        exact Hle.
    + apply bool_decide_eq_false in Hd. split; [| reflexivity].
      intros _. apply Qcnot_lt_le in Hd.
      rewrite Qcle_minus_iff in Hd. rewrite Qcle_minus_iff.
      replace (0 + - (max_daily - spent))%Qc with (spent + - max_daily)%Qc in Hd by ring.
      exact Hd.
Qed.

(** ** Dicts, and what the loggers write *)

Lemma dict_lookup_set (k k' : string) (v : json) (d : dict) :
  dict_lookup k (dict_set k' v d) =
    if String.eqb k k' then Some v else dict_lookup k d.
Proof.
  induction d as [| [k0 v0] d IH]; cbn.
  - reflexivity.
  - destruct (String.eqb_spec k' k0) as [-> | Hne]; cbn.
    + destruct (String.eqb k k0); reflexivity.
    + rewrite IH. destruct (String.eqb_spec k k0) as [-> | Hne'].
      * destruct (String.eqb_spec k0 k') as [-> | _]; [congruence | reflexivity].
      * reflexivity.
Qed.

Lemma dict_lookup_None (k : string) (d : dict) :
  k ∉ map fst d -> dict_lookup k d = None.
Proof.
  induction d as [| [k0 v0] d IH]; cbn; [reflexivity |].
  intros Hnotin. apply not_elem_of_cons in Hnotin as [Hne Hnotin].
  destruct (String.eqb_spec k k0) as [-> | _]; [congruence | now apply IH].
Qed.

(** [d1.update(d2)]: every key of [d2] with [d2]'s value, every other key
    of [d1] unchanged. *)
Lemma dict_lookup_update (k : string) (d2 : dict) :
  forall d1, well_formed d2 ->
    dict_lookup k (dict_update d1 d2) =
      match dict_lookup k d2 with
      | Some v => Some v
      | None => dict_lookup k d1
      end.
Proof.
  unfold dict_update, well_formed.
  induction d2 as [| [k' v'] d2 IH]; intros d1 Hwf; [reflexivity |].
  cbn [fold_left fst snd map dict_lookup] in *.
  apply NoDup_cons in Hwf as [Hnotin Hwf].
  rewrite IH by exact Hwf. rewrite dict_lookup_set.
  destruct (String.eqb_spec k k') as [-> | Hne]; [| reflexivity].
  apply dict_lookup_None in Hnotin. now rewrite Hnotin.
Qed.

Lemma dict_set_well_formed (k : string) (v : json) (d : dict) :
  well_formed d -> well_formed (dict_set k v d).
Proof.
  unfold well_formed. induction d as [| [k' v'] d IH]; cbn.
  - intros _. apply NoDup_singleton.
  - intros H. apply NoDup_cons in H as [Hnotin Hd].
    destruct (String.eqb_spec k k') as [-> | Hne]; cbn.
    + now apply NoDup_cons.
    + apply NoDup_cons. split; [| now apply IH].
      intros Hin. apply Hnotin. clear - Hin Hne.
      induction d as [| [k0 v0] d IH]; cbn in *.
      * apply list_elem_of_singleton in Hin. congruence.
      * destruct (String.eqb_spec k k0) as [-> | Hne0]; cbn in Hin; [exact Hin |].
        apply elem_of_cons in Hin as [-> | Hin]; [left | right; now apply IH].
Qed.

Lemma dict_update_well_formed (d2 : dict) :
  forall d1, well_formed d1 -> well_formed (dict_update d1 d2).
Proof.
  unfold dict_update. induction d2 as [| [k v] d2 IH]; intros d1 H; [exact H |].
  cbn [fold_left fst snd]. now apply IH, dict_set_well_formed.
Qed.

Lemma dict_set_Forall (P : string * json -> Prop) (k : string) (v : json) (d : dict) :
  P (k, v) -> Forall P d -> Forall P (dict_set k v d).
Proof.
  intros Hkv. induction 1 as [| [k' v'] d Hx Hd IH]; cbn; [now repeat constructor |].
  destruct (String.eqb k k'); constructor; assumption.
Qed.

Lemma stamped_update (base data : dict) :
  (if truthy (JDict data) then dict_update base data else base) = dict_update base data.
Proof. now destruct data. Qed.

(** X10. [send_telegram] never raises and returns [True] exactly when
    Telegram is configured and the API acknowledged the message; it calls
    the API once when configured and not at all otherwise; and the outbox
    line, its only file write, is appended exactly when it returns
    [True]. *)
Theorem send_telegram_outbox (rt : Runtime) (w : World) (message : string) :
  let sent := telegram_configured w && bool_decide (telegram_send w message = Some true) in
  let m := send_telegram rt w message in
  m = (Ok sent,
       if telegram_configured w then
         EvTelegram message ::
           (if sent
            then [EvAppendJsonl TELEGRAM_MESSAGES_OUT
                    [("ts", JStr (_utcnow rt w)); ("to", JStr "operator");
                     ("message", JStr message)]]
            else [])
       else []) /\
  appended_paths (trace m) = (if sent then [TELEGRAM_MESSAGES_OUT] else []) /\
  (sent = true <->
     telegram_configured w = true /\ telegram_send w message = Some true).
Proof.
  intros sent m. subst sent m. unfold send_telegram.
  destruct (telegram_configured w); cbn [negb andb].
  - destruct (telegram_send w message) as [[|] |]; cbn;
      (split; [reflexivity |]; split; [reflexivity |]);
      split; try discriminate; try (intros [_ H]; discriminate H); auto.
  - cbn. split; [reflexivity |]. split; [reflexivity |].
    split; [discriminate | intros [H _]; discriminate H].
Qed.

(** X11. The four loggers ([log_financial_event], [record_decision],
    [log_alert], [record_research]) never raise and append one line to
    their own file: the stamped fields updated with the caller's data;
    [log_financial_event] writes its line first and then attempts the
    Telegram notification.  In the line every key of the data has the
    data's value (so a caller can overwrite [ts] and the type field),
    every other stamped field is unchanged, and no key occurs twice. *)
Theorem logged_entry_fields (rt : Runtime) (w : World) (data : dict) :
  (forall ty,
     log_financial_event rt w ty data =
       (Ok tt,
        EvAppendJsonl EVENTS_LOG
          (dict_update [("ts", JStr (_utcnow rt w)); ("event", JStr ty)] data)
        :: trace (send_telegram rt w
                    ("[" ++ ty ++ "] "
                       ++ substring 0 200 (json_dumps rt (JDict data)))))) /\
  (forall ty reasoning,
     record_decision rt w ty reasoning data =
       (Ok tt, [EvAppendJsonl DECISIONS_LOG
                  (dict_update [("ts", JStr (_utcnow rt w)); ("type", JStr ty);
                                ("reasoning", JStr reasoning)] data)])) /\
  (forall ty message,
     log_alert rt w ty message data =
       (Ok tt, [EvAppendJsonl ALERTS_LOG
                  (dict_update [("ts", JStr (_utcnow rt w)); ("alert", JStr ty);
                                ("message", JStr message)] data)])) /\
  (forall topic findings,
     record_research rt w topic findings data =
       (Ok tt, [EvAppendJsonl RESEARCH_LOG
                  (dict_update [("ts", JStr (_utcnow rt w)); ("topic", JStr topic);
                                ("findings", JStr findings)] data)])) /\
  (well_formed data ->
   forall base k,
     dict_lookup k (dict_update base data) =
       match dict_lookup k data with
       | Some v => Some v
       | None => dict_lookup k base
       end) /\
  (forall base, well_formed base -> well_formed (dict_update base data)).
Proof.
  split.
  { intros ty. unfold log_financial_event. rewrite stamped_update.
    destruct (send_telegram_run rt w
                ("[" ++ ty ++ "] " ++ substring 0 200 (json_dumps rt (JDict data))))
      as (r & t & Hs & _).
    rewrite Hs. cbn. now rewrite app_nil_r. }
  split.
  { intros ty reasoning. unfold record_decision. now rewrite stamped_update. }
  split.
  { intros ty message. unfold log_alert. now rewrite stamped_update. }
  split.
  { intros topic findings. unfold record_research. now rewrite stamped_update. }
  split.
  { intros Hwf base k. now apply dict_lookup_update. }
  intros base. apply dict_update_well_formed.
Qed.

(** ** The fallback policy parser *)

Lemma yaml_line_scalar (rt : Runtime) (line key : string) (v : json) :
  yaml_line rt line = Some (key, v) -> yaml_scalar v.
Proof.
  unfold yaml_line. destruct (String.eqb _ ""); [discriminate |].
  destruct (split_char ":" _) as [[k val] |]; [| discriminate].
  set (val' := strip_char "'" _).
  destruct (String.eqb_spec val' "") as [| H1]; [discriminate |].
  destruct (String.eqb_spec val' "[]") as [| H2]; [discriminate |].
  destruct (String.eqb_spec val' "{}") as [| H3]; [discriminate |].
  cbn [orb]. intros H. injection H as _ <-. unfold yaml_value.
  destruct (bool_decide _); [exact I |]. destruct (bool_decide _); [exact I |].
  destruct (int_of_str rt val'); [exact I |].
  destruct (float_of_str rt val'); [exact I |]. cbn. auto.
Qed.

Lemma parse_simple_yaml_snoc (rt : Runtime) (lines : list string) (line : string) :
  _parse_simple_yaml rt (lines ++ [line]) =
    match yaml_line rt line with
    | Some (key, v) => dict_set key v (_parse_simple_yaml rt lines)
    | None => _parse_simple_yaml rt lines
    end.
Proof. unfold _parse_simple_yaml. now rewrite fold_left_app. Qed.

Lemma before_char_append (c : ascii) (code rest : string) :
  before_char c (code ++ String c rest) = before_char c code.
Proof.
  induction code as [| c' code IH].
  - change ("" ++ String c rest) with (String c rest).
    cbn [before_char]. now rewrite Ascii.eqb_refl.
  - change (String c' code ++ String c rest) with (String c' (code ++ String c rest)).
    cbn [before_char]. destruct (Ascii.eqb c' c); [reflexivity | now rewrite IH].
Qed.

Lemma before_char_idem (c : ascii) (s : string) :
  before_char c (before_char c s) = before_char c s.
Proof.
  induction s as [| c' s IH]; [reflexivity |].
  cbn [before_char]. destruct (Ascii.eqb c' c) eqn:Hc; [reflexivity |].
  cbn [before_char]. now rewrite Hc, IH.
Qed.

(** X12. [_parse_simple_yaml], on the lines of a text: the result holds
    every key once, and every value is a boolean, an integer, a float or a
    non-empty text other than [[]] and [{}] (never [None] or a container);
    a later assignment to a key replaces the earlier one and leaves the
    other keys alone; a line that assigns nothing changes nothing; and
    whatever follows the first [#] of a line is ignored. *)
Theorem parse_simple_yaml_invariants (rt : Runtime) (lines : list string) :
  let result := _parse_simple_yaml rt lines in
  well_formed result /\
  Forall (fun kv => yaml_scalar (snd kv)) result /\
  (forall line key v,
     yaml_line rt line = Some (key, v) ->
     dict_lookup key (_parse_simple_yaml rt (lines ++ [line])) = Some v /\
     forall k, k <> key ->
       dict_lookup k (_parse_simple_yaml rt (lines ++ [line])) = dict_lookup k result) /\
  (forall line, yaml_line rt line = None ->
     _parse_simple_yaml rt (lines ++ [line]) = result) /\
  (forall code comment,
     yaml_line rt (code ++ String "#" comment) = yaml_line rt (before_char "#" code)).
Proof.
  intros result.
  assert (Hinv : well_formed result /\ Forall (fun kv => yaml_scalar (snd kv)) result).
  { subst result. induction lines as [| line lines IH] using rev_ind.
    - split; [apply NoDup_nil_2 | constructor].
    - rewrite parse_simple_yaml_snoc. destruct IH as [IH1 IH2].
      destruct (yaml_line rt line) as [[key v] |] eqn:Hl; [| now split].
      split; [now apply dict_set_well_formed |].
      apply dict_set_Forall; [| exact IH2]. exact (yaml_line_scalar _ _ _ _ Hl). }
  destruct Hinv as [H1 H2]. split; [exact H1 |]. split; [exact H2 |].
  split; [| split].
  - intros line key v Hl. rewrite parse_simple_yaml_snoc, Hl. fold result. split.
    + now rewrite dict_lookup_set, String.eqb_refl.
    + intros k Hk. rewrite dict_lookup_set.
      destruct (String.eqb_spec k key); [congruence | reflexivity].
  - intros line Hl. now rewrite parse_simple_yaml_snoc, Hl.
  - intros code comment. unfold yaml_line.
    now rewrite before_char_append, before_char_idem.
Qed.

(** ** Sorting the conversation *)

Lemma ascii_compare_refl (c : ascii) : Ascii.compare c c = Eq.
Proof. unfold Ascii.compare. apply N.compare_refl. Qed.

Lemma string_compare_refl (s : string) : String.compare s s = Eq.
Proof. induction s as [| c s IH]; cbn; [reflexivity |]. now rewrite ascii_compare_refl. Qed.

Lemma string_leb_refl (s : string) : String.leb s s = true.
Proof. unfold String.leb. now rewrite string_compare_refl. Qed.

Lemma string_compare_trans (s1 : string) :
  forall s2 s3 c, String.compare s1 s2 = c -> String.compare s2 s3 = c ->
                  String.compare s1 s3 = c.
Proof.
  induction s1 as [| c1 s1 IH]; intros [| c2 s2] [| c3 s3] c; cbn; try congruence.
  unfold Ascii.compare.
  destruct (N.compare_spec (N_of_ascii c1) (N_of_ascii c2)) as [H12 | H12 | H12];
    destruct (N.compare_spec (N_of_ascii c2) (N_of_ascii c3)) as [H23 | H23 | H23];
    destruct (N.compare_spec (N_of_ascii c1) (N_of_ascii c3)) as [H13 | H13 | H13];
    try congruence; try lia; try apply IH.
Qed.

Lemma string_leb_trans (s1 s2 s3 : string) :
  String.leb s1 s2 = true -> String.leb s2 s3 = true -> String.leb s1 s3 = true.
Proof.
  unfold String.leb.
  destruct (String.compare s1 s2) eqn:H12; [| | discriminate];
    destruct (String.compare s2 s3) eqn:H23; try discriminate; intros _ _.
  - now rewrite (string_compare_trans _ _ _ _ H12 H23).
  - apply String.compare_eq_iff in H12 as ->. now rewrite H23.
  - apply String.compare_eq_iff in H23 as <-. now rewrite H12.
  - now rewrite (string_compare_trans _ _ _ _ H12 H23).
Qed.

Section Sorting.
Context {A : Type} (key : A -> string).

Lemma key_le_total (a b : A) : String.leb (key a) (key b) = false -> key_le key b a.
Proof.
  intros H. unfold key_le. destruct (String.leb_total (key a) (key b)); congruence.
Qed.

Lemma insert_sorted_Forall (P : A -> Prop) (x : A) (l : list A) :
  P x -> Forall P l -> Forall P (insert_sorted key x l).
Proof.
  intros Hx. induction 1 as [| y l Hy Hl IH]; cbn; [now repeat constructor |].
  destruct (String.leb (key y) (key x)); repeat constructor; assumption.
Qed.

Lemma insert_sorted_sorted (x : A) (l : list A) :
  StronglySorted (key_le key) l -> StronglySorted (key_le key) (insert_sorted key x l).
Proof.
  induction 1 as [| y l Hs IH Hy]; cbn; [repeat constructor |].
  destruct (String.leb (key y) (key x)) eqn:Hle.
  - constructor; [exact IH |]. now apply insert_sorted_Forall.
  - apply key_le_total in Hle.
    constructor; [now constructor |]. constructor; [exact Hle |].
    eapply Forall_impl; [exact Hy |]. intros z Hz. unfold key_le in *.
    now apply string_leb_trans with (key y).
Qed.

Lemma insert_sorted_perm (x : A) (l : list A) : insert_sorted key x l ≡ₚ x :: l.
Proof.
  induction l as [| y l IH]; cbn; [reflexivity |].
  destruct (String.leb (key y) (key x)); [| reflexivity].
  rewrite IH. apply Permutation_swap.
Qed.

(** Inserting into a sorted list puts the item after the items with the
    same key. *)
Lemma insert_sorted_stable (k : string) (x : A) (l : list A) :
  StronglySorted (key_le key) l ->
  filter (fun a => key a = k) (insert_sorted key x l) =
    (filter (fun a => key a = k) l ++ filter (fun a => key a = k) [x])%list.
Proof.
  induction 1 as [| y l Hs IH Hy]; cbn [insert_sorted]; [reflexivity |].
  destruct (String.leb (key y) (key x)) eqn:Hle.
  - rewrite !filter_cons, IH, filter_cons, filter_nil.
    destruct (decide (key y = k)); reflexivity.
  - rewrite (filter_cons _ x), (filter_cons _ x []), filter_nil.
    destruct (decide (key x = k)) as [Hk | Hk]; [| now rewrite app_nil_r].
    assert (Hnone : Forall (fun a => key a <> k) (y :: l)).
    { constructor.
      - intros Hyk. rewrite Hyk, <- Hk, string_leb_refl in Hle. discriminate Hle.
      - eapply Forall_impl; [exact Hy |]. intros z Hz Hzk. unfold key_le in Hz.
        rewrite Hzk, <- Hk in Hz.
        assert (String.leb (key y) (key x) = true); [| congruence].
        exact Hz. }
    assert (Hnil : filter (fun a => key a = k) (y :: l) = []).
    { clear - Hnone. induction Hnone as [| z l' Hz _ IH]; [reflexivity |].
      rewrite filter_cons. now destruct (decide (key z = k)). }
    now rewrite Hnil.
Qed.

Lemma sorted_fold (l : list A) :
  forall acc, StronglySorted (key_le key) acc ->
    let r := fold_left (fun acc x => insert_sorted key x acc) l acc in
    StronglySorted (key_le key) r /\ r ≡ₚ (acc ++ l)%list /\
    forall k, filter (fun a => key a = k) r =
              (filter (fun a => key a = k) acc ++ filter (fun a => key a = k) l)%list.
Proof.
  induction l as [| x l IH]; intros acc Hacc; cbn [fold_left].
  - split; [exact Hacc |]. split; [now rewrite app_nil_r |].
    intros k. now rewrite filter_nil, app_nil_r.
  - destruct (IH _ (insert_sorted_sorted x acc Hacc)) as (H1 & H2 & H3).
    split; [exact H1 |]. split.
    + rewrite H2, insert_sorted_perm. cbn [app]. apply Permutation_middle.
    + intros k. rewrite H3, insert_sorted_stable by exact Hacc.
      rewrite (filter_cons _ x l), (filter_cons _ x []), filter_nil.
      destruct (decide (key x = k)); [now rewrite <- app_assoc | now rewrite app_nil_r].
Qed.

(** [sorted] sorts, keeps every item, and keeps the items of equal key in
    their order. *)
Lemma sorted_spec (l : list A) :
  StronglySorted (key_le key) (sorted key l) /\ sorted key l ≡ₚ l /\
  forall k, filter (fun a => key a = k) (sorted key l) = filter (fun a => key a = k) l.
Proof. exact (sorted_fold l [] (SSorted_nil _)). Qed.

Lemma StronglySorted_suffix (R : A -> A -> Prop) (l1 l2 : list A) :
  suffix l1 l2 -> StronglySorted R l2 -> StronglySorted R l1.
Proof.
  intros [pre ->]. induction pre as [| a pre IH]; [easy |].
  intros H. apply StronglySorted_inv in H as [H _]. now apply IH.
Qed.

End Sorting.

Lemma filter_suffix {A} (P : A -> Prop) `{!forall x, Decision (P x)} (l1 l2 : list A) :
  suffix l1 l2 -> suffix (filter P l1) (filter P l2).
Proof. intros [pre ->]. rewrite filter_app. now exists (filter P pre). Qed.

Lemma slice_last_suffix {A} (n : Z) (l : list A) : suffix (slice_last n l) l.
Proof. unfold slice_last. destruct (Z.ltb 0 n); apply suffix_drop. Qed.

Lemma slice_last_sublist {A} (n : Z) (l : list A) : sublist (slice_last n l) l.
Proof. unfold slice_last. destruct (Z.ltb 0 n); apply sublist_drop. Qed.

Lemma slice_last_length {A} (n : Z) (l : list A) :
  0 < n -> length (slice_last n l) = Nat.min (Z.to_nat n) (length l).
Proof.
  intros H. unfold slice_last. rewrite (proj2 (Z.ltb_lt 0 n) H), length_skipn. lia.
Qed.

(** X13. [read_telegram_conversation] returns messages in non-decreasing
    order of timestamp, each one a tagged message of the inbox tail or of
    the outbox tail; messages with the same timestamp keep their file
    order, inbox before outbox (for every timestamp, the returned messages
    that carry it are a suffix of the inbox messages that carry it followed
    by the outbox ones); a positive limit bounds the length, and the limit
    0 returns the whole of both files. *)
Theorem conversation_sorted_stable (inbox_file outbox_file : list tg_message) (limit : Z) :
  let r := read_telegram_conversation inbox_file outbox_file limit in
  let inbox := map (set_direction "in") (_read_jsonl inbox_file (Z.to_nat limit)) in
  let outbox := map (set_direction "out") (_read_jsonl outbox_file (Z.to_nat limit)) in
  StronglySorted (fun a b => String.leb (ts_key a) (ts_key b) = true) r /\
  (forall m, m ∈ r -> m ∈ inbox \/ m ∈ outbox) /\
  (forall k, suffix (filter (fun m => ts_key m = k) r)
               (filter (fun m => ts_key m = k) inbox
                  ++ filter (fun m => ts_key m = k) outbox)%list) /\
  (0 < limit -> (length r <= Z.to_nat limit)%nat) /\
  (limit = 0 ->
   r ≡ₚ (map (set_direction "in") inbox_file ++ map (set_direction "out") outbox_file)%list).
Proof.
  intros r inbox outbox.
  destruct (sorted_spec ts_key (inbox ++ outbox)%list) as (Hs & Hp & Hf).
  pose proof (slice_last_suffix limit (sorted ts_key (inbox ++ outbox)%list)) as Hsuf.
  change (suffix r (sorted ts_key (inbox ++ outbox)%list)) in Hsuf.
  split; [exact (StronglySorted_suffix _ _ _ Hsuf Hs) |].
  split.
  { intros m Hm. apply elem_of_app. rewrite <- Hp.
    destruct Hsuf as [pre ->]. apply elem_of_app. now right. }
  split.
  { intros k. rewrite <- filter_app, <- Hf. now apply filter_suffix. }
  split.
  { intros Hl. subst r. unfold read_telegram_conversation.
    rewrite slice_last_length by exact Hl. lia. }
  intros ->. subst r inbox outbox. exact Hp.
Qed.

(** ** The transaction log *)

Lemma trades_of_ok (events : list json) :
  forall trades, trades_of events = Ok trades ->
    Forall is_trade trades /\ sublist trades events /\
    (forall e, e ∈ events -> is_trade e -> e ∈ trades).
Proof.
  induction events as [| e events IH]; intros trades H.
  - injection H as <-. split; [constructor |]. split; [constructor |]. easy.
  - cbn [trades_of] in H.
    apply rbind_ok in H as (ty & Hty & H).
    apply rbind_ok in H as (keep & Hkeep & H).
    apply rbind_ok in H as (rest & Hrest & H).
    injection H as <-. destruct (IH rest Hrest) as (IH1 & IH2 & IH3).
    destruct e as [| | | | | | d]; try discriminate Hty.
    cbn in Hty. injection Hty as <-.
    destruct keep.
    + split.
      * constructor; [| exact IH1].
        destruct (dict_lookup "event" d) as [[| | | | s | |] |] eqn:Hd;
          try discriminate Hkeep.
        cbn in Hkeep. injection Hkeep as Hkeep.
        apply bool_decide_eq_true in Hkeep. now exists d, s.
      * split; [now constructor |].
        intros e He Ht. apply elem_of_cons in He as [-> | He];
          [apply list_elem_of_here | apply list_elem_of_further; now apply IH3].
    + split; [exact IH1 |]. split; [now constructor |].
      intros e He Ht. apply elem_of_cons in He as [-> | He]; [| now apply IH3].
      exfalso. destruct Ht as (d' & ty & Hd' & Hl & Hin). injection Hd' as <-.
      rewrite Hl in Hkeep. cbn in Hkeep. injection Hkeep as Hkeep.
      now apply bool_decide_eq_false in Hkeep.
Qed.

Lemma in_trade_types_raises (x : json) (e : exn) :
  in_trade_types x = Raise e -> e = TypeError.
Proof. destruct x; cbn; intros H; now inversion H. Qed.

Lemma trades_of_raises (events : list json) :
  forall e, trades_of events = Raise e ->
    (e = AttributeError \/ e = TypeError) /\
    exists entry, entry ∈ events /\
      ((forall d, entry <> JDict d) \/
       exists d v, entry = JDict d /\ dict_lookup "event" d = Some v /\
                   in_trade_types v = Raise TypeError).
Proof.
  induction events as [| ev events IH]; intros e H; [discriminate H |].
  cbn [trades_of] in H.
  apply rbind_raise in H as [H | (ty & Hty & H)].
  { apply get_raises in H as [-> Hnd]. split; [now left |].
    exists ev. split; [apply list_elem_of_here | left; exact Hnd]. }
  apply rbind_raise in H as [H | (keep & _ & H)].
  { assert (e = TypeError) as -> by exact (in_trade_types_raises _ _ H).
    split; [now right |].
    exists ev. split; [apply list_elem_of_here |]. right.
    destruct ev as [| | | | | | d]; try discriminate Hty.
    cbn in Hty. injection Hty as <-.
    destruct (dict_lookup "event" d) as [v |] eqn:Hd; [| discriminate H].
    exists d, v. split; [reflexivity |]. split; [exact Hd | exact H]. }
  apply rbind_raise in H as [H | (rest & _ & H)]; [| discriminate H].
  destruct (IH e H) as (He & entry & Hin & Hwhy).
  split; [exact He |]. exists entry.
  split; [now apply list_elem_of_further | exact Hwhy].
Qed.

(** X14. [get_transactions] looks at the last 200 lines of the event log
    only.  When it returns, every returned entry is an object whose
    ["event"] is one of the six trade types, the entries are in log order,
    a positive limit bounds their number, and the limit 0 returns every
    trade of the window (the slice [trades[-0:]] is the whole list).  It
    raises, [AttributeError] or [TypeError], only when some line of the
    window is not an object or has a list or an object as its ["event"]. *)
Theorem transactions_are_trades (events_log : list json) (limit : Z) :
  let window := _read_jsonl events_log 200 in
  (forall trades, get_transactions events_log limit = Ok trades ->
     Forall is_trade trades /\ sublist trades window /\
     (0 < limit -> (length trades <= Z.to_nat limit)%nat) /\
     (limit = 0 -> forall e, e ∈ window -> is_trade e -> e ∈ trades)) /\
  (forall e, get_transactions events_log limit = Raise e ->
     (e = AttributeError \/ e = TypeError) /\
     exists entry, entry ∈ window /\
       ((forall d, entry <> JDict d) \/
        exists d v, entry = JDict d /\ dict_lookup "event" d = Some v /\
                    in_trade_types v = Raise TypeError)) /\
  suffix window events_log /\ (length window <= 200)%nat.
Proof.
  intros window. split; [| split; [| split]].
  - intros trades H. unfold get_transactions in H. fold window in H.
    apply rbind_ok in H as (all & Hall & H). injection H as <-.
    destruct (trades_of_ok window all Hall) as (H1 & H2 & H3).
    pose proof (slice_last_suffix limit all) as Hsuf.
    split; [| split; [| split]].
    + destruct Hsuf as [pre Hpre]. rewrite Hpre in H1.
      now apply Forall_app in H1 as [_ H1].
    + etransitivity; [apply slice_last_sublist | exact H2].
    + intros Hl. rewrite slice_last_length by exact Hl. lia.
    + intros -> e He Ht. unfold slice_last. cbn. now apply H3.
  - intros e H. unfold get_transactions in H. fold window in H.
    apply rbind_raise in H as [H | (all & _ & H)]; [| discriminate H].
    now apply trades_of_raises.
  - apply read_jsonl_suffix.
  - subst window. unfold _read_jsonl. rewrite length_skipn. lia.
Qed.

(** ** More on the swap flow *)

Lemma build_calls_nil_of_gate (t : list event) : gate_calls t = [] -> build_calls t = [].
Proof. intros H. now rewrite build_calls_gate, H. Qed.

Lemma commit_calls_nil_of_gate (t : list event) : gate_calls t = [] -> commit_calls t = [].
Proof. intros H. now rewrite commit_calls_gate, H. Qed.

(** X15. A preview never builds or commits: with [dry_run] set, whatever
    the services and the authority answer, the invocation makes no build
    call and no committing authorization call, and a returned result
    carries no transaction and ends as the quote error, [policy_denied] or
    [quote_ready]. *)
Theorem preview_never_builds (rt : Runtime) (w : World)
    (input_mint output_mint : string) (amount slippage_bps : Z) :
  let m := jupiter_swap rt w input_mint output_mint amount slippage_bps true in
  build_calls (trace m) = [] /\ commit_calls (trace m) = [] /\
  (forall r, result m = Ok r ->
     dry_run r = true /\ swap_transaction_b64 r = None /\
     (status r = "error" /\ error r = Some "Failed to get Jupiter quote" \/
      status r = "policy_denied" \/ status r = "quote_ready")).
Proof.
  intros m.
  pose proof (jupiter_swap_run rt w input_mint output_mint amount slippage_bps true) as Hrun.
  fold m in Hrun. remember m as m' eqn:Hm. clear Hm.
  inversion Hrun as [Hq | quote t Hq Ht Hwhy Hg | quote d t r0 calls Hq Ht Hd Hg Hgated];
    subst m'.
  - cbn [trace result fst snd]. split; [reflexivity |]. split; [reflexivity |].
    intros r Hr. injection Hr as <-. cbn. auto.
  - cbn [trace result fst snd].
    split; [now apply build_calls_nil_of_gate |].
    split; [now apply commit_calls_nil_of_gate |]. discriminate.
  - cbn [trace result fst snd]. rewrite build_calls_gate, commit_calls_gate.
    rewrite (gate_calls_prefix _ _ Hg).
    inversion Hgated as [msg t' Hc Hg' | msg Hc Hdry | msg Hc Hdry | msg e Hc Hdry
                         | msg tx Hc Hdry | msg tx t' Hc Hdry]; subst;
      try discriminate Hdry.
    + match goal with
      | |- context [gate_calls (?a :: ?b :: t')] =>
          change (a :: b :: t') with ([a; b] ++ t')%list
      end.
      rewrite gate_calls_app, Hg'. split; [reflexivity |]. split; [reflexivity |].
      intros r Hr. injection Hr as <-. cbn. auto.
    + cbn. split; [reflexivity |]. split; [reflexivity |].
      intros r Hr. injection Hr as <-. cbn. auto.
Qed.

(** X16. No build without an allowed check: an invocation that makes a
    build call is not a preview, obtained a quote, had its check of the
    quote's value allowed by the authority and has a wallet address; it
    makes exactly one build call, after the check, followed by at most the
    one committing call. *)
Theorem build_needs_allowed_check (rt : Runtime) (w : World)
    (input_mint output_mint : string) (amount slippage_bps : Z) (dry_run : bool) :
  let m := jupiter_swap rt w input_mint output_mint amount slippage_bps dry_run in
  build_calls (trace m) = [] \/
  (dry_run = false /\
   exists quote,
     let v := quoted_value rt w input_mint quote in
     http_get w (JUPITER_SWAP_URL ++ "/quote")
       (quote_params rt input_mint output_mint amount slippage_bps) = Some quote /\
     authority_allows w (swap_request v false) = true /\
     truthy (get_solana_address w) = true /\
     build_calls (trace m) = [build_call w quote] /\
     (gate_calls (trace m) = [check_call v; build_call w quote] \/
      gate_calls (trace m) = [check_call v; build_call w quote; commit_call v])).
Proof.
  intros m.
  pose proof (jupiter_swap_run rt w input_mint output_mint amount slippage_bps dry_run)
    as Hrun.
  fold m in Hrun. remember m as m' eqn:Hm. clear Hm.
  inversion Hrun as [Hq | quote t Hq Ht Hwhy Hg | quote d t r0 calls Hq Ht Hd Hg Hgated];
    subst m'.
  - left. reflexivity.
  - left. cbn [trace snd]. now apply build_calls_nil_of_gate.
  - cbn [trace result fst snd]. rewrite build_calls_gate.
    rewrite (gate_calls_prefix _ _ Hg).
    inversion Hgated as [msg t' Hc Hg' | msg Hc Hdry | msg Hc Hdry Ha | msg e Hc Hdry Ha Hb
                         | msg tx Hc Hdry Ha Hb Htx | msg tx t' Hc Hdry Ha Hb Htx Hg'].
    + left.
      match goal with
      | |- context [gate_calls (?a :: ?b :: t')] =>
          change (a :: b :: t') with ([a; b] ++ t')%list
      end.
      rewrite gate_calls_app, Hg'. reflexivity.
    + left. reflexivity.
    + left. reflexivity.
    + right. split; [exact Hdry |]. exists quote. cbn zeta.
      split; [exact Hq |]. split; [exact (check_allowed _ _ _ _ _ Hc) |].
      split; [exact Ha |]. split; [| left]; cbn; now rewrite String.eqb_refl.
    + right. split; [exact Hdry |]. exists quote. cbn zeta.
      split; [exact Hq |]. split; [exact (check_allowed _ _ _ _ _ Hc) |].
      split; [exact Ha |]. split; [| left]; cbn; now rewrite String.eqb_refl.
    + right. split; [exact Hdry |]. exists quote. cbn zeta.
      split; [exact Hq |]. split; [exact (check_allowed _ _ _ _ _ Hc) |].
      split; [exact Ha |].
      match goal with
      | |- context [gate_calls (?a :: ?b :: ?c :: t')] =>
          change (a :: b :: c :: t') with ([a; b; c] ++ t')%list
      end.
      rewrite gate_calls_app, Hg'.
      split; [| right]; cbn; now rewrite String.eqb_refl.
Qed.

(** ** The audit trail of a swap *)

Lemma appended_paths_app (t1 t2 : list event) :
  appended_paths (t1 ++ t2) = (appended_paths t1 ++ appended_paths t2)%list.
Proof. apply omap_app. Qed.

Lemma appended_paths_log (path : string) (entry : dict) (t : list event) :
  appended_paths (EvAppendJsonl path entry :: t) = path :: appended_paths t.
Proof. reflexivity. Qed.

Lemma appended_paths_http (t : list event) : only_http t -> appended_paths t = [].
Proof.
  induction 1 as [| e t He _ IH]; [reflexivity |].
  destruct e; try discriminate He; exact IH.
Qed.

Lemma swap_value_http (rt : Runtime) (w : World) (input_mint : string) (quote : json) :
  only_http (trace (swap_value rt w input_mint quote)).
Proof.
  unfold swap_value.
  destruct (get quote "inAmount" (JInt 0)) as [raw | e] eqn:Hget.
  2: { cbn. destruct (bool_decide _); constructor. }
  cbn [lift bind].
  destruct (int rt raw) as [n | e] eqn:Hint.
  2: { cbn. destruct (bool_decide _); constructor. }
  pose proof (chain_price_http rt w "solana" (JStr SOL_MINT)) as Hp.
  fold (get_sol_price rt w) in Hp.
  destruct (get_sol_price rt w) as [[p | e] t]; cbn [trace snd] in Hp.
  - destruct (String.eqb input_mint SOL_MINT); cbn; now rewrite !app_nil_r.
  - cbn. destruct (bool_decide _); cbn; now rewrite ?app_nil_r.
Qed.

Lemma send_telegram_paths (rt : Runtime) (w : World) (message : string) :
  exists r t, send_telegram rt w message = (Ok r, t) /\
    (appended_paths t = [] \/ appended_paths t = [TELEGRAM_MESSAGES_OUT]).
Proof.
  unfold send_telegram. destruct (telegram_configured w); cbn; [| eauto].
  destruct (telegram_send w message) as [[|] |]; cbn; eauto.
Qed.

Lemma log_financial_event_paths (rt : Runtime) (w : World) (ty : string) (data : dict) :
  exists t, log_financial_event rt w ty data = (Ok tt, t) /\
    (appended_paths t = [EVENTS_LOG] \/
     appended_paths t = [EVENTS_LOG; TELEGRAM_MESSAGES_OUT]).
Proof.
  unfold log_financial_event, _append_jsonl.
  destruct (send_telegram_paths rt w
              ("[" ++ ty ++ "] " ++ substring 0 200 (json_dumps rt (JDict data))))
    as (r & t & Hs & Hp).
  rewrite Hs. cbn [bind emit catch ret app]. rewrite app_nil_r.
  eexists. split; [reflexivity |].
  rewrite appended_paths_log. destruct Hp as [-> | ->]; auto.
Qed.

Lemma swap_execute_paths (rt : Runtime) (w : World) (input_mint output_mint : string)
    (dry_run : bool) (quote : json) (value_usd : Qc) (in_amount_s out_amount_s : json)
    (quote_info : dict) (allowed : bool) (msg : string) :
  let m := swap_execute rt w input_mint output_mint dry_run quote value_usd
             in_amount_s out_amount_s quote_info allowed msg in
  match result m with
  | Ok r => swap_log_lines r (appended_paths (trace m))
  | Raise _ => appended_paths (trace m) = []
  end.
Proof.
  unfold swap_execute.
  destruct (truthy (get_solana_address w)); cbn [negb].
  2: { cbn. right. right. auto. }
  destruct (jupiter_get_swap_tx_run w quote (get_solana_address w)) as [r Hb].
  destruct r as [swap_tx | e].
  2: { rewrite (bind_raise _ _ _ _ Hb). reflexivity. }
  rewrite (bind_ok _ _ _ _ Hb).
  destruct (truthy swap_tx); cbn [negb].
  2: { cbn. right. right. auto. }
  destruct (check_policy_run rt w "solana" value_usd "jupiter_swap" true) as [msg' Hc].
  rewrite (bind_ok _ _ _ _ Hc).
  match goal with
  | |- context [log_financial_event rt w ?ty ?data] =>
      destruct (log_financial_event_paths rt w ty data) as (t & Hl & Hp)
  end.
  rewrite (bind_ok _ _ _ _ Hl).
  match goal with
  | |- context [record_decision rt w ?ty ?reasoning ?data] =>
      destruct (record_decision_run rt w ty reasoning data) as [entry Hd]
  end.
  rewrite (bind_ok _ _ _ _ Hd).
  cbn [result trace fst snd ret app].
  left. split; [reflexivity |].
  match goal with
  | |- context [appended_paths (?a :: ?b :: ?rest)] =>
      change (appended_paths (a :: b :: rest)) with (appended_paths rest)
  end.
  rewrite ?app_nil_r, appended_paths_app. destruct Hp as [-> | ->]; auto.
Qed.

Lemma swap_gate_paths (rt : Runtime) (w : World) (input_mint output_mint : string)
    (dry_run : bool) (quote : json) (value_usd : Qc) (in_amount_s out_amount_s : json)
    (quote_info : dict) :
  let m := swap_gate rt w input_mint output_mint dry_run quote value_usd
             in_amount_s out_amount_s quote_info in
  match result m with
  | Ok r => swap_log_lines r (appended_paths (trace m))
  | Raise _ => appended_paths (trace m) = []
  end.
Proof.
  unfold swap_gate.
  destruct (check_policy_run rt w "solana" value_usd "jupiter_swap" false) as [msg Hc].
  rewrite (bind_ok _ _ _ _ Hc). cbn [fst snd].
  destruct (authority_allows w _); cbn [negb].
  - destruct dry_run.
    + cbn. right. right. auto.
    + pose proof (swap_execute_paths rt w input_mint output_mint false quote value_usd
                    in_amount_s out_amount_s quote_info true msg) as He.
      cbn zeta in He. cbn [result trace fst snd app].
      destruct (swap_execute _ _ _ _ _ _ _ _ _ _ _ _) as [[r | e] t]; exact He.
  - match goal with
    | |- context [log_financial_event rt w ?ty ?data] =>
        destruct (log_financial_event_paths rt w ty data) as (t & Hl & Hp)
    end.
    rewrite (bind_ok _ _ _ _ Hl).
    cbn [result trace fst snd ret app]. rewrite app_nil_r.
    right. left. split; [reflexivity |]. exact Hp.
Qed.

Lemma swap_quoted_paths (rt : Runtime) (w : World) (input_mint output_mint : string)
    (dry_run : bool) (quote : json) :
  let m := swap_quoted rt w input_mint output_mint dry_run quote in
  match result m with
  | Ok r => swap_log_lines r (appended_paths (trace m))
  | Raise _ => appended_paths (trace m) = []
  end.
Proof.
  cbn zeta. unfold swap_quoted.
  pose proof (swap_value_http rt w input_mint quote) as Hv.
  destruct (swap_value rt w input_mint quote) as [[v | e] tv] eqn:Hsv;
    cbn [trace snd] in Hv.
  2: { rewrite (bind_raise _ _ _ _ eq_refl). now apply appended_paths_http. }
  rewrite (bind_ok _ _ _ _ eq_refl). cbn [result trace fst snd].
  rewrite appended_paths_app, (appended_paths_http _ Hv). cbn [app].
  destruct (get quote "inAmount" (JStr "")) as [a | e]; [| reflexivity].
  rewrite (bind_ok _ _ _ _ (eq_refl : lift (Ok a) = (Ok a, []))).
  cbn [result trace fst snd app].
  destruct (get quote "outAmount" (JStr "")) as [b | e]; [| reflexivity].
  rewrite (bind_ok _ _ _ _ (eq_refl : lift (Ok b) = (Ok b, []))).
  cbn [result trace fst snd app].
  destruct (get quote "priceImpactPct" (JStr "?")) as [c | e]; [| reflexivity].
  rewrite (bind_ok _ _ _ _ (eq_refl : lift (Ok c) = (Ok c, []))).
  cbn [result trace fst snd app].
  apply swap_gate_paths.
Qed.

(** X17. The audit trail of a swap: an invocation that ends [tx_ready]
    appends exactly one line to the event log and then one to the decision
    log; one that ends [policy_denied] appends exactly one line to the
    event log; in both cases the outbox line of an acknowledged Telegram
    notification may follow the event line; and an invocation that ends in
    an error or [quote_ready], or that raises, appends nothing to any
    log. *)
Theorem swap_audit_trail (rt : Runtime) (w : World) (input_mint output_mint : string)
    (amount slippage_bps : Z) (dry_run : bool) :
  let m := jupiter_swap rt w input_mint output_mint amount slippage_bps dry_run in
  match result m with
  | Ok r => swap_log_lines r (appended_paths (trace m))
  | Raise _ => appended_paths (trace m) = []
  end.
Proof.
  cbn zeta. rewrite jupiter_swap_stages.
  assert (Hq : jupiter_get_quote rt w input_mint output_mint amount slippage_bps
               = (Ok (http_get w (JUPITER_SWAP_URL ++ "/quote")
                        (quote_params rt input_mint output_mint amount slippage_bps)),
                  [quote_call rt input_mint output_mint amount slippage_bps]))
    by reflexivity.
  rewrite (bind_ok _ _ _ _ Hq). clear Hq.
  cbn [result trace fst snd]. rewrite appended_paths_app.
  change (appended_paths [quote_call rt input_mint output_mint amount slippage_bps])
    with (@nil string).
  cbn [app].
  destruct (negb (truthy_opt _)).
  - right. right. split; [now left | reflexivity].
  - apply swap_quoted_paths.
Qed.

(** ** Polymarket *)

Lemma market_row_object (d : dict) :
  exists r, market_row (JDict d) = Ok r /\
            map fst r = ["id"; "question"; "volume_24h"; "liquidity"; "end_date";
                         "outcomes"; "outcome_prices"] /\
            dict_lookup "id" r = Some (default (JStr "") (dict_lookup "id" d)).
Proof. eexists. split; [reflexivity |]. split; reflexivity. Qed.

Lemma search_row_object (d : dict) :
  exists r, search_row (JDict d) = Ok r /\
            map fst r = ["id"; "question"; "volume_24h"; "outcome_prices"] /\
            dict_lookup "id" r = Some (default (JStr "") (dict_lookup "id" d)).
Proof. eexists. split; [reflexivity |]. split; reflexivity. Qed.

Lemma rows_of_run (row : json -> res dict) (items : list json) :
  (forall m, is_object m = true -> exists r, row m = Ok r) ->
  (forall m, is_object m = false -> row m = Raise AttributeError) ->
  (forallb is_object items = true ->
     exists rows, rows_of row items = Ok rows /\
                  Forall2 (fun m r => row m = Ok r) items rows) /\
  (forallb is_object items = false -> rows_of row items = Raise AttributeError).
Proof.
  intros Hobj Hnon. induction items as [| m items [IH1 IH2]]; cbn [forallb rows_of].
  - split; [| discriminate]. intros _. exists []. split; [reflexivity | constructor].
  - destruct (is_object m) eqn:Hm; cbn [andb].
    + destruct (Hobj m Hm) as [r Hr]. rewrite Hr. cbn [rbind]. split.
      * intros Hall. destruct (IH1 Hall) as (rows & Hrows & HF).
        rewrite Hrows. exists (r :: rows). split; [reflexivity | now constructor].
      * intros Hall. now rewrite (IH2 Hall).
    + split; [discriminate |]. intros _. now rewrite (Hnon m Hm).
Qed.

Lemma market_row_non_object (m : json) :
  is_object m = false -> market_row m = Raise AttributeError.
Proof. now destruct m. Qed.

Lemma search_row_non_object (m : json) :
  is_object m = false -> search_row m = Raise AttributeError.
Proof. now destruct m. Qed.

Lemma market_row_is_object (m : json) :
  is_object m = true -> exists r, market_row m = Ok r.
Proof. destruct m; try discriminate. intros _. eexists. reflexivity. Qed.

Lemma search_row_is_object (m : json) :
  is_object m = true -> exists r, search_row m = Ok r.
Proof. destruct m; try discriminate. intros _. eexists. reflexivity. Qed.

(** X18. [polymarket_get_markets] and [polymarket_search] return one row
    per item of the response list, in order, each with the fixed keys of
    its function and the item's [id] (the empty string when it has none);
    a failed call and a body that is not a list give the empty list; and
    both raise [AttributeError] exactly when an item of the list is not an
    object. *)
Theorem polymarket_rows (w : World) (limit : Z) (active : bool) (query : string) :
  let markets := polymarket_get_markets w limit active in
  let found := polymarket_search w query limit in
  let items :=
    market_items
      (http_get w (POLYMARKET_API ++ "/markets")
         [("limit", JInt limit); ("active", JStr (if active then "true" else "false"));
          ("order", JStr "volume24hr"); ("ascending", JStr "false")]) in
  let found_items :=
    market_items
      (http_get w (POLYMARKET_API ++ "/markets")
         [("limit", JInt limit); ("query", JStr query); ("active", JStr "true")]) in
  (if forallb is_object items
   then exists rows, result markets = Ok rows /\
                     Forall2 (fun m r => market_row m = Ok r) items rows
   else result markets = Raise AttributeError) /\
  (if forallb is_object found_items
   then exists rows, result found = Ok rows /\
                     Forall2 (fun m r => search_row m = Ok r) found_items rows
   else result found = Raise AttributeError) /\
  (forall d, exists r,
     market_row (JDict d) = Ok r /\
     map fst r = ["id"; "question"; "volume_24h"; "liquidity"; "end_date";
                  "outcomes"; "outcome_prices"] /\
     dict_lookup "id" r = Some (default (JStr "") (dict_lookup "id" d))) /\
  (forall d, exists r,
     search_row (JDict d) = Ok r /\
     map fst r = ["id"; "question"; "volume_24h"; "outcome_prices"] /\
     dict_lookup "id" r = Some (default (JStr "") (dict_lookup "id" d))).
Proof.
  intros markets found items found_items.
  split; [| split; [| split; [exact market_row_object | exact search_row_object]]].
  - clear found found_items. subst markets items.
    unfold polymarket_get_markets, _http_get_json.
    cbn [bind emit ret].
    destruct (http_get w _ _) as [body |]; cbn [market_items forallb].
    2: { exists []. split; [reflexivity | constructor]. }
    destruct (rows_of_run market_row (match body with JList l => l | _ => [] end)
                market_row_is_object market_row_non_object) as [H1 H2].
    destruct body as [| b | n | q | s | l | d]; cbn [forallb] in *;
      try (exists []; split; [| constructor];
           match goal with |- context [truthy ?v] => destruct (truthy v) end;
           reflexivity).
    cbn [truthy].
    destruct l as [| m l]; [exists []; split; [reflexivity | constructor] |].
    destruct (forallb is_object (m :: l)).
    + destruct (H1 eq_refl) as (rows & Hrows & HF). exists rows.
      unfold lift. now rewrite Hrows.
    + unfold lift. now rewrite (H2 eq_refl).
  - clear markets items. subst found found_items.
    unfold polymarket_search, _http_get_json.
    cbn [bind emit ret].
    destruct (http_get w _ _) as [body |]; cbn [market_items forallb].
    2: { exists []. split; [reflexivity | constructor]. }
    destruct body as [| b | n | q | s | l | d]; cbn [forallb];
      try (exists []; split; [reflexivity | constructor]).
    destruct (rows_of_run search_row l
                search_row_is_object search_row_non_object) as [H1 H2].
    destruct l as [| m l]; [exists []; split; [reflexivity | constructor] |].
    cbn [truthy].
    destruct (forallb is_object (m :: l)).
    + destruct (H1 eq_refl) as (rows & Hrows & HF). exists rows.
      unfold lift. now rewrite Hrows.
    + unfold lift. now rewrite (H2 eq_refl).
Qed.

(** ** The budget gauge *)

Lemma trunc_bounds (x : Qc) (a b : Z) :
  0 <= a -> (Z2Qc a <= x)%Qc -> (x <= Z2Qc b)%Qc -> a <= trunc x <= b.
Proof.
  intros Ha Hl Hu. unfold trunc.
  unfold Qcle, Z2Qc, Q2Qc, this in Hl, Hu.
  rewrite Qred_correct in Hl, Hu. unfold Qle in Hl, Hu. cbn in Hl, Hu.
  destruct x as [[n d] Hc]. cbn in *.
  assert (Hn : 0 <= n) by nia.
  rewrite Z.quot_div_nonneg by lia.
  split.
  - apply Z.div_le_lower_bound; lia.
  - apply Z.div_le_upper_bound; lia.
Qed.

Lemma trunc_lower (x : Qc) (a : Z) : 0 <= a -> (Z2Qc a <= x)%Qc -> a <= trunc x.
Proof.
  intros Ha Hl. unfold trunc.
  unfold Qcle, Z2Qc, Q2Qc, this in Hl.
  rewrite Qred_correct in Hl. unfold Qle in Hl. cbn in Hl.
  destruct x as [[n d] Hc]. cbn in *.
  assert (Hn : 0 <= n) by nia.
  rewrite Z.quot_div_nonneg by lia.
  apply Z.div_le_lower_bound; lia.
Qed.

Lemma string_length_append (s1 s2 : string) :
  String.length (s1 ++ s2) = (String.length s1 + String.length s2)%nat.
Proof.
  induction s1 as [| c s1 IH]; [reflexivity |].
  change (S (String.length (s1 ++ s2)) = S (String.length s1 + String.length s2)).
  now rewrite IH.
Qed.

Lemma str_mul_length (s : string) (n : Z) :
  String.length (str_mul s n) = (String.length s * Z.to_nat n)%nat.
Proof.
  unfold str_mul. induction (Z.to_nat n) as [| k IH]; cbn [str_repeat].
  - cbn. lia.
  - rewrite string_length_append, IH. lia.
Qed.

(** The gauge fills in proportion to [spent / max]: one cell per eighth. *)
Lemma budget_ratio (daily_spent daily_max : Qc) :
  (0 < daily_max)%Qc ->
  (budget_pct daily_spent daily_max / Q2Qc (25 # 2))%Qc
  = (daily_spent / daily_max * Z2Qc 8)%Qc.
Proof.
  intros Hm. unfold budget_pct. rewrite bool_decide_eq_true_2 by exact Hm.
  assert (Hne : daily_max <> 0%Qc) by (intros ->; now apply Qclt_not_eq in Hm).
  assert (H8 : Z2Qc 100 = (Z2Qc 8 * Q2Qc (25 # 2))%Qc)
    by (apply Qc_is_canon; vm_compute; reflexivity).
  assert (H25 : Q2Qc (25 # 2) <> 0%Qc).
  { intros H. apply (f_equal this) in H. vm_compute in H. discriminate H. }
  rewrite H8. field. split; [exact Hne | exact H25].
Qed.

Lemma ratio_le (x y c : Qc) :
  (0 < y)%Qc -> (c * y <= x)%Qc -> (c <= x / y)%Qc.
Proof.
  intros Hy H. apply Qcmult_lt_0_le_reg_r with y; [exact Hy |].
  rewrite test_field; [exact H |]. intros ->. now apply Qclt_not_eq in Hy.
Qed.

Lemma ratio_ge (x y c : Qc) :
  (0 < y)%Qc -> (x <= c * y)%Qc -> (x / y <= c)%Qc.
Proof.
  intros Hy H. apply Qcmult_lt_0_le_reg_r with y; [exact Hy |].
  rewrite test_field; [exact H |]. intros ->. now apply Qclt_not_eq in Hy.
Qed.


(** ** The build step *)

(** X20. [jupiter_get_swap_tx] makes exactly one call, the POST of the
    quote and the wallet address to the swap endpoint.  A failed call or an
    empty body gives [None]; a body that is an object gives its
    [swapTransaction], [None] when it has none; and the function raises,
    [AttributeError], exactly when the body is a non-empty JSON value that
    is not an object: its [.get] is outside the [try]. *)
Theorem swap_tx_run (w : World) (quote user_pubkey : json) :
  let m := jupiter_get_swap_tx w quote user_pubkey in
  let body :=
    http_post w (JUPITER_SWAP_URL ++ "/swap")
      (JDict [("quoteResponse", quote); ("userPublicKey", user_pubkey)]) in
  trace m = [EvHttpPost (JUPITER_SWAP_URL ++ "/swap")
               (JDict [("quoteResponse", quote); ("userPublicKey", user_pubkey)])] /\
  (truthy_opt body = false -> result m = Ok JNull) /\
  (forall d, body = Some (JDict d) ->
     result m = Ok (default JNull (dict_lookup "swapTransaction" d))) /\
  (forall e, result m = Raise e <->
     e = AttributeError /\
     exists b, body = Some b /\ truthy b = true /\ is_object b = false).
Proof.
  intros m body. subst m. unfold jupiter_get_swap_tx.
  cbn [bind emit ret app]. fold body.
  destruct body as [b |]; cbn [truthy_opt].
  2: { split; [reflexivity |]. split; [reflexivity |]. split; [discriminate |].
       intros e. split; [discriminate |]. intros [_ (b & Hb & _)]. discriminate Hb. }
  destruct (truthy b) eqn:Ht.
  2: { split; [reflexivity |]. split; [reflexivity |]. split.
       - intros d Hd. injection Hd as ->. now destruct d.
       - intros e. split; [discriminate |].
         intros [_ (b' & Hb & Ht' & _)]. injection Hb as <-. congruence. }
  destruct b as [| x | n | q | s | l | d]; cbn;
    (split; [now rewrite ?app_nil_r |]; split; [discriminate |]; split;
     [intros d' Hd; try discriminate Hd; now injection Hd as <- |]);
    intros e; split;
    try (intros H; injection H as <-; split; [reflexivity |];
         eexists; split; [reflexivity |]; split; [exact Ht | reflexivity]);
    try (intros [-> _]; reflexivity);
    try discriminate.
  intros [_ (b' & Hb & _ & Ho)]. injection Hb as <-. discriminate Ho.
Qed.
